(** * Emotion detection backend (backend/app.py): model and properties

    A shallow embedding of the prediction core of the Flask backend:
    text normalisation ([EmotionPredictor.preprocess_text]), single
    prediction ([EmotionPredictor.predict]), the batch and conversation
    endpoints and the bounded prediction history.

    Conventions of the embedding.
    - A Python [str] is a [string]; a character is read as the code point
      of the same number (U+0000 to U+00FF), so the character classes of
      the regular expressions ([\s], [\S], [\w]) and [str.lower] are the
      ones CPython uses on that range.
    - Values coming from [request.get_json()] are [pyval]s.
    - NLTK (stop words, [word_tokenize], [WordNetLemmatizer]) and the
      pickled scikit-learn objects are collaborators of the program: they
      are fields of the records [NLTK] and [Predictor] and every
      definition is parametrised by them.
    - A Python call that may raise returns a [result]; the calls made to
      the vectoriser and the model are logged in a [trace], so that "no
      classification was attempted" is a statement about the log.
    - A Python [float] is an IEEE 754 binary64 number.  The finite ones
      are rationals ([Q]); every arithmetic operation returns the exact
      result rounded to the nearest binary64 number, ties to even
      ([float]), and [round(x, 2)] is CPython's: the decimal with two
      places nearest to the exact value of [x], ties to even, converted
      back to the nearest binary64 number.  Infinities and NaN, that is
      overflow and invalid operations, are outside the model. *)

From Stdlib Require Import String Ascii List Bool Arith NArith ZArith QArith.
From Stdlib Require Import Qround Qabs Qpower Qreduction.
From Stdlib Require Import Lia Lqa Permutation Sorted.
Import ListNotations.

Local Close Scope Q_scope.
Local Open Scope string_scope.
Local Open Scope nat_scope.
Local Open Scope list_scope.

(** ** Exceptions and results *)

(** [str(e)] of the exception a call raised. *)
Definition exn := string.

Inductive result (A : Type) : Type :=
| Ok (a : A)
| Raise (e : exn).
Arguments Ok {A} a.
Arguments Raise {A} e.

Definition bind {A B} (r : result A) (f : A -> result B) : result B :=
  match r with
  | Ok a => f a
  | Raise e => Raise e
  end.

Notation "x <- c ;; k" := (bind c (fun x => k))
  (at level 61, c at next level, right associativity).

(** [[f(x) for x in xs]] where [f] may raise: the first exception ends
    the comprehension. *)
Fixpoint mapM {A B} (f : A -> result B) (xs : list A) : result (list B) :=
  match xs with
  | [] => Ok []
  | x :: xs' => y <- f x ;; ys <- mapM f xs' ;; Ok (y :: ys)
  end.

(** ** Characters *)

Definition code (c : ascii) : N := N_of_ascii c.

Definition in_range (lo hi : N) (c : ascii) : bool :=
  ((lo <=? code c) && (code c <=? hi))%N.

(** [a-z] and [A-Z]. *)
Definition is_az (c : ascii) : bool := in_range 97 122 c.
Definition is_AZ (c : ascii) : bool := in_range 65 90 c.

(** [\s] of a [str] pattern, which is also what [str.strip()] removes:
    TAB LF VT FF CR, FS GS RS US, space, NEL and NBSP. *)
Definition is_space (c : ascii) : bool :=
  in_range 9 13 c || in_range 28 32 c || (code c =? 133)%N || (code c =? 160)%N.

(** [\w] of a [str] pattern: [str.isalnum()] or the underscore. *)
Definition is_word (c : ascii) : bool :=
  in_range 48 57 c || is_AZ c || is_az c || (code c =? 95)%N
  || (code c =? 170)%N || in_range 178 179 c || (code c =? 181)%N
  || in_range 185 186 c || in_range 188 190 c
  || in_range 192 214 c || in_range 216 246 c || in_range 248 255 c.

(** One character of [str.lower()]. *)
Definition lower_char (c : ascii) : ascii :=
  if is_AZ c || in_range 192 214 c || in_range 216 222 c
  then ascii_of_N (code c + 32)
  else c.

(** ** Strings *)

Fixpoint map_string (f : ascii -> ascii) (s : string) : string :=
  match s with
  | EmptyString => EmptyString
  | String c s' => String (f c) (map_string f s')
  end.

Fixpoint filter_string (p : ascii -> bool) (s : string) : string :=
  match s with
  | EmptyString => EmptyString
  | String c s' => if p c then String c (filter_string p s') else filter_string p s'
  end.

Fixpoint forall_string (p : ascii -> bool) (s : string) : bool :=
  match s with
  | EmptyString => true
  | String c s' => p c && forall_string p s'
  end.

Definition is_empty (s : string) : bool :=
  match s with EmptyString => true | _ => false end.

(** [text.lower()] *)
Definition lower (s : string) : string := map_string lower_char s.

(** The rest of [s] after the literal [p], when [s] starts with [p]. *)
Fixpoint after (p s : string) : option string :=
  match p, s with
  | EmptyString, _ => Some s
  | String a p', String b s' => if Ascii.eqb a b then after p' s' else None
  | String _ _, EmptyString => None
  end.

(** The literal [p] followed by at least one [\S]. *)
Definition lit_nonspace (p s : string) : bool :=
  match after p s with
  | Some (String c _) => negb (is_space c)
  | _ => false
  end.

(** [http\S+|www\S+|https\S+] matches at the start of [s]. *)
Definition url_here (s : string) : bool :=
  lit_nonspace "http" s || lit_nonspace "www" s || lit_nonspace "https" s.

(** [re.sub(r'http\S+|www\S+|https\S+', '', text)]: scanning from the
    left, a match starts wherever the pattern matches and, [\S+] being
    greedy, runs to the next white space; [inside] says that the current
    character continues a match. *)
Fixpoint sub_urls (inside : bool) (s : string) : string :=
  match s with
  | EmptyString => EmptyString
  | String c s' =>
      if (inside && negb (is_space c)) || url_here s
      then sub_urls true s'
      else String c (sub_urls false s')
  end.

Definition remove_urls (s : string) : string := sub_urls false s.

(** [@\w+|#\w+] matches at the start of [s]. *)
Definition mention_here (s : string) : bool :=
  match s with
  | String c (String d _) =>
      (Ascii.eqb c "@" || Ascii.eqb c "#") && is_word d
  | _ => false
  end.

(** [re.sub(r'@\w+|#\w+', '', text)] *)
Fixpoint sub_mentions (inside : bool) (s : string) : string :=
  match s with
  | EmptyString => EmptyString
  | String c s' =>
      if (inside && is_word c) || mention_here s
      then sub_mentions true s'
      else String c (sub_mentions false s')
  end.

Definition remove_mentions (s : string) : string := sub_mentions false s.

(** [re.sub(r'[^a-zA-Z\s]', '', text)] *)
Definition remove_special (s : string) : string :=
  filter_string (fun c => is_az c || is_AZ c || is_space c) s.

(** [re.sub(r'\s+', ' ', text)]; [prev] says that the previous character
    was white space, already replaced. *)
Fixpoint sub_spaces (prev : bool) (s : string) : string :=
  match s with
  | EmptyString => EmptyString
  | String c s' =>
      if is_space c
      then if prev then sub_spaces true s' else String " " (sub_spaces true s')
      else String c (sub_spaces false s')
  end.

Definition collapse_spaces (s : string) : string := sub_spaces false s.

Fixpoint lstrip (s : string) : string :=
  match s with
  | EmptyString => EmptyString
  | String c s' => if is_space c then lstrip s' else s
  end.

Fixpoint rstrip (s : string) : string :=
  match s with
  | EmptyString => EmptyString
  | String c s' =>
      let r := rstrip s' in
      if is_space c && is_empty r then EmptyString else String c r
  end.

(** [text.strip()] *)
Definition strip (s : string) : string := rstrip (lstrip s).

(** [sep.join(parts)] *)
Fixpoint join (sep : string) (parts : list string) : string :=
  match parts with
  | [] => EmptyString
  | [p] => p
  | p :: rest => (p ++ sep ++ join sep rest)%string
  end.

(** [w in words] on a set or a list of strings. *)
Definition mem (w : string) (words : list string) : bool :=
  existsb (String.eqb w) words.

(** [a - b] on sets of strings. *)
Definition set_diff (a b : list string) : list string :=
  filter (fun w => negb (mem w b)) a.

(** ** Python values *)

(** What [request.get_json()] can return. *)
#[warnings="-register-all"]
Inductive pyval : Type :=
| PyNone
| PyBool (b : bool)
| PyNum (q : Q)
| PyStr (s : string)
| PyList (l : list pyval)
| PyDict (d : list (string * pyval)).

(** ** NLTK *)

(** The NLTK objects the module uses.  [stopwords_words] is the call
    [stopwords.words('english')] inside the [try] of the module
    initialisation, which raises when the corpus is not installed;
    [stopwords_words_retry] is the same call in the [except] branch,
    after the download. *)
Record NLTK : Type := {
  stopwords_words : result (list string);
  stopwords_words_retry : list string;
  word_tokenize : string -> result (list string);
  lemmatize : string -> result string
}.

Definition EMOTION_WORDS : list string :=
  ["not"; "no"; "never"; "neither"; "nobody"; "nothing"; "nowhere";
   "hardly"; "barely"; "scarcely"; "rarely"; "seldom"].

Section Normalisation.

Variable nltk : NLTK.

(** The module-level [stop_words] once the [try]/[except] that
    initialises the NLP tools has run. *)
Definition stop_words : list string :=
  match stopwords_words nltk with
  | Ok words => set_diff words EMOTION_WORDS
  | Raise _ => stopwords_words_retry nltk
  end.

(** The text handed to [word_tokenize]: the successive reassignments
    of [text] in [preprocess_text]. *)
Definition clean (text : string) : string :=
  let text := lower text in
  let text := remove_urls text in
  let text := remove_mentions text in
  let text := remove_special text in
  let text := strip (collapse_spaces text) in
  text.

(** [token not in stop_words and len(token) > 2] *)
Definition keep_token (token : string) : bool :=
  negb (mem token stop_words) && (2 <? String.length token).

(** [processed_tokens] of [preprocess_text], for a [str] argument. *)
Definition processed_tokens (text : string) : result (list string) :=
  tokens <- word_tokenize nltk (clean text) ;;
  mapM (lemmatize nltk) (filter keep_token tokens).

(** [EmotionPredictor.preprocess_text] *)
Definition preprocess_text (text : pyval) : result string :=
  match text with
  | PyStr s =>
      tokens <- processed_tokens s ;;
      Ok (join " " tokens)
  | _ => Ok ""
  end.

End Normalisation.

(** ** Numbers *)

Definition Qlt_bool (a b : Q) : bool := negb (Qle_bool b a).

(** Nearest integer, ties to even. *)
Definition round_half_even (x : Q) : Z :=
  let f := Qfloor x in
  match (x - inject_Z f ?= 1 # 2)%Q with
  | Lt => f
  | Gt => (f + 1)%Z
  | Eq => if Z.even f then f else (f + 1)%Z
  end.

(** *** Binary64 arithmetic

    A finite binary64 number is [m * 2 ^ e] for integers [m] and [e]
    with [|m| < 2 ^ 53] and [-1074 <= e] ([e <= 971], which the model
    leaves out: it has no overflow). *)

(** [ilog2 a] is the integer [k] with [2 ^ k <= a < 2 ^ (k + 1)], for
    [0 < a]. *)
Definition ilog2 (a : Q) : Z :=
  let k := (Z.log2 (Qnum a) - Z.log2 (Zpos (Qden a)))%Z in
  if Qle_bool (2 ^ k) a then k else (k - 1)%Z.

(** The exponent of the unit in the last place of the binary64 numbers
    around [x]: 53 significant bits, and [2 ^ -1074] for the subnormal
    numbers. *)
Definition exponent (x : Q) : Z := Z.max (ilog2 (Qabs x) - 52) (-1074).

(** The binary64 number nearest to the rational [x], ties to even: what
    a float literal denotes and what every operation on floats returns
    for its exact result [x].  That [float x] is a binary64 number, that
    none is nearer to [x], and that rounding keeps the order are the
    lemmas [float_binary64], [float_nearest] and [float_mono]. *)
Definition float (x : Q) : Q :=
  let e := exponent x in
  Qred (inject_Z (round_half_even (x * 2 ^ (- e))) * 2 ^ e)%Q.

(** [a * b], [a + b] and [a / b] on floats (an [int] operand is
    converted first, exactly for the integers of the program; the
    program divides by a length or a total that it has found positive,
    so that [ZeroDivisionError] does not arise). *)
Definition fmul (a b : Q) : Q := float (a * b)%Q.
Definition fadd (a b : Q) : Q := float (a + b)%Q.
Definition fdiv (a b : Q) : Q := float (a / b)%Q.

(** [round(x, 2)]: [x] is rounded to two decimal places on its exact
    value, ties to even, and the decimal is converted to a float
    (CPython's [double_round], correctly rounded both ways). *)
Definition py_round2 (x : Q) : Q :=
  float (Qmake (round_half_even (x * 100)%Q) 100).

Arguments float x : simpl never.
Arguments fmul a b : simpl never.
Arguments fadd a b : simpl never.
Arguments fdiv a b : simpl never.
Arguments py_round2 x : simpl never.

(** [str(e)] of the [ValueError] of [max] on an empty sequence, as
    CPython words it up to version 3.11. *)
Definition max_empty : exn := "max() arg is an empty sequence".

(** [max(xs)]: the first of the largest elements. *)
Definition py_max (xs : list Q) : result Q :=
  match xs with
  | [] => Raise max_empty
  | x :: rest => Ok (fold_left (fun m y => if Qlt_bool m y then y else m) rest x)
  end.

(** ** Dictionaries

    A [dict] is the list of its items in insertion order, with one item
    per key. *)

Section Dict.

Context {V : Type}.

Fixpoint dict_get (k : string) (d : list (string * V)) : option V :=
  match d with
  | [] => None
  | (k', v) :: d' => if String.eqb k k' then Some v else dict_get k d'
  end.

(** [d[k] = v]: a key already present keeps its place. *)
Fixpoint dict_set (k : string) (v : V) (d : list (string * V))
  : list (string * V) :=
  match d with
  | [] => [(k, v)]
  | (k', v') :: d' =>
      if String.eqb k k' then (k, v) :: d' else (k', v') :: dict_set k v d'
  end.

(** [dict(items)] *)
Definition dict_of (items : list (string * V)) : list (string * V) :=
  fold_left (fun d kv => dict_set (fst kv) (snd kv) d) items [].

Definition keys (d : list (string * V)) : list string := map fst d.

End Dict.

(** [sorted(items, key=lambda x: x[1], reverse=True)]: the sort is
    stable, also when reversed, so an item moves in front of the items
    with a strictly smaller value only. *)
Fixpoint insert_desc (x : string * Q) (l : list (string * Q))
  : list (string * Q) :=
  match l with
  | [] => [x]
  | y :: l' =>
      if Qlt_bool (snd x) (snd y) then y :: insert_desc x l' else x :: l
  end.

Definition sorted_desc (items : list (string * Q)) : list (string * Q) :=
  fold_right insert_desc [] items.

(** ** Emotion configuration *)

Record EmotionDetails : Type := {
  d_emoji : string;
  d_color : string;
  d_description : string;
  d_intensity : string
}.

(** [EMOTION_CONFIG]; an emoji is the [string] of its UTF-8 bytes. *)
Definition EMOTION_CONFIG : list (string * EmotionDetails) :=
  [("happiness",
    {| d_emoji := "😊"; d_color := "#FFD700";
       d_description := "Joyful, content, or pleased feeling";
       d_intensity := "positive" |});
   ("anger",
    {| d_emoji := "😠"; d_color := "#DC143C";
       d_description := "Irritated, frustrated, or furious feeling";
       d_intensity := "negative" |});
   ("sadness",
    {| d_emoji := "😢"; d_color := "#4169E1";
       d_description := "Unhappy, sorrowful, or depressed feeling";
       d_intensity := "negative" |});
   ("stress",
    {| d_emoji := "😰"; d_color := "#FF8C00";
       d_description := "Anxious, overwhelmed, or tense feeling";
       d_intensity := "negative" |});
   ("neutral",
    {| d_emoji := "😐"; d_color := "#808080";
       d_description := "No strong emotion detected";
       d_intensity := "neutral" |})].

(** The default of [EMOTION_CONFIG.get(emotion, {...})] in [predict]. *)
Definition unknown_details : EmotionDetails :=
  {| d_emoji := "❓"; d_color := "#000000";
     d_description := "Unknown emotion";
     d_intensity := "unknown" |}.

(** ** The predictor *)

(** The unpickled objects of an [EmotionPredictor]: [self.vectorizer]
    and [self.model].  [transform s] is
    [self.vectorizer.transform([s])], [model_predict v] is
    [self.model.predict(v)[0]], [model_predict_proba] is [None] when
    [hasattr(self.model, 'predict_proba')] is false and otherwise gives
    [self.model.predict_proba(v)[0]]; [classes_] is [self.model.classes_]. *)
Record Predictor : Type := {
  features : Type;
  transform : string -> result features;
  model_predict : features -> result string;
  model_predict_proba : option (features -> result (list Q));
  classes_ : list string
}.

(** The calls made to the vectoriser and to the model. *)
Inductive call : Type :=
| Transform (text : string)
| Predict
| PredictProba.

Definition trace := list call.

(** A computation that may raise and logs the calls it makes. *)
Definition traced (A : Type) : Type := result A * trace.

Definition ret {A} (a : A) : traced A := (Ok a, []).

(** A step that makes no call to the predictor. *)
Definition pure {A} (r : result A) : traced A := (r, []).

(** The call [c], with outcome [r]. *)
Definition invoke {A} (c : call) (r : result A) : traced A := (r, [c]).

Definition tbind {A B} (m : traced A) (f : A -> traced B) : traced B :=
  match m with
  | (Ok a, t) => let (r, t') := f a in (r, t ++ t')
  | (Raise e, t) => (Raise e, t)
  end.

Notation "x <~ c ;; k" := (tbind c (fun x => k))
  (at level 61, c at next level, right associativity).

(** The [dict] a successful [predict] returns. *)
Record Prediction : Type := {
  emotion : string;
  confidence : Q;
  emoji : string;
  color : string;
  description : string;
  intensity : string;
  all_probabilities : list (string * Q);
  processed_text : string;
  original_text : pyval
}.

(** What [predict] returns: [{'success': True, ...}] or
    [{'success': False, 'error': ...}]. *)
Inductive PredictionResult : Type :=
| Success (p : Prediction)
| Failure (error : string).

Definition success (r : PredictionResult) : bool :=
  match r with Success _ => true | Failure _ => false end.

Section Predict.

Variable nltk : NLTK.
Variable self : Predictor.

(** The [if hasattr(self.model, 'predict_proba')] block of [predict]:
    [confidence] and [all_probabilities] before any rounding. *)
Definition probabilities_of (emotion : string) (text_vector : features self)
  : traced (Q * list (string * Q)) :=
  match model_predict_proba self with
  | Some predict_proba =>
      probabilities <~ invoke PredictProba (predict_proba text_vector) ;;
      confidence <~ pure (py_max probabilities) ;;
      let all_probabilities := dict_of (combine (classes_ self) probabilities) in
      let all_probabilities := dict_of (sorted_desc all_probabilities) in
      ret (confidence, all_probabilities)
  | None => ret (1%Q, [(emotion, 1%Q)])
  end.

(** The body of the [try] of [predict]. *)
Definition predict_body (text : pyval) : traced PredictionResult :=
  processed_text <~ pure (preprocess_text nltk text) ;;
  if is_empty processed_text
  then ret (Failure "Text is empty after preprocessing")
  else
    text_vector <~ invoke (Transform processed_text)
                          (transform self processed_text) ;;
    emotion <~ invoke Predict (model_predict self text_vector) ;;
    cp <~ probabilities_of emotion text_vector ;;
    let confidence := fst cp in
    let all_probabilities := snd cp in
    let emotion_details :=
      match dict_get emotion EMOTION_CONFIG with
      | Some details => details
      | None => unknown_details
      end in
    ret (Success
           {| emotion := emotion;
              confidence := py_round2 (fmul confidence 100);
              emoji := d_emoji emotion_details;
              color := d_color emotion_details;
              description := d_description emotion_details;
              intensity := d_intensity emotion_details;
              all_probabilities :=
                dict_of (map (fun kv => (fst kv, py_round2 (fmul (snd kv) 100)))
                             (firstn 5 all_probabilities));
              processed_text := processed_text;
              original_text := text |}).

(** [EmotionPredictor.predict]: the [try] and its [except Exception]. *)
Definition predict (text : pyval) : PredictionResult * trace :=
  match predict_body text with
  | (Ok r, t) => (r, t)
  | (Raise e, t) => (Failure e, t)
  end.

End Predict.

(** ** Operations of Python on request values *)

(** [bool(v)] *)
Definition truthy (v : pyval) : bool :=
  match v with
  | PyNone => false
  | PyBool b => b
  | PyNum q => negb (Qeq_bool q 0)
  | PyStr s => negb (is_empty s)
  | PyList l => match l with [] => false | _ => true end
  | PyDict d => match d with [] => false | _ => true end
  end.

(** [sub in s] on strings. *)
Fixpoint contains (sub s : string) : bool :=
  match after sub s with
  | Some _ => true
  | None => match s with
            | EmptyString => false
            | String _ s' => contains sub s'
            end
  end.

Definition is_str (key : string) (v : pyval) : bool :=
  match v with PyStr s => String.eqb key s | _ => false end.

Section Builtins.

(** [str(e)] of the [TypeError] or [AttributeError] that CPython
    raises when the named operation is applied to a value of the
    wrong type. *)
Variable type_error : string -> pyval -> exn.

(** [key in v] *)
Definition py_in (key : string) (v : pyval) : result bool :=
  match v with
  | PyDict d => Ok (match dict_get key d with Some _ => true | None => false end)
  | PyStr s => Ok (contains key s)
  | PyList l => Ok (existsb (is_str key) l)
  | _ => Raise (type_error "in" v)
  end.

(** [v[key]], for a [key] known to be in [v] when [v] is a [dict]. *)
Definition py_getitem (v : pyval) (key : string) : result pyval :=
  match v with
  | PyDict d => match dict_get key d with
                | Some x => Ok x
                | None => Raise ("'" ++ key ++ "'")%string
                end
  | _ => Raise (type_error "[]" v)
  end.

(** [v.get(key, default)] *)
Definition py_get (v : pyval) (key : string) (default : pyval) : result pyval :=
  match v with
  | PyDict d => Ok (match dict_get key d with Some x => x | None => default end)
  | _ => Raise (type_error "get" v)
  end.

(** [v.strip()] *)
Definition py_strip (v : pyval) : result string :=
  match v with
  | PyStr s => Ok (strip s)
  | _ => Raise (type_error "strip" v)
  end.

(** The items of [v] in [{**v, ...}]. *)
Definition py_items (v : pyval) : result (list (string * pyval)) :=
  match v with
  | PyDict d => Ok d
  | _ => Raise (type_error "**" v)
  end.

End Builtins.

(** ** Responses *)

Record HistoryEntry : Type := {
  h_id : string;
  h_timestamp : string;
  h_original_text : string;
  h_emotion : string;
  h_confidence : Q;
  h_emoji : string
}.

(** [{'count': ..., 'percentage': ...}] *)
Record Bucket : Type := {
  count : nat;
  percentage : Q
}.

Record ConversationSummary : Type := {
  total_messages : nat;
  dominant_emotion : string;
  dominant_emoji : string;
  average_confidence : Q;
  emotion_distribution : list (string * nat);
  positive : Bucket;
  negative : Bucket;
  neutral : Bucket;
  analyzed_messages : list (list (string * pyval))
}.

(** The JSON document of a response. *)
Inductive body : Type :=
| Error (error : string)
| Single (r : PredictionResult)
| Batch (count : nat) (results : list PredictionResult)
| History (count : nat) (history : list HistoryEntry)
| Message (message : string)
| Summary (s : ConversationSummary).

(** A document and its HTTP status. *)
Definition response : Type := body * nat.

(** ** History *)

(** [prediction_history.insert(0, history_entry)] followed by
    [if len(prediction_history) > 100: prediction_history.pop()]. *)
Definition record (history_entry : HistoryEntry)
  (prediction_history : list HistoryEntry) : list HistoryEntry :=
  let prediction_history := history_entry :: prediction_history in
  if 100 <? length prediction_history
  then removelast prediction_history
  else prediction_history.

(** [l[:limit]] *)
Definition slice_to {A} (limit : Z) (l : list A) : list A :=
  if (limit <? 0)%Z
  then firstn (length l - Z.to_nat (- limit)) l
  else firstn (Z.to_nat limit) l.

(** [get_history], where [limit] is
    [request.args.get('limit', 20, type=int)]. *)
Definition get_history (limit : Z) (prediction_history : list HistoryEntry)
  : response :=
  let limit := Z.min limit 100 in
  (History (length (slice_to limit prediction_history))
           (slice_to limit prediction_history), 200).

(** [clear_history]: the response and the new [prediction_history]. *)
Definition clear_history (prediction_history : list HistoryEntry)
  : response * list HistoryEntry :=
  ((Message "History cleared successfully", 200), []).

(** ** Endpoints *)

(** [sum(emotion_counts.get(e, 0) for e in emotions)] *)
Definition count_of (emotion_counts : list (string * nat)) (emotions : list string)
  : nat :=
  fold_left (fun acc e =>
               acc + match dict_get e emotion_counts with
                     | Some n => n
                     | None => 0
                     end)
            emotions 0.

(** One step of [max]: the item seen replaces the best so far only when
    its count is strictly larger. *)
Definition larger (best kv : string * nat) : string * nat :=
  if snd best <? snd kv then kv else best.

(** [max(emotion_counts, key=emotion_counts.get)]: the first key, in
    insertion order, among those with the largest count. *)
Definition max_key (emotion_counts : list (string * nat)) : option string :=
  match emotion_counts with
  | [] => None
  | kv :: rest => Some (fst (fold_left larger rest kv))
  end.

(** [round(count / total * 100, 2) if total > 0 else 0] *)
Definition percent (n total : nat) : Q :=
  if 0 <? total
  then py_round2
         (fmul (fdiv (inject_Z (Z.of_nat n)) (inject_Z (Z.of_nat total))) 100)
  else 0%Q.

(** The variables the loop of [analyze_conversation] updates. *)
Record Tally : Type := {
  t_analyzed_messages : list (list (string * pyval));
  t_emotion_counts : list (string * nat);
  t_total_confidence : Q
}.

Section Endpoints.

Variable nltk : NLTK.
Variable self : Predictor.
Variable type_error : string -> pyval -> exn.

(** A call of [predictor.predict] from an endpoint. *)
Definition call_predict (text : pyval) : traced PredictionResult :=
  let (r, t) := predict nltk self text in (Ok r, t).

(** The [try] of [predict_emotion].  [request_json] is the outcome of
    [request.get_json()], [uuid] and [now] are [str(uuid.uuid4())]
    and [datetime.utcnow().isoformat()]; the result is the response
    with the new [prediction_history]. *)
Definition predict_emotion_body (request_json : result pyval)
  (uuid now : string) (prediction_history : list HistoryEntry)
  : traced (response * list HistoryEntry) :=
  data <~ pure request_json ;;
  if negb (truthy data)
  then ret ((Error "No data provided", 400), prediction_history)
  else
    text <~ pure (raw <- py_get type_error data "text" (PyStr "") ;;
                  py_strip type_error raw) ;;
    save_history <~ pure (py_get type_error data "save_history" (PyBool true)) ;;
    if is_empty text
    then ret ((Error "Text is required", 400), prediction_history)
    else if 1000 <? String.length text
    then ret ((Error "Text exceeds maximum length of 1000 characters", 400),
              prediction_history)
    else
      result <~ call_predict (PyStr text) ;;
      match result with
      | Success p =>
          if truthy save_history
          then
            let history_entry :=
              {| h_id := uuid;
                 h_timestamp := now;
                 h_original_text := text;
                 h_emotion := emotion p;
                 h_confidence := confidence p;
                 h_emoji := emoji p |} in
            ret ((Single result, 200), record history_entry prediction_history)
          else ret ((Single result, 200), prediction_history)
      | Failure _ => ret ((Single result, 200), prediction_history)
      end.

(** [predict_emotion] *)
Definition predict_emotion (request_json : result pyval)
  (uuid now : string) (prediction_history : list HistoryEntry)
  : (response * list HistoryEntry) * trace :=
  match predict_emotion_body request_json uuid now prediction_history with
  | (Ok r, t) => (r, t)
  | (Raise e, t) =>
      (((Error ("Server error: " ++ e), 500), prediction_history), t)
  end.

(** The loop [for text in texts: results.append(predictor.predict(text))]. *)
Fixpoint predict_each (texts : list pyval) : traced (list PredictionResult) :=
  match texts with
  | [] => ret []
  | text :: texts' =>
      result <~ call_predict text ;;
      results <~ predict_each texts' ;;
      ret (result :: results)
  end.

(** The [try] of [predict_batch]. *)
Definition predict_batch_body (request_json : result pyval) : traced response :=
  data <~ pure request_json ;;
  has_texts <~ pure (if truthy data then py_in type_error "texts" data
                     else Ok false) ;;
  if negb has_texts
  then ret (Error "Texts array is required", 400)
  else
    texts <~ pure (py_getitem type_error data "texts") ;;
    match texts with
    | PyList texts =>
        if 50 <? length texts
        then ret (Error "Maximum 50 texts allowed per batch", 400)
        else
          results <~ predict_each texts ;;
          ret (Batch (length results) results, 200)
    | _ => ret (Error "Texts must be an array", 400)
    end.

(** [predict_batch] *)
Definition predict_batch (request_json : result pyval) : response * trace :=
  match predict_batch_body request_json with
  | (Ok r, t) => (r, t)
  | (Raise e, t) => ((Error ("Server error: " ++ e), 500), t)
  end.

(** One iteration of [for msg in messages] in [analyze_conversation]. *)
Definition analyze_message (tally : Tally) (msg : pyval) : traced Tally :=
  has_text <~ pure (py_in type_error "text" msg) ;;
  if has_text
  then
    text <~ pure (py_getitem type_error msg "text") ;;
    result <~ call_predict text ;;
    match result with
    | Success p =>
        fields <~ pure (py_items type_error msg) ;;
        let analyzed_msg :=
          dict_set "emoji" (PyStr (emoji p))
            (dict_set "confidence" (PyNum (confidence p))
               (dict_set "emotion" (PyStr (emotion p)) fields)) in
        let emotion_counts := t_emotion_counts tally in
        ret {| t_analyzed_messages := t_analyzed_messages tally ++ [analyzed_msg];
               t_emotion_counts :=
                 dict_set (emotion p)
                   (match dict_get (emotion p) emotion_counts with
                    | Some n => n
                    | None => 0
                    end + 1)
                   emotion_counts;
               t_total_confidence :=
                 fadd (t_total_confidence tally) (confidence p) |}
    | Failure _ => ret tally
    end
  else ret tally.

Fixpoint analyze_messages (tally : Tally) (messages : list pyval)
  : traced Tally :=
  match messages with
  | [] => ret tally
  | msg :: messages' =>
      tally' <~ analyze_message tally msg ;;
      analyze_messages tally' messages'
  end.

(** What [analyze_conversation] returns once the loop has run. *)
Definition summarize (tally : Tally) : ConversationSummary :=
  let analyzed_messages := t_analyzed_messages tally in
  let emotion_counts := t_emotion_counts tally in
  let total_confidence := t_total_confidence tally in
  let dominant_emotion :=
    match max_key emotion_counts with
    | Some k => k
    | None => "neutral"
    end in
  let avg_confidence :=
    match analyzed_messages with
    | [] => 0%Q
    | _ => fdiv total_confidence
                (inject_Z (Z.of_nat (length analyzed_messages)))
    end in
  let positive_count := count_of emotion_counts ["happiness"] in
  let negative_count := count_of emotion_counts ["anger"; "sadness"; "stress"] in
  let neutral_count :=
    match dict_get "neutral" emotion_counts with Some n => n | None => 0 end in
  let total := length analyzed_messages in
  {| total_messages := total;
     dominant_emotion := dominant_emotion;
     dominant_emoji :=
       match dict_get dominant_emotion EMOTION_CONFIG with
       | Some details => d_emoji details
       | None => "😐"
       end;
     average_confidence := py_round2 avg_confidence;
     emotion_distribution := emotion_counts;
     positive := {| count := positive_count;
                    percentage := percent positive_count total |};
     negative := {| count := negative_count;
                    percentage := percent negative_count total |};
     neutral := {| count := neutral_count;
                   percentage := percent neutral_count total |};
     analyzed_messages := analyzed_messages |}.

(** The [try] of [analyze_conversation]. *)
Definition analyze_conversation_body (request_json : result pyval)
  : traced response :=
  data <~ pure request_json ;;
  has_messages <~ pure (if truthy data then py_in type_error "messages" data
                        else Ok false) ;;
  if negb has_messages
  then ret (Error "Messages array is required", 400)
  else
    messages <~ pure (py_getitem type_error data "messages") ;;
    match messages with
    | PyList messages =>
        tally <~ analyze_messages
                   {| t_analyzed_messages := [];
                      t_emotion_counts := [];
                      t_total_confidence := 0%Q |}
                   messages ;;
        ret (Summary (summarize tally), 200)
    | _ => ret (Error "Messages must be an array", 400)
    end.

(** [analyze_conversation] *)
Definition analyze_conversation (request_json : result pyval) : response * trace :=
  match analyze_conversation_body request_json with
  | (Ok r, t) => (r, t)
  | (Raise e, t) => ((Error e, 500), t)
  end.

End Endpoints.

(** ** Notions used in the statements *)

(** Recording the entries [es] one after the other, oldest first. *)
Definition record_all (es : list HistoryEntry) (h : list HistoryEntry)
  : list HistoryEntry :=
  fold_left (fun h e => record e h) es h.

(** The labels [EMOTION_CONFIG] knows. *)
Definition known_emotions : list string := keys EMOTION_CONFIG.

(** An exception with text [e] is raised inside the [try] of [predict]:
    by the preprocessing, by the vectoriser, by the model, or by [max]
    on an empty row of probabilities. *)
Inductive raises (nltk : NLTK) (self : Predictor) (text : pyval) (e : exn)
  : Prop :=
| raises_preprocess :
    preprocess_text nltk text = Raise e ->
    raises nltk self text e
| raises_transform p :
    preprocess_text nltk text = Ok p -> p <> "" ->
    transform self p = Raise e ->
    raises nltk self text e
| raises_predict p v :
    preprocess_text nltk text = Ok p -> p <> "" ->
    transform self p = Ok v ->
    model_predict self v = Raise e ->
    raises nltk self text e
| raises_predict_proba p v label predict_proba :
    preprocess_text nltk text = Ok p -> p <> "" ->
    transform self p = Ok v ->
    model_predict self v = Ok label ->
    model_predict_proba self = Some predict_proba ->
    predict_proba v = Raise e ->
    raises nltk self text e
| raises_max p v label predict_proba :
    preprocess_text nltk text = Ok p -> p <> "" ->
    transform self p = Ok v ->
    model_predict self v = Ok label ->
    model_predict_proba self = Some predict_proba ->
    predict_proba v = Ok [] ->
    e = max_empty ->
    raises nltk self text e.

(** The classifier answers on [text]: normalisation leaves the text
    [p], which the vectoriser turns into [v], for which the model
    predicts [label] and, when it has [predict_proba], a non-empty row
    of probabilities. *)
Definition classifies (nltk : NLTK) (self : Predictor) (text : pyval)
  (p : string) (v : features self) (label : string) : Prop :=
  preprocess_text nltk text = Ok p /\ p <> "" /\
  transform self p = Ok v /\
  model_predict self v = Ok label /\
  match model_predict_proba self with
  | Some predict_proba => exists q probs, predict_proba v = Ok (q :: probs)
  | None => True
  end.

Definition is_dict (v : pyval) : bool :=
  match v with PyDict _ => true | _ => false end.

(** The successful predictions of a conversation, in the order of its
    messages: one for each message with a [text] on which [predict]
    succeeds. *)
Definition successes (nltk : NLTK) (self : Predictor) (messages : list pyval)
  : list Prediction :=
  flat_map (fun msg =>
              match msg with
              | PyDict d =>
                  match dict_get "text" d with
                  | Some text =>
                      match fst (predict nltk self text) with
                      | Success p => [p]
                      | Failure _ => []
                      end
                  | None => []
                  end
              | _ => []
              end)
           messages.

(** The calls to the predictor that a conversation causes. *)
Definition conversation_trace (nltk : NLTK) (self : Predictor)
  (messages : list pyval) : trace :=
  flat_map (fun msg =>
              match msg with
              | PyDict d =>
                  match dict_get "text" d with
                  | Some text => snd (predict nltk self text)
                  | None => []
                  end
              | _ => []
              end)
           messages.

(** [emotion_counts[emotion] = emotion_counts.get(emotion, 0) + 1] *)
Definition bump (emotion_counts : list (string * nat)) (emotion : string)
  : list (string * nat) :=
  dict_set emotion
    (match dict_get emotion emotion_counts with
     | Some n => n
     | None => 0
     end + 1)
    emotion_counts.

(** The labels in the order in which they are first seen, after those
    of [seen]. *)
Definition see (seen : list string) (label : string) : list string :=
  if mem label seen then seen else seen ++ [label].

Definition first_seen (labels : list string) : list string :=
  fold_left see labels [].

(** How often [label] occurs among [labels]. *)
Definition occurrences (labels : list string) (label : string) : nat :=
  count_occ string_dec labels label.

(** The dictionary that holds the count [g k] for each key [k] of [ks]. *)
Definition table (g : string -> nat) (ks : list string) : list (string * nat) :=
  map (fun k => (k, g k)) ks.

(** Items in non-increasing order of their values. *)
Definition non_increasing (items : list (string * Q)) : Prop :=
  StronglySorted (fun a b => (snd b <= snd a)%Q) items.

(** [scaled items] are the items with their values as percentages:
    [round(v * 100, 2)]. *)
Definition scaled (items : list (string * Q)) : list (string * Q) :=
  map (fun kv => (fst kv, py_round2 (fmul (snd kv) 100))) items.

(** [k] is the integer nearest to [x], the even one of the two when [x]
    is half way between two integers. *)
Definition nearest_even (x : Q) (k : Z) : Prop :=
  (Qabs (x - inject_Z k) <= 1 # 2)%Q
  /\ ((Qabs (x - inject_Z k) == 1 # 2)%Q -> Z.even k = true).

(** [y] is a finite binary64 number (a significand of [2 ^ 53] is
    [2 ^ 52] at the next exponent). *)
Definition binary64 (y : Q) : Prop :=
  exists m e : Z,
    (y == inject_Z m * 2 ^ e)%Q /\ (Z.abs m <= 2 ^ 53)%Z /\ (-1074 <= e)%Z.

(** [y] is [x] rounded to 2 decimals: the float of the decimal [k / 100]
    that is nearest to [x], ties to the even [k]. *)
Definition rounded2 (x y : Q) : Prop :=
  exists k : Z, nearest_even (x * 100)%Q k /\ y = float (k # 100).

(** The items [outs] are the items [items] in the same order, each value
    as a percentage rounded to 2 decimals. *)
Definition percentages_of (items outs : list (string * Q)) : Prop :=
  Forall2 (fun kv out => fst out = fst kv
                         /\ rounded2 (fmul (snd kv) 100) (snd out))
          items outs.

(** The URL pattern matches nowhere in [s]. *)
Fixpoint url_free (s : string) : bool :=
  match s with
  | EmptyString => true
  | String c s' => negb (url_here s) && url_free s'
  end.

(** A lowercase letter or the space. *)
Definition plain_char (c : ascii) : bool := is_az c || Ascii.eqb c " ".

(** The tokens are words: non-empty and made of lowercase letters. *)
Definition all_words (tokens : list string) : Prop :=
  Forall (fun t => forall_string is_az t = true /\ t <> "") tokens.

(** A token that normalisation leaves as it is: lowercase letters only,
    kept by the filter of [preprocess_text], and its own lemma. *)
Definition stable_token (nltk : NLTK) (token : string) : Prop :=
  forall_string is_az token = true
  /\ keep_token nltk token = true
  /\ lemmatize nltk token = Ok token.

(** The arithmetic mean, 0 for no value. *)
Definition mean (xs : list Q) : Q :=
  match xs with
  | [] => 0%Q
  | _ => (fold_left Qplus xs 0 / inject_Z (Z.of_nat (length xs)))%Q
  end.

(** The mean in floating point, as the loop of [analyze_conversation]
    computes it: the values are added one by one to 0, each sum rounded
    to a float, and the total is divided by their number; 0 for no
    value. *)
Definition float_sum (xs : list Q) : Q := fold_left fadd xs 0%Q.

Definition float_mean (xs : list Q) : Q :=
  match xs with
  | [] => 0%Q
  | _ => fdiv (float_sum xs) (inject_Z (Z.of_nat (length xs)))
  end.

(** ** Notions used in the further properties *)

(** [s.split(' ')]: the pieces of [s] between its spaces. *)
Fixpoint words_of (s : string) : list string :=
  match s with
  | EmptyString => [EmptyString]
  | String c s' =>
      if Ascii.eqb c " "
      then EmptyString :: words_of s'
      else match words_of s' with
           | w :: ws => String c w :: ws
           | [] => [String c EmptyString]
           end
  end.

(** Lowercase letters and spaces only, and no space next to a space;
    [prev] says that a space comes just before [s]. *)
Fixpoint spaced (prev : bool) (s : string) : bool :=
  match s with
  | EmptyString => true
  | String c s' =>
      if Ascii.eqb c " "
      then negb prev && spaced true s'
      else is_az c && spaced false s'
  end.

(** The last character of [s], if any, is not white space. *)
Fixpoint no_trailing_space (s : string) : bool :=
  match s with
  | EmptyString => true
  | String c EmptyString => negb (is_space c)
  | String _ s' => no_trailing_space s'
  end.

(** The mention pattern matches nowhere in [s]. *)
Fixpoint mention_free (s : string) : bool :=
  match s with
  | EmptyString => true
  | String c s' => negb (mention_here s) && mention_free s'
  end.

(** The first character of [s], if any, satisfies [p]. *)
Definition head_is (p : ascii -> bool) (s : string) : bool :=
  match s with
  | EmptyString => true
  | String c _ => p c
  end.

(** [{**msg, 'emotion': ..., 'confidence': ..., 'emoji': ...}] for a
    message with the fields [fields] and the prediction [p]. *)
Definition annotate (fields : list (string * pyval)) (p : Prediction)
  : list (string * pyval) :=
  dict_set "emoji" (PyStr (emoji p))
    (dict_set "confidence" (PyNum (confidence p))
       (dict_set "emotion" (PyStr (emotion p)) fields)).

(** The messages of a conversation that have a [text] on which
    [predict] succeeds, each with its prediction, in their order. *)
Definition answered (nltk : NLTK) (self : Predictor) (messages : list pyval)
  : list (list (string * pyval) * Prediction) :=
  flat_map (fun msg =>
              match msg with
              | PyDict d =>
                  match dict_get "text" d with
                  | Some text =>
                      match fst (predict nltk self text) with
                      | Success p => [(d, p)]
                      | Failure _ => []
                      end
                  | None => []
                  end
              | _ => []
              end)
           messages.

(** ** Stand-ins for the collaborators, to run the model on examples *)

Module Sample.

(** Splits at single spaces; on the output of [clean] this is what
    [word_tokenize] does for words it does not treat as contractions. *)
Fixpoint split_spaces (cur : string) (s : string) : list string :=
  match s with
  | EmptyString => if is_empty cur then [] else [cur]
  | String c s' =>
      if Ascii.eqb c " "
      then (if is_empty cur then split_spaces "" s'
            else cur :: split_spaces "" s')
      else split_spaces (cur ++ String c "")%string s'
  end.

Definition tokenize (s : string) : result (list string) :=
  Ok (split_spaces "" s).

(** A few entries of NLTK's English stop word list. *)
Definition words : list string :=
  ["i"; "me"; "my"; "we"; "you"; "he"; "she"; "it"; "they"; "this";
   "that"; "am"; "is"; "are"; "was"; "be"; "been"; "have"; "has"; "had";
   "do"; "does"; "did"; "the"; "a"; "an"; "and"; "but"; "if"; "or"; "as";
   "at"; "by"; "for"; "with"; "to"; "of"; "in"; "on"; "no"; "nor"; "not";
   "so"; "very"; "now"].

(** The lemmatiser on a few nouns, the identity elsewhere. *)
Definition lemma (w : string) : result string :=
  if String.eqb w "ads" then Ok "ad"
  else if String.eqb w "cats" then Ok "cat"
  else Ok w.

(** NLTK with its data installed. *)
Definition nltk : NLTK :=
  {| stopwords_words := Ok words;
     stopwords_words_retry := words;
     word_tokenize := tokenize;
     lemmatize := lemma |}.

(** NLTK whose stop word corpus had to be downloaded at start-up. *)
Definition nltk_downloaded : NLTK :=
  {| stopwords_words := Raise "Resource stopwords not found.";
     stopwords_words_retry := words;
     word_tokenize := tokenize;
     lemmatize := lemma |}.

End Sample.

Module SampleModel.

(** A classifier that looks for a few key words; its features are the
    normalised text itself. *)
Definition label_of (v : string) : result string :=
  if contains "happy" v then Ok "happiness"
  else if contains "furious" v then Ok "anger"
  else if contains "wow" v then Ok "surprise"
  else if contains "crash" v then Raise "model crashed"
  else if contains "gloomy" v then Ok "sadness"
  else Ok "neutral".

Definition proba_of (v : string) : result (list Q) :=
  if contains "happy" v then Ok (map float [1 # 4; 1 # 2; 1 # 4]%Q)
  else if contains "furious" v
  then Ok (map float [5001 # 10000; 0; 4999 # 10000]%Q)
  else if contains "overflow" v then Raise "probabilities unavailable"
  else if contains "gloomy" v
  then Ok (map float [3 # 10; 29945 # 100000; 40055 # 100000]%Q)
  else Ok (map float [1 # 3; 1 # 3; 1 # 3]%Q).

Definition self : Predictor :=
  {| features := string;
     transform := fun s =>
       if contains "unseen" s then Raise "vocabulary mismatch" else Ok s;
     model_predict := label_of;
     model_predict_proba := Some proba_of;
     classes_ := ["anger"; "happiness"; "sadness"] |}.

(** The same classifier without [predict_proba]. *)
Definition plain : Predictor :=
  {| features := string;
     transform := fun s => Ok s;
     model_predict := label_of;
     model_predict_proba := None;
     classes_ := ["anger"; "happiness"; "sadness"] |}.

Definition type_error (op : string) (v : pyval) : exn :=
  ("unsupported operand for " ++ op)%string.

(** A message of a conversation. *)
Definition message (sender text : string) : pyval :=
  PyDict [("sender", PyStr sender); ("text", PyStr text)].

(** A conversation of three messages. *)
Definition three_messages : list pyval :=
  [message "ann" "I am so happy"; message "bob" "I am furious";
   message "bob" "furious again"].

(** A conversation in which two labels occur twice. *)
Definition tied_messages : list pyval :=
  [message "ann" "I am so happy"; message "bob" "I am furious";
   message "bob" "furious again"; message "ann" "happy again"].

(** A conversation whose only label is not in [EMOTION_CONFIG]. *)
Definition surprising_messages : list pyval :=
  [message "ann" "wow"].

(** The body of a request to [/analyze]. *)
Definition conversation (messages : list pyval) : list (string * pyval) :=
  [("messages", PyList messages)].

(** The body of a request to [/predict/batch]. *)
Definition batch : list (string * pyval) :=
  [("texts", PyList [PyStr "I am so happy"; PyStr "no"; PyNum 3])].

Definition entry (id : string) : HistoryEntry :=
  {| h_id := id;
     h_timestamp := "2026-02-06T00:00:00";
     h_original_text := "I am so happy";
     h_emotion := "happiness";
     h_confidence := 50%Q;
     h_emoji := "😊" |}.

End SampleModel.

Module SampleRequests.

(** The body of a request to [/predict]. *)
Definition saving (text : string) : list (string * pyval) :=
  [("text", PyStr text)].

Definition not_saving (text : string) : list (string * pyval) :=
  [("text", PyStr text); ("save_history", PyBool false)].

(** A conversation whose third message is a number. *)
Definition broken_conversation : list (string * pyval) :=
  [("messages",
    PyList ([SampleModel.message "ann" "I am so happy";
             SampleModel.message "bob" "I am furious"]
            ++ PyNum 3 :: [SampleModel.message "ann" "happy again"]))].

Definition history : list HistoryEntry :=
  [SampleModel.entry "b"; SampleModel.entry "a"].

End SampleRequests.

(** * Properties *)

(** ** Floating point

    The binary logarithm and the properties of rounding to a float that
    the statements about confidences and percentages rest on: rounding
    keeps the order, and [float x] is a binary64 number at most half a
    unit in the last place away from [x]. *)

Section PowerFacts.
Local Open Scope Q_scope.

Lemma pow2_pos e : 0 < 2 ^ e.
Proof. apply Qpower_0_lt. reflexivity. Qed.

Lemma pow2_le e1 e2 : (e1 <= e2)%Z -> 2 ^ e1 <= 2 ^ e2.
Proof. intros H. apply Qpower_le_compat_l; [exact H|discriminate]. Qed.

Lemma pow2_lt_inv e1 e2 : 2 ^ e1 < 2 ^ e2 -> (e1 < e2)%Z.
Proof. intros H. apply (Qpower_lt_compat_l_inv 2); [exact H|reflexivity]. Qed.

Lemma pow2_add e1 e2 : 2 ^ (e1 + e2) == 2 ^ e1 * 2 ^ e2.
Proof. apply Qpower_plus. discriminate. Qed.

Lemma pow2_succ e : 2 ^ (e + 1) == 2 * 2 ^ e.
Proof. rewrite pow2_add. change (2 ^ 1) with 2. ring. Qed.

Lemma pow2_cancel e : 2 ^ (- e) * 2 ^ e == 1.
Proof. rewrite <- pow2_add. replace (- e + e)%Z with 0%Z by lia. reflexivity. Qed.

Lemma pow2_Z n : (0 <= n)%Z -> inject_Z (2 ^ n) == 2 ^ n.
Proof. intros H. apply (Zpower_Qpower 2 n H). Qed.

Lemma ilog2_spec a : 0 < a -> 2 ^ ilog2 a <= a /\ a < 2 ^ (ilog2 a + 1).
Proof.
  intros Ha. destruct a as [n d]. unfold ilog2. cbn [Qnum Qden].
  assert (Hn : (0 < n)%Z).
  { unfold Qlt in Ha. cbn in Ha. lia. }
  set (ln := Z.log2 n). set (ld := Z.log2 (Z.pos d)).
  assert (Hln : (0 <= ln)%Z) by apply Z.log2_nonneg.
  assert (Hld : (0 <= ld)%Z) by apply Z.log2_nonneg.
  destruct (Z.log2_spec n Hn) as [Hn1 Hn2]. fold ln in Hn1, Hn2.
  destruct (Z.log2_spec (Z.pos d) (Pos2Z.is_pos d)) as [Hd1 Hd2].
  fold ld in Hd1, Hd2.
  rewrite Zle_Qle, pow2_Z in Hn1, Hd1 by assumption.
  rewrite Zlt_Qlt, pow2_Z in Hn2, Hd2 by lia.
  unfold Z.succ in Hn2, Hd2. rewrite pow2_succ in Hn2, Hd2.
  assert (Hq : n # d == inject_Z n / inject_Z (Z.pos d)) by apply Qmake_Qdiv.
  set (N := inject_Z n) in *. set (D := inject_Z (Z.pos d)) in *.
  assert (HD : 0 < D).
  { unfold D. change 0 with (inject_Z 0). rewrite <- Zlt_Qlt. lia. }
  assert (Hk : 2 ^ ln == 2 ^ (ln - ld) * 2 ^ ld).
  { rewrite <- pow2_add. replace (ln - ld + ld)%Z with ln by lia. reflexivity. }
  pose proof (pow2_pos (ln - ld)) as Hpk.
  pose proof (pow2_pos ld) as Hpd.
  assert (Hup : n # d < 2 * 2 ^ (ln - ld)).
  { rewrite Hq. apply Qlt_shift_div_r; [exact HD|].
    apply (Qlt_le_trans _ _ _ Hn2). rewrite Hk.
    rewrite Qmult_assoc. apply Qmult_le_l; [|exact Hd1].
    nra. }
  assert (Hlow : 2 ^ (ln - ld) <= 2 * (n # d)).
  { rewrite Hq. unfold Qdiv. rewrite Qmult_assoc.
    apply Qle_shift_div_l; [exact HD|].
    apply (Qle_trans _ (2 ^ (ln - ld) * (2 * 2 ^ ld))).
    - apply Qmult_le_l; [exact Hpk|]. apply Qlt_le_weak. exact Hd2.
    - rewrite (Qmult_comm 2), Qmult_assoc, <- Hk. nra. }
  destruct (Qle_bool (2 ^ (ln - ld)) (n # d)) eqn:Hc.
  - apply Qle_bool_iff in Hc. split; [exact Hc|].
    rewrite pow2_succ. exact Hup.
  - assert (Hlt : n # d < 2 ^ (ln - ld)).
    { apply Qnot_le_lt. intros H. apply Qle_bool_iff in H. congruence. }
    replace (ln - ld - 1 + 1)%Z with (ln - ld)%Z by lia.
    split; [|exact Hlt].
    assert (Hs : 2 ^ (ln - ld) == 2 * 2 ^ (ln - ld - 1)).
    { rewrite <- pow2_succ. replace (ln - ld - 1 + 1)%Z with (ln - ld)%Z by lia.
      reflexivity. }
    rewrite Hs in Hlow. lra.
Qed.

Lemma ilog2_mono a b : 0 < a -> a <= b -> (ilog2 a <= ilog2 b)%Z.
Proof.
  intros Ha Hab.
  destruct (ilog2_spec a Ha) as [Ha1 _].
  destruct (ilog2_spec b) as [_ Hb2]; [lra|].
  assert (H : 2 ^ ilog2 a < 2 ^ (ilog2 b + 1)) by lra.
  apply pow2_lt_inv in H. lia.
Qed.

End PowerFacts.

Section RoundingFacts.
Local Open Scope Q_scope.

Lemma round_half_even_bounds x :
  (Qfloor x <= round_half_even x <= Qfloor x + 1)%Z.
Proof.
  unfold round_half_even.
  destruct (x - inject_Z (Qfloor x) ?= 1 # 2)%Q; [|lia|lia].
  destruct (Z.even (Qfloor x)); lia.
Qed.

Lemma round_half_even_mono x y :
  (x <= y)%Q -> (round_half_even x <= round_half_even y)%Z.
Proof.
  intros Hxy.
  pose proof (Qfloor_resp_le x y Hxy) as Hf.
  pose proof (round_half_even_bounds x) as Hx.
  pose proof (round_half_even_bounds y) as Hy.
  destruct (Z.eq_dec (Qfloor x) (Qfloor y)) as [Heq|Hne]; [|lia].
  clear Hx Hy Hf. unfold round_half_even. rewrite <- Heq.
  destruct (Qcompare_spec (x - inject_Z (Qfloor x)) (1 # 2)) as [Hx|Hx|Hx];
    destruct (Qcompare_spec (y - inject_Z (Qfloor x)) (1 # 2)) as [Hy|Hy|Hy];
    try (destruct (Z.even (Qfloor x))); try lia; exfalso; lra.
Qed.

Lemma round_half_even_Z n : round_half_even (inject_Z n) = n.
Proof.
  unfold round_half_even. rewrite Qfloor_Z.
  destruct (Qcompare_spec (inject_Z n - inject_Z n) (1 # 2)) as [H|H|H];
    [exfalso; lra|reflexivity|exfalso; lra].
Qed.

(** [round_half_even x] is an integer nearest to [x], and the even one
    of the two when [x] is half way between them. *)
Lemma round_half_even_nearest x : nearest_even x (round_half_even x).
Proof.
  unfold nearest_even.
  pose proof (Qfloor_le x) as Hlo. pose proof (Qlt_floor x) as Hhi.
  unfold round_half_even.
  set (f := Qfloor x) in *.
  rewrite inject_Z_plus in Hhi. change (inject_Z 1) with 1 in Hhi.
  destruct (Qcompare_spec (x - inject_Z f) (1 # 2)) as [H|H|H].
  - destruct (Z.even f) eqn:He.
    + split; [|intros _; exact He]. apply Qabs_Qle_condition. lra.
    + split.
      * apply Qabs_Qle_condition. rewrite inject_Z_plus.
        change (inject_Z 1) with 1. lra.
      * intros _. rewrite Z.even_add, He. reflexivity.
  - split; [apply Qabs_Qle_condition; lra|].
    intros Heq. exfalso. rewrite Qabs_pos in Heq by lra. lra.
  - rewrite inject_Z_plus. change (inject_Z 1) with 1.
    split; [apply Qabs_Qle_condition; lra|].
    intros Heq. exfalso. rewrite Qabs_neg in Heq by lra. lra.
Qed.

End RoundingFacts.

Section FloatFacts.
Local Open Scope Q_scope.

Lemma float_eq x :
  float x == inject_Z (round_half_even (x * 2 ^ (- exponent x))) * 2 ^ exponent x.
Proof. unfold float. apply Qred_correct. Qed.

Lemma Qabs_nonneg_eq x : 0 <= x -> Qabs x = x.
Proof.
  destruct x as [n d]. unfold Qle, Qabs. cbn [Qnum Qden]. intros H.
  f_equal. apply Z.abs_eq. lia.
Qed.

Lemma exponent_spec x :
  0 < x ->
  x < 2 ^ (exponent x + 53)
  /\ ((-1074 < exponent x)%Z -> 2 ^ (exponent x + 52) <= x).
Proof.
  intros Hx. unfold exponent. rewrite Qabs_nonneg_eq by lra.
  destruct (ilog2_spec x Hx) as [Hlo Hhi].
  split.
  - apply (Qlt_le_trans _ _ _ Hhi). apply pow2_le. lia.
  - intros He. replace (Z.max (ilog2 x - 52) (-1074) + 52)%Z with (ilog2 x) by lia.
    exact Hlo.
Qed.

Lemma exponent_mono x y : 0 < x -> x <= y -> (exponent x <= exponent y)%Z.
Proof.
  intros Hx Hxy. unfold exponent. rewrite !Qabs_nonneg_eq by lra.
  pose proof (ilog2_mono x y Hx Hxy). lia.
Qed.

Lemma scaled_le x y e : x <= y -> x * 2 ^ e <= y * 2 ^ e.
Proof.
  intros H. apply Qmult_le_compat_r; [exact H|].
  apply Qlt_le_weak, pow2_pos.
Qed.

Lemma float_mono_pos x y : 0 < x -> x <= y -> float x <= float y.
Proof.
  intros Hx Hxy. rewrite !float_eq.
  pose proof (exponent_mono x y Hx Hxy) as He.
  destruct (Z.eq_dec (exponent x) (exponent y)) as [Heq|Hne].
  - rewrite Heq. apply scaled_le. rewrite <- Zle_Qle.
    apply round_half_even_mono. apply scaled_le. exact Hxy.
  - destruct (exponent_spec x Hx) as [Hxhi _].
    destruct (exponent_spec y) as [_ Hylo]; [lra|].
    specialize (Hylo ltac:(unfold exponent in *; lia)).
    set (ex := exponent x) in *. set (ey := exponent y) in *.
    assert (Hmx : (round_half_even (x * 2 ^ (- ex)) <= 2 ^ 53)%Z).
    { rewrite <- (round_half_even_Z (2 ^ 53)).
      apply round_half_even_mono.
      rewrite pow2_Z by lia.
      apply Qlt_le_weak.
      apply (Qlt_le_trans _ (2 ^ (ex + 53) * 2 ^ (- ex))).
      - apply Qmult_lt_compat_r; [apply pow2_pos|exact Hxhi].
      - rewrite <- pow2_add. replace (ex + 53 + - ex)%Z with 53%Z by lia.
        apply Qle_refl. }
    assert (Hmy : (2 ^ 52 <= round_half_even (y * 2 ^ (- ey)))%Z).
    { rewrite <- (round_half_even_Z (2 ^ 52)) at 1.
      apply round_half_even_mono.
      rewrite pow2_Z by lia.
      apply (Qle_trans _ (2 ^ (ey + 52) * 2 ^ (- ey))).
      - rewrite <- pow2_add. replace (ey + 52 + - ey)%Z with 52%Z by lia.
        apply Qle_refl.
      - apply scaled_le. exact Hylo. }
    rewrite Zle_Qle in Hmx, Hmy. rewrite pow2_Z in Hmx, Hmy by lia.
    apply (Qle_trans _ (2 ^ 53 * 2 ^ ex)).
    { apply scaled_le. exact Hmx. }
    apply (Qle_trans _ (2 ^ 52 * 2 ^ ey)).
    2: { apply scaled_le. exact Hmy. }
    rewrite <- !pow2_add. apply pow2_le. lia.
Qed.

End FloatFacts.

Section BinaryFacts.
Local Open Scope Q_scope.

Lemma nearest_even_unique x k k' :
  nearest_even x k -> nearest_even x k' -> k = k'.
Proof.
  intros [Hk Hke] [Hk' Hke'].
  apply Qabs_Qle_condition in Hk as Hk1.
  apply Qabs_Qle_condition in Hk' as Hk1'.
  assert (Hd : -1 <= inject_Z (k' - k) <= 1).
  { unfold Zminus. rewrite inject_Z_plus, inject_Z_opp. lra. }
  change (-1) with (inject_Z (-1)) in Hd. change 1 with (inject_Z 1) in Hd.
  rewrite <- !Zle_Qle in Hd.
  assert (Hcases : (k' = k - 1 \/ k' = k \/ k' = k + 1)%Z) by lia.
  destruct Hcases as [H|[H|H]]; subst k'; [|reflexivity|]; exfalso.
  - unfold Zminus in *. rewrite inject_Z_plus, inject_Z_opp in *.
    change (inject_Z 1) with 1 in *.
    assert (Hx : x - inject_Z k == - (1 # 2)) by lra.
    assert (He : Z.even k = true).
    { apply Hke. rewrite Hx. reflexivity. }
    assert (He' : Z.even (k + - (1)) = true).
    { apply Hke'. setoid_replace (x - (inject_Z k + - (1))) with (1 # 2) by lra.
      reflexivity. }
    rewrite Z.even_add, He in He'. discriminate He'.
  - rewrite inject_Z_plus in *. change (inject_Z 1) with 1 in *.
    assert (Hx : x - inject_Z k == 1 # 2) by lra.
    assert (He : Z.even k = true).
    { apply Hke. rewrite Hx. reflexivity. }
    assert (He' : Z.even (k + 1) = true).
    { apply Hke'. setoid_replace (x - (inject_Z k + 1)) with (- (1 # 2)) by lra.
      reflexivity. }
    rewrite Z.even_add, He in He'. discriminate He'.
Qed.

Lemma round_half_even_comp x y :
  x == y -> round_half_even x = round_half_even y.
Proof.
  intros H. apply Z.le_antisymm; apply round_half_even_mono; lra.
Qed.

Lemma round_half_even_opp x : round_half_even (- x) = (- round_half_even x)%Z.
Proof.
  apply (nearest_even_unique (- x)); [apply round_half_even_nearest|].
  destruct (round_half_even_nearest x) as [H1 H2].
  assert (Heq : - x - inject_Z (- round_half_even x)
                == - (x - inject_Z (round_half_even x))).
  { rewrite inject_Z_opp. ring. }
  split.
  - rewrite Heq, Qabs_opp. exact H1.
  - rewrite Heq, Qabs_opp, Z.even_opp. exact H2.
Qed.

Lemma Qabs_opp_eq x : Qabs (- x) = Qabs x.
Proof.
  destruct x as [n d]. unfold Qabs, Qopp. cbn [Qnum Qden].
  rewrite Z.abs_opp. reflexivity.
Qed.

Lemma float_opp x : float (- x) == - float x.
Proof.
  rewrite !float_eq. unfold exponent. rewrite Qabs_opp_eq.
  fold (exponent x).
  rewrite (round_half_even_comp (- x * 2 ^ (- exponent x))
             (- (x * 2 ^ (- exponent x)))) by ring.
  rewrite round_half_even_opp, inject_Z_opp. ring.
Qed.

Lemma float_nonneg x : 0 <= x -> 0 <= float x.
Proof.
  intros H. rewrite float_eq.
  apply Qmult_le_0_compat; [|apply Qlt_le_weak, pow2_pos].
  change 0 with (inject_Z 0). rewrite <- Zle_Qle.
  rewrite <- (round_half_even_Z 0) at 1. apply round_half_even_mono.
  apply Qmult_le_0_compat; [exact H|apply Qlt_le_weak, pow2_pos].
Qed.

(** Rounding to a float keeps the order. *)
Lemma float_mono x y : x <= y -> float x <= float y.
Proof.
  intros Hxy.
  destruct (Qlt_le_dec 0 x) as [Hx|Hx]; [apply float_mono_pos; assumption|].
  destruct (Qlt_le_dec y 0) as [Hy|Hy].
  - assert (H : float (- y) <= float (- x)).
    { apply float_mono_pos; lra. }
    rewrite !float_opp in H. lra.
  - assert (H : 0 <= float (- x)) by (apply float_nonneg; lra).
    rewrite float_opp in H.
    pose proof (float_nonneg y Hy). lra.
Qed.

Lemma float_comp x y : x == y -> float x == float y.
Proof. intros H. apply Qle_antisym; apply float_mono; lra. Qed.

(** [float x] is a binary64 number at most half a unit in the last place
    away from [x]. *)
Lemma float_binary64 x :
  binary64 (float x) /\ Qabs (x - float x) <= 2 ^ (exponent x - 1).
Proof.
  assert (Hm : forall x, 0 < x ->
             (round_half_even (x * 2 ^ (- exponent x)) <= 2 ^ 53)%Z).
  { clear x. intros x Hx. destruct (exponent_spec x Hx) as [Hxhi _].
    rewrite <- (round_half_even_Z (2 ^ 53)).
    apply round_half_even_mono.
    rewrite pow2_Z by lia.
    apply Qlt_le_weak.
    apply (Qlt_le_trans _ (2 ^ (exponent x + 53) * 2 ^ (- exponent x))).
    - apply Qmult_lt_compat_r; [apply pow2_pos|exact Hxhi].
    - rewrite <- pow2_add.
      replace (exponent x + 53 + - exponent x)%Z with 53%Z by lia.
      apply Qle_refl. }
  assert (H0 : forall x, 0 <= x ->
             (0 <= round_half_even (x * 2 ^ (- exponent x)))%Z).
  { clear x Hm. intros x Hx. rewrite <- (round_half_even_Z 0) at 1.
    apply round_half_even_mono.
    apply Qmult_le_0_compat; [exact Hx|apply Qlt_le_weak, pow2_pos]. }
  split.
  - exists (round_half_even (x * 2 ^ (- exponent x))), (exponent x).
    split; [apply float_eq|]. split; [|unfold exponent; lia].
    destruct (Qlt_le_dec 0 x) as [Hx|Hx].
    + specialize (Hm x Hx). specialize (H0 x ltac:(lra)). lia.
    + assert (Hx' : 0 <= - x) by lra.
      specialize (H0 _ Hx').
      destruct (Qeq_dec x 0) as [Hz|Hz].
      * assert (Hz' : x * 2 ^ (- exponent x) == inject_Z 0).
        { setoid_replace x with 0 at 1 by exact Hz. ring. }
        rewrite (round_half_even_comp _ _ Hz'), round_half_even_Z.
        cbn. lia.
      * assert (Hx'' : 0 < - x) by (apply Qle_lteq in Hx';
          destruct Hx' as [H|H]; [exact H|exfalso; apply Hz; lra]).
        specialize (Hm _ Hx'').
        unfold exponent in Hm, H0. rewrite Qabs_opp_eq in Hm, H0.
        fold (exponent x) in Hm, H0.
        rewrite (round_half_even_comp (- x * 2 ^ (- exponent x))
                   (- (x * 2 ^ (- exponent x)))) in Hm, H0 by ring.
        rewrite round_half_even_opp in Hm, H0. lia.
  - rewrite float_eq. set (e := exponent x).
    destruct (round_half_even_nearest (x * 2 ^ (- e))) as [Hn _].
    assert (Heq : x - inject_Z (round_half_even (x * 2 ^ (- e))) * 2 ^ e
                  == (x * 2 ^ (- e)
                      - inject_Z (round_half_even (x * 2 ^ (- e)))) * 2 ^ e).
    { pose proof (pow2_cancel e) as Hc.
      setoid_replace x with (x * (2 ^ (- e) * 2 ^ e)) at 1
        by (rewrite Hc; ring).
      ring. }
    rewrite Heq, Qabs_Qmult, (Qabs_pos (2 ^ e))
      by apply Qlt_le_weak, pow2_pos.
    assert (Hh : 2 ^ (e - 1) == (1 # 2) * 2 ^ e).
    { unfold Zminus. rewrite pow2_add. change (2 ^ (- (1))) with (1 # 2).
      ring. }
    rewrite Hh. apply Qmult_le_compat_r; [exact Hn|].
    apply Qlt_le_weak, pow2_pos.
Qed.

Lemma float_0 : float 0 = 0.
Proof. vm_compute. reflexivity. Qed.

Lemma float_1 : float 1 = 1.
Proof. vm_compute. reflexivity. Qed.

End BinaryFacts.

Section NearestFacts.
Local Open Scope Q_scope.

(** No integer is nearer to [t] than [round_half_even t]. *)
Lemma round_half_even_nearest_Z t j :
  Qabs (t - inject_Z (round_half_even t)) <= Qabs (t - inject_Z j).
Proof.
  destruct (round_half_even_nearest t) as [Hn _].
  set (m := round_half_even t) in *.
  destruct (Z.eq_dec j m) as [->|Hne]; [apply Qle_refl|].
  apply (Qle_trans _ _ _ Hn).
  apply Qabs_Qle_condition in Hn.
  assert (Hj : (j <= m - 1 \/ m + 1 <= j)%Z) by lia.
  destruct Hj as [Hj|Hj]; rewrite Zle_Qle in Hj.
  - unfold Zminus in Hj. rewrite inject_Z_plus, inject_Z_opp in Hj.
    change (inject_Z 1) with 1 in Hj.
    apply Qabs_ge. lra.
  - rewrite inject_Z_plus in Hj. change (inject_Z 1) with 1 in Hj.
    rewrite Qabs_Qminus. apply Qabs_ge. lra.
Qed.

(** No multiple of the unit in the last place is nearer to [x] than
    [float x]. *)
Lemma float_nearest_on_grid x j :
  Qabs (x - float x) <= Qabs (x - inject_Z j * 2 ^ exponent x).
Proof.
  rewrite float_eq. set (e := exponent x).
  assert (Hx : x == x * 2 ^ (- e) * 2 ^ e).
  { rewrite <- Qmult_assoc, pow2_cancel. ring. }
  assert (Hd : forall k, x - inject_Z k * 2 ^ e
                         == (x * 2 ^ (- e) - inject_Z k) * 2 ^ e).
  { intros k. rewrite Hx at 1. ring. }
  rewrite !Hd, !Qabs_Qmult.
  apply Qmult_le_compat_r; [apply round_half_even_nearest_Z|].
  apply Qabs_nonneg.
Qed.

(** A binary64 number that is not below the binade of [x] is a multiple
    of the unit in the last place of [x]. *)
Lemma binary64_on_grid e z :
  binary64 z -> (e = -1074)%Z \/ 2 ^ (e + 52) <= Qabs z ->
  exists j, z == inject_Z j * 2 ^ e.
Proof.
  intros (m & e' & Hz & Hm & He') Hbig.
  destruct (Z_le_gt_dec e e') as [Hle|Hgt].
  - exists (m * 2 ^ (e' - e))%Z.
    rewrite Hz, inject_Z_mult, pow2_Z by lia.
    rewrite <- Qmult_assoc, <- pow2_add.
    replace (e' - e + e)%Z with e' by lia. reflexivity.
  - destruct Hbig as [->|Hbig]; [lia|].
    assert (Hup : Qabs z <= 2 ^ (e + 52)).
    { rewrite Hz, Qabs_Qmult, (Qabs_pos (2 ^ e'))
        by apply Qlt_le_weak, pow2_pos.
      apply (Qle_trans _ (2 ^ 53 * 2 ^ e')).
      - apply Qmult_le_compat_r; [|apply Qlt_le_weak, pow2_pos].
        rewrite <- pow2_Z by lia.
        replace (Qabs (inject_Z m)) with (inject_Z (Z.abs m))
          by (unfold inject_Z, Qabs; reflexivity).
        rewrite <- Zle_Qle. exact Hm.
      - rewrite <- pow2_add. apply pow2_le. lia. }
    assert (Heq : Qabs z == 2 ^ (e + 52)) by (apply Qle_antisym; assumption).
    assert (Hp : 2 ^ (e + 52) == inject_Z (2 ^ 52) * 2 ^ e).
    { rewrite pow2_Z by lia. rewrite <- pow2_add.
      replace (52 + e)%Z with (e + 52)%Z by lia. reflexivity. }
    revert Heq. apply Qabs_case; intros Hs Heq.
    + exists (2 ^ 52)%Z. rewrite Heq. exact Hp.
    + exists (- 2 ^ 52)%Z. rewrite inject_Z_opp.
      setoid_replace z with (- - z) by ring. rewrite Heq, Hp. ring.
Qed.

Lemma binary64_opp z : binary64 z -> binary64 (- z).
Proof.
  intros (m & e & Hz & Hm & He). exists (- m)%Z, e.
  rewrite Hz, inject_Z_opp, Z.abs_opp. split; [ring|auto].
Qed.

Lemma float_nearest_pos x z :
  0 < x -> binary64 z -> Qabs (x - float x) <= Qabs (x - z).
Proof.
  intros Hx Hz.
  destruct (Z.eq_dec (exponent x) (-1074)) as [He|He].
  - destruct (binary64_on_grid (exponent x) z Hz (or_introl He)) as [j Hj].
    rewrite Hj. apply float_nearest_on_grid.
  - destruct (Qlt_le_dec (Qabs z) (2 ^ (exponent x + 52))) as [Hsmall|Hbig].
    + destruct (exponent_spec x Hx) as [_ Hlow].
      specialize (Hlow ltac:(unfold exponent in *; lia)).
      assert (Hp : 2 ^ (exponent x + 52)
                   == inject_Z (2 ^ 52) * 2 ^ exponent x).
      { rewrite pow2_Z by lia. rewrite <- pow2_add.
        replace (52 + exponent x)%Z with (exponent x + 52)%Z by lia.
        reflexivity. }
      apply (Qle_trans _ _ _ (float_nearest_on_grid x (2 ^ 52))).
      rewrite <- Hp.
      rewrite Qabs_pos by lra.
      apply Qabs_ge.
      pose proof (Qle_Qabs z). lra.
    + destruct (binary64_on_grid (exponent x) z Hz (or_intror Hbig))
        as [j Hj].
      rewrite Hj. apply float_nearest_on_grid.
Qed.

(** [float x] is a binary64 number nearest to [x]. *)
Lemma float_nearest x z :
  binary64 z -> Qabs (x - float x) <= Qabs (x - z).
Proof.
  intros Hz.
  destruct (Qlt_le_dec 0 x) as [Hx|Hx]; [apply float_nearest_pos; assumption|].
  destruct (Qeq_dec x 0) as [H0|H0].
  - rewrite (float_comp x 0 H0), float_0.
    setoid_replace (x - 0) with (- (0 - x)) by ring.
    rewrite H0. apply Qabs_nonneg.
  - assert (Hneg : 0 < - x).
    { apply Qle_lteq in Hx. destruct Hx as [Hx|Hx]; [lra|]. contradiction. }
    pose proof (float_nearest_pos (- x) (- z) Hneg (binary64_opp z Hz)) as H.
    rewrite float_opp in H.
    setoid_replace (- x - - float x) with (- (x - float x)) in H by ring.
    setoid_replace (- x - - z) with (- (x - z)) in H by ring.
    rewrite !Qabs_opp in H. exact H.
Qed.

(** Rounding leaves a binary64 number as it is. *)
Lemma float_of_binary64 z : binary64 z -> float z == z.
Proof.
  intros Hz. pose proof (float_nearest z z Hz) as H.
  setoid_replace (z - z) with 0 in H by ring.
  change (Qabs 0) with 0 in H.
  apply Qabs_Qle_condition in H. destruct H as [H1 H2]. lra.
Qed.

End NearestFacts.

Section RoundedPercentFacts.
Local Open Scope Q_scope.

Lemma py_round2_mono x y : x <= y -> py_round2 x <= py_round2 y.
Proof.
  intros Hxy. unfold py_round2. apply float_mono.
  unfold Qle. cbn [Qnum Qden].
  apply Z.mul_le_mono_nonneg_r; [lia|].
  apply round_half_even_mono. lra.
Qed.

Lemma fmul_mono x y : x <= y -> fmul x 100 <= fmul y 100.
Proof. intros Hxy. apply float_mono. lra. Qed.

Lemma percent_mono x y :
  x <= y -> py_round2 (fmul x 100) <= py_round2 (fmul y 100).
Proof. intros Hxy. apply py_round2_mono, fmul_mono, Hxy. Qed.

(** [round(x, 2)] is the float of the nearest decimal with two places. *)
Lemma py_round2_rounded2 x : rounded2 x (py_round2 x).
Proof.
  exists (round_half_even (x * 100)).
  split; [apply round_half_even_nearest|reflexivity].
Qed.

(** The rounded percentages of 0 and 1. *)
Lemma percent_0 : py_round2 (fmul 0 100) = 0.
Proof. vm_compute. reflexivity. Qed.

Lemma percent_1 : py_round2 (fmul 1 100) = 100.
Proof. vm_compute. reflexivity. Qed.

End RoundedPercentFacts.

(** ** The history is bounded and most recent first *)

Section HistoryFacts.

Implicit Types (h : list HistoryEntry) (e : HistoryEntry).

Lemma removelast_firstn_length {A} (l : list A) :
  removelast l = firstn (length l - 1) l.
Proof.
  induction l as [|a l IH]; [reflexivity|].
  destruct l as [|b l]; [reflexivity|].
  change (removelast (a :: b :: l)) with (a :: removelast (b :: l)).
  rewrite IH. simpl. rewrite Nat.sub_0_r. reflexivity.
Qed.

Lemma insert_pop_firstn cap e h :
  length h <= cap ->
  (if cap <? length (e :: h) then removelast (e :: h) else e :: h)
  = firstn cap (e :: h).
Proof.
  intros Hlen.
  destruct (Nat.ltb_spec cap (length (e :: h))) as [Hgt|Hle].
  - rewrite removelast_firstn_length.
    cbn [length] in *. replace (S (length h) - 1) with cap by lia.
    reflexivity.
  - symmetry. apply firstn_all2. exact Hle.
Qed.

Lemma record_firstn e h : length h <= 100 -> record e h = firstn 100 (e :: h).
Proof. exact (insert_pop_firstn 100 e h). Qed.

Lemma record_length e h : length h <= 100 -> length (record e h) <= 100.
Proof.
  intros Hlen. rewrite record_firstn by exact Hlen.
  rewrite length_firstn. apply Nat.le_min_l.
Qed.

Lemma record_all_length es h :
  length h <= 100 -> length (record_all es h) <= 100.
Proof.
  revert h. induction es as [|e es IH]; intros h Hlen; [exact Hlen|].
  change (record_all (e :: es) h) with (record_all es (record e h)).
  apply IH. apply record_length. exact Hlen.
Qed.

Lemma firstn_app_firstn {A} n (l1 l2 : list A) :
  firstn n (l1 ++ firstn n l2) = firstn n (l1 ++ l2).
Proof.
  rewrite !firstn_app. f_equal.
  rewrite firstn_firstn. f_equal. lia.
Qed.

Lemma record_all_firstn es h :
  length h <= 100 -> record_all es h = firstn 100 (rev es ++ h).
Proof.
  revert h. induction es as [|e es IH]; intros h Hlen.
  - symmetry. apply firstn_all2. exact Hlen.
  - change (record_all (e :: es) h) with (record_all es (record e h)).
    rewrite IH by (apply record_length; exact Hlen).
    rewrite record_firstn by exact Hlen.
    rewrite firstn_app_firstn.
    change (rev (e :: es)) with (rev es ++ [e]).
    rewrite <- app_assoc. reflexivity.
Qed.

End HistoryFacts.

Lemma rev_skipn_firstn {A} (l : list A) n m :
  length l = n + m -> firstn m (rev l) = rev (skipn n l).
Proof.
  intros Hlen.
  rewrite <- (firstn_skipn n l) at 1.
  rewrite rev_app_distr, firstn_app.
  assert (Hm : length (rev (skipn n l)) = m)
    by (rewrite length_rev, length_skipn; lia).
  rewrite Hm, Nat.sub_diag, firstn_O, app_nil_r.
  rewrite <- Hm at 1. apply firstn_all.
Qed.

(** C5.  With at most 100 entries in the history, recording an entry puts
    it at index 0; nothing is evicted while fewer than 100 entries were
    present, and exactly the last (oldest) entry is evicted when 100 were
    present, so the length never exceeds 100.  Hence 150 recordings into
    the empty history leave exactly 100 entries: the last 100 recorded,
    most recent first, the first 50 being gone. *)
Theorem record_keeps_latest_100
  (e : HistoryEntry) (h : list HistoryEntry) (Hlen : length h <= 100) :
  nth_error (record e h) 0 = Some e /\
  (length h < 100 -> record e h = e :: h) /\
  (length h = 100 -> record e h = e :: removelast h) /\
  length (record e h) <= 100 /\
  (forall es, length (record_all es h) <= 100) /\
  (forall es, length es = 150 ->
     record_all es [] = rev (skipn 50 es) /\ length (record_all es []) = 100).
Proof.
  assert (Hcases : record e h = if 100 <? length (e :: h)
                                then removelast (e :: h) else e :: h)
    by reflexivity.
  repeat split.
  - rewrite record_firstn by exact Hlen. reflexivity.
  - intros Hlt. rewrite Hcases.
    destruct (Nat.ltb_spec 100 (length (e :: h))) as [Hgt|_]; [|reflexivity].
    cbn [length] in Hgt. lia.
  - intros Heq. rewrite Hcases.
    destruct (Nat.ltb_spec 100 (length (e :: h))) as [_|Hle].
    + destruct h as [|a h']; [discriminate Heq|reflexivity].
    + cbn [length] in Hle. lia.
  - apply record_length. exact Hlen.
  - intros es. apply record_all_length. exact Hlen.
  - rewrite record_all_firstn by apply Nat.le_0_l.
    rewrite app_nil_r. apply (rev_skipn_firstn es 50 100). exact H.
  - rewrite record_all_firstn by apply Nat.le_0_l.
    rewrite app_nil_r, length_firstn, length_rev, H. reflexivity.
Qed.

(** The history of [predict_emotion] stays within its bound. *)
Lemma predict_emotion_history_bound nltk self type_error request uuid now h :
  length h <= 100 ->
  length (snd (fst (predict_emotion nltk self type_error request uuid now h)))
  <= 100.
Proof.
  intros Hlen. unfold predict_emotion, predict_emotion_body.
  destruct request as [data|e]; [|exact Hlen].
  unfold pure, tbind at 1.
  destruct (truthy data); [|exact Hlen]. cbn [negb].
  destruct (py_get type_error data "text" (PyStr "")) as [raw|e]; [|exact Hlen].
  cbn [bind].
  destruct (py_strip type_error raw) as [text|e]; [|exact Hlen].
  unfold tbind at 1.
  destruct (py_get type_error data "save_history" (PyBool true)) as [save|e];
    [|exact Hlen].
  unfold tbind at 1.
  destruct (is_empty text); [exact Hlen|].
  destruct (1000 <? String.length text); [exact Hlen|].
  unfold tbind, call_predict.
  destruct (predict nltk self (PyStr text)) as [[p|err] t]; [|exact Hlen].
  destruct (truthy save); [|exact Hlen].
  cbn [ret fst snd]. apply record_length. exact Hlen.
Qed.

(** ** Single predictions *)

Section PredictFacts.

Variable nltk : NLTK.
Variable self : Predictor.

Lemma is_empty_false s : s <> "" -> is_empty s = false.
Proof. destruct s; [congruence|reflexivity]. Qed.

Lemma is_empty_true s : is_empty s = true -> s = "".
Proof. destruct s; [reflexivity|discriminate]. Qed.

(** [predict] once normalisation, the vectoriser and the model have
    answered. *)
Lemma predict_after_label text p v label :
  preprocess_text nltk text = Ok p -> p <> "" ->
  transform self p = Ok v ->
  model_predict self v = Ok label ->
  predict nltk self text =
  match probabilities_of self label v with
  | (Ok cp, t) =>
      (Success
         {| emotion := label;
            confidence := py_round2 (fmul (fst cp) 100);
            emoji := d_emoji (match dict_get label EMOTION_CONFIG with
                              | Some details => details
                              | None => unknown_details end);
            color := d_color (match dict_get label EMOTION_CONFIG with
                              | Some details => details
                              | None => unknown_details end);
            description :=
              d_description (match dict_get label EMOTION_CONFIG with
                             | Some details => details
                             | None => unknown_details end);
            intensity :=
              d_intensity (match dict_get label EMOTION_CONFIG with
                           | Some details => details
                           | None => unknown_details end);
            all_probabilities :=
              dict_of (map (fun kv => (fst kv, py_round2 (fmul (snd kv) 100)))
                           (firstn 5 (snd cp)));
            processed_text := p;
            original_text := text |},
       [Transform p; Predict] ++ t)
  | (Raise e, t) => (Failure e, [Transform p; Predict] ++ t)
  end.
Proof.
  intros Hp Hne Hv Hl. unfold predict, predict_body.
  rewrite Hp. unfold pure, tbind at 1.
  rewrite (is_empty_false p Hne).
  rewrite Hv. unfold invoke at 1, tbind at 1.
  rewrite Hl. unfold invoke at 1, tbind at 1.
  destruct (probabilities_of self label v) as [[cp|e] t]; cbn.
  - rewrite app_nil_r. reflexivity.
  - reflexivity.
Qed.

Lemma dict_get_not_in {V} k (d : list (string * V)) :
  ~ In k (keys d) -> dict_get k d = None.
Proof.
  induction d as [|[k' v] d IH]; intros Hin; [reflexivity|].
  cbn [dict_get]. destruct (String.eqb_spec k k') as [->|Hne].
  - exfalso. apply Hin. left. reflexivity.
  - apply IH. intros H. apply Hin. right. exact H.
Qed.

Lemma py_max_cons q probs : exists m, py_max (q :: probs) = Ok m.
Proof. eexists. reflexivity. Qed.

(** With a non-empty row of probabilities, or without
    [predict_proba], the probability block does not raise. *)
Lemma probabilities_of_ok label v :
  match model_predict_proba self with
  | Some predict_proba => exists q probs, predict_proba v = Ok (q :: probs)
  | None => True
  end ->
  exists cp t, probabilities_of self label v = (Ok cp, t).
Proof.
  unfold probabilities_of.
  destruct (model_predict_proba self) as [f|].
  - intros (q & probs & Hf). rewrite Hf.
    eexists. eexists. reflexivity.
  - intros _. eexists. eexists. reflexivity.
Qed.

(** C8.  [predict] returns a value on every input, and whenever an
    exception with text [e] is raised inside its [try] (by the
    preprocessing, by the vectoriser or by the model), the value
    returned has [success = False] and [error = e]. *)
Theorem predict_never_raises text e :
  raises nltk self text e ->
  exists t, predict nltk self text = (Failure e, t)
            /\ success (fst (predict nltk self text)) = false.
Proof.
  intros Hr.
  assert (H : exists t, predict nltk self text = (Failure e, t)).
  { destruct Hr as [Hp|p Hp Hne Ht|p v Hp Hne Ht Hm
                   |p v label f Hp Hne Ht Hm Hf He
                   |p v label f Hp Hne Ht Hm Hf He ->].
    - exists []. unfold predict, predict_body. rewrite Hp. reflexivity.
    - exists [Transform p]. unfold predict, predict_body.
      rewrite Hp. unfold pure, tbind at 1.
      rewrite (is_empty_false p Hne), Ht. reflexivity.
    - exists [Transform p; Predict]. unfold predict, predict_body.
      rewrite Hp. unfold pure, tbind at 1.
      rewrite (is_empty_false p Hne), Ht. unfold invoke at 1, tbind at 1.
      rewrite Hm. reflexivity.
    - exists [Transform p; Predict; PredictProba].
      rewrite (predict_after_label text p v label Hp Hne Ht Hm).
      unfold probabilities_of. rewrite Hf, He. reflexivity.
    - exists [Transform p; Predict; PredictProba].
      rewrite (predict_after_label text p v label Hp Hne Ht Hm).
      unfold probabilities_of. rewrite Hf, He. reflexivity. }
  destruct H as [t Ht]. exists t. split; [exact Ht|].
  rewrite Ht. reflexivity.
Qed.

(** Conversely, [raises] describes every exception of the [try]. *)
Lemma predict_body_raise_inv text e t :
  predict_body nltk self text = (Raise e, t) -> raises nltk self text e.
Proof.
  unfold predict_body.
  destruct (preprocess_text nltk text) as [p|e0] eqn:Hp.
  - unfold pure, tbind at 1.
    destruct (is_empty p) eqn:Hemp; [discriminate|].
    assert (Hne : p <> "") by (intros ->; discriminate).
    destruct (transform self p) as [v|e1] eqn:Ht.
    + unfold invoke at 1, tbind at 1.
      destruct (model_predict self v) as [label|e2] eqn:Hm.
      * unfold invoke at 1, tbind at 1.
        unfold probabilities_of.
        destruct (model_predict_proba self) as [f|] eqn:Hf.
        -- destruct (f v) as [[|q probs]|e3] eqn:He; cbn; intros H.
           ++ injection H as <- _.
              eapply raises_max; eauto.
           ++ discriminate.
           ++ injection H as <- _.
              eapply raises_predict_proba; eauto.
        -- cbn. discriminate.
      * cbn. intros H. injection H as <- _.
        eapply raises_predict; eauto.
    + cbn. intros H. injection H as <- _.
      eapply raises_transform; eauto.
  - cbn. intros H. injection H as <- _.
    apply raises_preprocess. exact Hp.
Qed.

Lemma preprocess_text_not_str text :
  (forall s, text <> PyStr s) -> preprocess_text nltk text = Ok "".
Proof.
  intros H. destruct text; try reflexivity.
  exfalso. apply (H s). reflexivity.
Qed.

(** C3.  When the input is not a string, or when its normalisation is
    the empty string, as it is for the empty string once the tokenizer
    finds no token in it, [predict] returns [success = False] with the
    error "Text is empty after preprocessing" and calls neither the
    vectoriser nor the model. *)
Theorem predict_empty_after_preprocessing text :
  (forall s, text <> PyStr s)
  \/ preprocess_text nltk text = Ok ""
  \/ (text = PyStr "" /\ word_tokenize nltk "" = Ok []) ->
  predict nltk self text = (Failure "Text is empty after preprocessing", []).
Proof.
  intros H.
  assert (Hp : preprocess_text nltk text = Ok "").
  { destruct H as [H|[H|[-> H]]].
    - apply preprocess_text_not_str. exact H.
    - exact H.
    - unfold preprocess_text, processed_tokens.
      change (clean "") with "". rewrite H. reflexivity. }
  unfold predict, predict_body. rewrite Hp. reflexivity.
Qed.

(** C9.  When the classifier answers with a label that
    [EMOTION_CONFIG] does not know, [predict] still succeeds, reports
    that label, and fills the metadata with the placeholders: emoji
    "❓", color "#000000", description "Unknown emotion" and intensity
    "unknown". *)
Theorem predict_unknown_label text p v label :
  classifies nltk self text p v label ->
  ~ In label known_emotions ->
  exists r t,
    predict nltk self text = (Success r, t)
    /\ emotion r = label
    /\ emoji r = "❓"
    /\ color r = "#000000"
    /\ description r = "Unknown emotion"
    /\ intensity r = "unknown".
Proof.
  intros (Hp & Hne & Ht & Hm & Hproba) Hunknown.
  rewrite (predict_after_label text p v label Hp Hne Ht Hm).
  destruct (probabilities_of_ok label v Hproba) as (cp & t & ->).
  rewrite (dict_get_not_in label EMOTION_CONFIG Hunknown).
  eexists. eexists. repeat split.
Qed.

End PredictFacts.

(** ** Batches *)

Section BatchFacts.

Variable nltk : NLTK.
Variable self : Predictor.
Variable type_error : string -> pyval -> exn.

Lemma predict_each_map texts :
  predict_each nltk self texts =
  (Ok (map (fun text => fst (predict nltk self text)) texts),
   flat_map (fun text => snd (predict nltk self text)) texts).
Proof.
  induction texts as [|text texts IH]; [reflexivity|].
  cbn [predict_each map flat_map]. unfold tbind at 1, call_predict.
  destruct (predict nltk self text) as [r t]. rewrite IH.
  cbn. rewrite app_nil_r. reflexivity.
Qed.

Lemma dict_get_some_truthy {V} k (d : list (string * V)) x :
  dict_get k d = Some x -> d <> [].
Proof. destruct d; [discriminate|discriminate]. Qed.

(** The request reaches the line that reads [data[key]]. *)
Lemma request_field key data x :
  dict_get key data = Some x ->
  truthy (PyDict data) = true
  /\ py_in type_error key (PyDict data) = Ok true
  /\ py_getitem type_error (PyDict data) key = Ok x.
Proof.
  intros H. cbn [py_in py_getitem]. rewrite H.
  destruct data; [discriminate H|]. repeat split.
Qed.

(** C4.  For a request whose [texts] is a list: with at most 50 texts
    the batch answers with exactly one result per text, in the order
    of the texts, the i-th result being what [predict] returns on the
    i-th text alone, failures included; with more than 50 texts the
    batch is refused and no prediction is made. *)
Theorem predict_batch_in_order data texts :
  dict_get "texts" data = Some (PyList texts) ->
  (length texts <= 50 ->
     let results := map (fun text => fst (predict nltk self text)) texts in
     predict_batch nltk self type_error (Ok (PyDict data))
     = ((Batch (length texts) results, 200),
        flat_map (fun text => snd (predict nltk self text)) texts)
     /\ length results = length texts
     /\ forall i text, nth_error texts i = Some text ->
          nth_error results i = Some (fst (predict nltk self text)))
  /\ (50 < length texts ->
        predict_batch nltk self type_error (Ok (PyDict data))
        = ((Error "Maximum 50 texts allowed per batch", 400), [])).
Proof.
  intros Hget.
  destruct (request_field "texts" data _ Hget) as (Htruthy & Hin & Hitem).
  assert (Hbody : predict_batch_body nltk self type_error (Ok (PyDict data))
                  = if 50 <? length texts
                    then ret (Error "Maximum 50 texts allowed per batch", 400)
                    else results <~ predict_each nltk self texts ;;
                         ret (Batch (length results) results, 200)).
  { unfold predict_batch_body. unfold pure at 1, tbind at 1.
    rewrite Htruthy, Hin. unfold pure at 1, tbind at 1.
    cbn [negb]. rewrite Hitem. unfold pure at 1, tbind at 1.
    destruct (50 <? length texts); cbn [ret app]; [reflexivity|].
    destruct (tbind _ _) as [r t]. reflexivity. }
  unfold predict_batch. rewrite Hbody. split.
  - intros Hle.
    destruct (Nat.ltb_spec 50 (length texts)) as [Hgt|_]; [lia|].
    rewrite predict_each_map. cbn [tbind ret].
    rewrite (length_map (fun text => fst (predict nltk self text)) texts).
    rewrite app_nil_r. repeat split.
    intros i text Hi. rewrite nth_error_map, Hi. reflexivity.
  - intros Hgt.
    destruct (Nat.ltb_spec 50 (length texts)) as [_|Hle]; [reflexivity|lia].
Qed.

End BatchFacts.

(** ** Conversations *)

Section CountingFacts.

Lemma mem_In w ws : mem w ws = true <-> In w ws.
Proof.
  unfold mem. rewrite existsb_exists. split.
  - intros (x & Hin & Heq). apply String.eqb_eq in Heq. subst x. exact Hin.
  - intros Hin. exists w. split; [exact Hin|apply String.eqb_refl].
Qed.

Lemma mem_false w ws : mem w ws = false <-> ~ In w ws.
Proof.
  rewrite <- mem_In. destruct (mem w ws); split; congruence.
Qed.

Lemma see_NoDup seen l : NoDup seen -> NoDup (see seen l).
Proof.
  intros Hnd. unfold see. destruct (mem l seen) eqn:Hm; [exact Hnd|].
  apply mem_false in Hm.
  apply NoDup_rev in Hnd. rewrite <- (rev_involutive (seen ++ [l])).
  apply NoDup_rev. rewrite rev_app_distr. constructor.
  - rewrite <- in_rev. exact Hm.
  - exact Hnd.
Qed.

Lemma table_ext g g' ks :
  (forall k, In k ks -> g k = g' k) -> table g ks = table g' ks.
Proof.
  intros H. apply map_ext_in. intros k Hk. rewrite (H k Hk). reflexivity.
Qed.

Lemma dict_get_table g ks k :
  dict_get k (table g ks) = if mem k ks then Some (g k) else None.
Proof.
  induction ks as [|k' ks IH]; [reflexivity|].
  cbn [table map dict_get mem existsb].
  destruct (String.eqb_spec k k') as [->|Hne]; [reflexivity|].
  exact IH.
Qed.

Lemma dict_set_table_absent g ks l n :
  ~ In l ks -> dict_set l n (table g ks) = table g ks ++ [(l, n)].
Proof.
  induction ks as [|k ks IH]; intros Hin; [reflexivity|].
  cbn [table map dict_set app].
  destruct (String.eqb_spec l k) as [->|Hne].
  - exfalso. apply Hin. left. reflexivity.
  - f_equal. apply IH. intros H. apply Hin. right. exact H.
Qed.

Lemma dict_set_table_present g ks l n :
  NoDup ks -> In l ks ->
  dict_set l n (table g ks)
  = table (fun k => if String.eqb k l then n else g k) ks.
Proof.
  induction ks as [|k ks IH]; intros Hnd Hin; [destruct Hin|].
  inversion Hnd as [|? ? Hk Hnd']; subst.
  cbn [table map dict_set].
  destruct (String.eqb_spec l k) as [->|Hne].
  - rewrite String.eqb_refl. f_equal.
    apply map_ext_in. intros k' Hk'.
    destruct (String.eqb_spec k' k) as [->|_]; [contradiction|reflexivity].
  - destruct (String.eqb_spec k l) as [->|_]; [congruence|].
    f_equal. apply IH; [exact Hnd'|].
    destruct Hin as [->|Hin]; [congruence|exact Hin].
Qed.

(** One more occurrence of [l] in a table of counts. *)
Lemma bump_table g ks l :
  NoDup ks -> (forall k, ~ In k ks -> g k = 0) ->
  bump (table g ks) l
  = table (fun k => g k + if String.eqb k l then 1 else 0) (see ks l).
Proof.
  intros Hnd Hzero. unfold bump, see.
  rewrite dict_get_table. destruct (mem l ks) eqn:Hm.
  - apply mem_In in Hm.
    rewrite dict_set_table_present by assumption.
    apply table_ext. intros k _.
    destruct (String.eqb_spec k l) as [->|_]; lia.
  - apply mem_false in Hm.
    rewrite dict_set_table_absent by assumption.
    unfold table. rewrite map_app. cbn [map].
    rewrite String.eqb_refl, (Hzero l Hm). f_equal.
    apply map_ext_in. intros k Hk.
    destruct (String.eqb_spec k l) as [->|_]; [contradiction|].
    rewrite Nat.add_0_r. reflexivity.
Qed.

Lemma occurrences_cons l labels k :
  occurrences (l :: labels) k
  = (if String.eqb k l then 1 else 0) + occurrences labels k.
Proof.
  unfold occurrences. cbn [count_occ].
  destruct (string_dec l k) as [->|Hne].
  - rewrite String.eqb_refl. reflexivity.
  - destruct (String.eqb_spec k l) as [->|_]; [congruence|reflexivity].
Qed.

Lemma in_see seen l k : In k (see seen l) <-> In k seen \/ k = l.
Proof.
  unfold see. destruct (mem l seen) eqn:Hm.
  - apply mem_In in Hm. split; [tauto|].
    intros [H| ->]; assumption.
  - rewrite in_app_iff. cbn [In]. intuition congruence.
Qed.

Lemma counting_from g ks labels :
  NoDup ks -> (forall k, ~ In k ks -> g k = 0) ->
  fold_left bump labels (table g ks)
  = table (fun k => g k + occurrences labels k) (fold_left see labels ks).
Proof.
  revert g ks. induction labels as [|l labels IH]; intros g ks Hnd Hzero.
  - cbn [fold_left]. apply table_ext. intros k _.
    unfold occurrences. cbn. lia.
  - cbn [fold_left]. rewrite bump_table by assumption.
    rewrite IH.
    + apply table_ext. intros k _. rewrite occurrences_cons. lia.
    + apply see_NoDup. exact Hnd.
    + intros k Hk. rewrite in_see in Hk.
      rewrite Hzero by tauto.
      destruct (String.eqb_spec k l) as [->|_]; [tauto|reflexivity].
Qed.

(** Counting labels from the empty dictionary gives, for each label
    in the order of first appearance, its number of occurrences. *)
Lemma counting labels :
  fold_left bump labels [] = table (occurrences labels) (first_seen labels).
Proof.
  change (@nil (string * nat)) with (table (fun _ => 0) []).
  rewrite counting_from.
  - reflexivity.
  - constructor.
  - reflexivity.
Qed.

End CountingFacts.

Section MaxKeyFacts.

Lemma larger_lt best kv : snd best < snd kv -> larger best kv = kv.
Proof.
  intros H. unfold larger.
  destruct (Nat.ltb_spec (snd best) (snd kv)); [reflexivity|lia].
Qed.

Lemma larger_ge best kv : snd kv <= snd best -> larger best kv = best.
Proof.
  intros H. unfold larger.
  destruct (Nat.ltb_spec (snd best) (snd kv)); [lia|reflexivity].
Qed.

Lemma max_fold rest best :
  let r := fold_left larger rest best in
  (r = best /\ forall kv, In kv rest -> snd kv <= snd best)
  \/ (exists before after,
        rest = before ++ r :: after
        /\ snd best < snd r
        /\ (forall kv, In kv before -> snd kv < snd r)
        /\ (forall kv, In kv after -> snd kv <= snd r)).
Proof.
  revert best. induction rest as [|kv rest IH]; intros best r.
  - left. split; [reflexivity|]. intros kv [].
  - subst r. cbn [fold_left].
    destruct (Nat.lt_ge_cases (snd best) (snd kv)) as [Hlt|Hge].
    + rewrite (larger_lt best kv Hlt). right. destruct (IH kv) as [[Hr Hall]|(b & a & Hrest & Hlt' & Hb & Ha)].
      * exists [], rest. rewrite Hr. repeat split; auto.
        intros kv' [].
      * exists (kv :: b), a. rewrite Hrest at 1. repeat split; auto.
        -- lia.
        -- intros kv' [<-|Hin]; [exact Hlt'|apply Hb; exact Hin].
    + rewrite (larger_ge best kv Hge).
      destruct (IH best) as [[Hr Hall]|(b & a & Hrest & Hlt' & Hb & Ha)].
      * left. split; [exact Hr|].
        intros kv' [<-|Hin]; [exact Hge|apply Hall; exact Hin].
      * right. exists (kv :: b), a. rewrite Hrest at 1. repeat split; auto.
        intros kv' [<-|Hin]; [lia|apply Hb; exact Hin].
Qed.

(** [max] returns the first of the keys with the largest count. *)
Lemma max_key_first d :
  d <> [] ->
  exists before k n after,
    max_key d = Some k
    /\ d = before ++ (k, n) :: after
    /\ (forall kv, In kv before -> snd kv < n)
    /\ (forall kv, In kv after -> snd kv <= n).
Proof.
  destruct d as [|kv0 rest]; [congruence|]. intros _.
  unfold max_key.
  destruct (max_fold rest kv0) as [[Hr Hall]|(b & a & Hrest & Hlt & Hb & Ha)].
  - exists [], (fst kv0), (snd kv0), rest. rewrite Hr.
    repeat split; auto.
    + destruct kv0; reflexivity.
    + intros kv [].
  - set (r := fold_left larger rest kv0) in *.
    exists (kv0 :: b), (fst r), (snd r), a. repeat split; auto.
    + rewrite Hrest at 1. destruct r; reflexivity.
    + intros kv [<-|Hin]; [exact Hlt|apply Hb; exact Hin].
Qed.

Lemma max_key_nil : max_key [] = None.
Proof. reflexivity. Qed.

(** The dominant label of a counting: the first, in the order of
    first appearance, of the labels that occur most often. *)
Lemma max_key_counting labels :
  labels <> [] ->
  exists before k after,
    max_key (fold_left bump labels []) = Some k
    /\ first_seen labels = before ++ k :: after
    /\ (forall l, In l before -> occurrences labels l < occurrences labels k)
    /\ (forall l, In l after -> occurrences labels l <= occurrences labels k).
Proof.
  intros Hne. rewrite counting.
  assert (Hfs : first_seen labels <> []).
  { destruct labels as [|l labels]; [congruence|].
    unfold first_seen. cbn [fold_left]. change (see [] l) with [l].
    intros H. assert (Hin : In l (fold_left see labels [l])).
    { clear. generalize (in_eq l []). generalize [l] as seen.
      induction labels as [|l' labels IH]; intros seen Hin; [exact Hin|].
      cbn [fold_left]. apply IH. apply in_see. left. exact Hin. }
    rewrite H in Hin. destruct Hin. }
  destruct (max_key_first (table (occurrences labels) (first_seen labels)))
    as (b & k & n & a & Hmax & Hsplit & Hb & Ha).
  { unfold table. destruct (first_seen labels); [congruence|discriminate]. }
  unfold table in Hsplit.
  apply map_eq_app in Hsplit. destruct Hsplit as (fb & rest & Hfs' & Hb' & Hrest).
  apply map_eq_cons in Hrest. destruct Hrest as (k' & fa & -> & Hk & Ha').
  injection Hk as -> <-.
  exists fb, k, fa. repeat split; auto.
  - intros l Hl. apply (Hb (l, occurrences labels l)).
    rewrite <- Hb'. apply (in_map (fun k => (k, occurrences labels k))).
    exact Hl.
  - intros l Hl. apply (Ha (l, occurrences labels l)).
    rewrite <- Ha'. apply (in_map (fun k => (k, occurrences labels k))).
    exact Hl.
Qed.

End MaxKeyFacts.

Section ConversationFacts.

Variable nltk : NLTK.
Variable self : Predictor.
Variable type_error : string -> pyval -> exn.

(** What one iteration of the loop does with a message that is a
    [dict]. *)
Lemma analyze_message_dict tally d :
  exists tally',
    analyze_message nltk self type_error tally (PyDict d)
    = (Ok tally', conversation_trace nltk self [PyDict d])
    /\ length (t_analyzed_messages tally')
       = length (t_analyzed_messages tally)
         + length (successes nltk self [PyDict d])
    /\ t_emotion_counts tally'
       = fold_left bump (map emotion (successes nltk self [PyDict d]))
                   (t_emotion_counts tally)
    /\ t_total_confidence tally'
       = fold_left fadd (map confidence (successes nltk self [PyDict d]))
                   (t_total_confidence tally).
Proof.
  unfold analyze_message, successes, conversation_trace, call_predict.
  unfold tbind, pure, ret.
  cbn [flat_map py_in py_getitem py_items].
  destruct (dict_get "text" d) as [text|] eqn:Hget.
  - destruct (predict nltk self text) as [[p|err] t]; cbn [fst snd app].
    + eexists. rewrite !app_nil_r. split; [reflexivity|].
      cbn. rewrite length_app. repeat split.
    + exists tally. rewrite !app_nil_r.
      repeat split. cbn. lia.
  - exists tally. repeat split. cbn. lia.
Qed.

Lemma successes_cons msg messages :
  successes nltk self (msg :: messages)
  = successes nltk self [msg] ++ successes nltk self messages.
Proof.
  unfold successes. cbn [flat_map]. rewrite app_nil_r. reflexivity.
Qed.

Lemma conversation_trace_cons msg messages :
  conversation_trace nltk self (msg :: messages)
  = conversation_trace nltk self [msg] ++ conversation_trace nltk self messages.
Proof.
  unfold conversation_trace. cbn [flat_map]. rewrite app_nil_r. reflexivity.
Qed.

(** The loop over messages that are all [dict]s runs to its end and
    tallies the successful predictions. *)
Lemma analyze_messages_tally messages :
  forallb is_dict messages = true ->
  forall tally,
  exists tally',
    analyze_messages nltk self type_error tally messages
    = (Ok tally', conversation_trace nltk self messages)
    /\ length (t_analyzed_messages tally')
       = length (t_analyzed_messages tally)
         + length (successes nltk self messages)
    /\ t_emotion_counts tally'
       = fold_left bump (map emotion (successes nltk self messages))
                   (t_emotion_counts tally)
    /\ t_total_confidence tally'
       = fold_left fadd (map confidence (successes nltk self messages))
                   (t_total_confidence tally).
Proof.
  induction messages as [|msg messages IH]; intros Hall tally.
  - exists tally. cbn. repeat split. lia.
  - cbn [forallb] in Hall. apply andb_prop in Hall. destruct Hall as [Hd Hall].
    destruct msg as [| | | | |d]; try discriminate Hd.
    destruct (analyze_message_dict tally d) as (tally1 & Hstep & Hlen1 & Hc1 & Ht1).
    destruct (IH Hall tally1) as (tally2 & Hloop & Hlen2 & Hc2 & Ht2).
    exists tally2.
    rewrite (successes_cons (PyDict d) messages).
    rewrite (conversation_trace_cons (PyDict d) messages).
    cbn [analyze_messages]. rewrite Hstep. unfold tbind. rewrite Hloop.
    rewrite !map_app, !fold_left_app, length_app.
    rewrite Hlen2, Hc2, Ht2, Hlen1, Hc1, Ht1.
    repeat split. lia.
Qed.

Lemma in_fold_see labels seen l :
  In l (fold_left see labels seen) <-> In l seen \/ In l labels.
Proof.
  revert seen. induction labels as [|l' labels IH]; intros seen.
  - cbn. tauto.
  - cbn [fold_left]. rewrite IH, in_see. cbn [In]. intuition congruence.
Qed.

Lemma occurrences_first_seen labels l :
  ~ In l (first_seen labels) -> occurrences labels l = 0.
Proof.
  intros H. apply count_occ_not_In. intros Hin. apply H.
  apply in_fold_see. right. exact Hin.
Qed.

(** A request whose [messages] are [dict]s is analysed to the end. *)
Lemma analyze_conversation_run data messages :
  dict_get "messages" data = Some (PyList messages) ->
  forallb is_dict messages = true ->
  exists tally,
    analyze_conversation nltk self type_error (Ok (PyDict data))
    = ((Summary (summarize tally), 200), conversation_trace nltk self messages)
    /\ length (t_analyzed_messages tally)
       = length (successes nltk self messages)
    /\ t_emotion_counts tally
       = fold_left bump (map emotion (successes nltk self messages)) []
    /\ t_total_confidence tally
       = fold_left fadd (map confidence (successes nltk self messages)) 0%Q.
Proof.
  intros Hget Hall.
  destruct (request_field type_error "messages" data _ Hget)
    as (Htruthy & Hin & Hitem).
  destruct (analyze_messages_tally messages Hall
              {| t_analyzed_messages := [];
                 t_emotion_counts := [];
                 t_total_confidence := 0%Q |})
    as (tally & Hloop & Hlen & Hcounts & Htotal).
  exists tally. split; [|auto].
  unfold analyze_conversation, analyze_conversation_body.
  unfold pure at 1, tbind at 1. rewrite Htruthy, Hin.
  unfold pure at 1, tbind at 1. cbn [negb]. rewrite Hitem.
  unfold pure at 1, tbind at 1. rewrite Hloop.
  cbn. rewrite !app_nil_r. reflexivity.
Qed.

(** C6, as the code has it.  For a request whose messages are [dict]s,
    the analysis counts the successful predictions; the dominant
    emotion is "neutral" when there is none and otherwise the label
    with the largest count, the first one in the order of first
    appearance when several labels have that count; the average
    confidence is the mean of the confidences of the successful
    predictions as floating point arithmetic gives it (the confidences
    added one by one to 0, the total divided by their number), rounded
    to 2 decimals, that is the float of the nearest decimal with two
    places; it is 0 when there is none. *)
Theorem analyze_conversation_dominant_and_average data messages :
  dict_get "messages" data = Some (PyList messages) ->
  forallb is_dict messages = true ->
  exists s t,
    analyze_conversation nltk self type_error (Ok (PyDict data))
    = ((Summary s, 200), t)
    /\ let ps := successes nltk self messages in
       let labels := map emotion ps in
       total_messages s = length ps
       /\ emotion_distribution s
          = table (occurrences labels) (first_seen labels)
       /\ (ps = [] ->
           dominant_emotion s = "neutral" /\ (average_confidence s == 0)%Q)
       /\ (ps <> [] ->
           (forall l, occurrences labels l
                      <= occurrences labels (dominant_emotion s))
           /\ exists before after,
               first_seen labels = before ++ dominant_emotion s :: after
               /\ forall l, In l before ->
                    occurrences labels l
                    < occurrences labels (dominant_emotion s))
       /\ average_confidence s = py_round2 (float_mean (map confidence ps))
       /\ rounded2 (float_mean (map confidence ps)) (average_confidence s).
Proof.
  intros Hget Hall.
  destruct (analyze_conversation_run data messages Hget Hall)
    as (tally & Hrun & Hlen & Hcounts & Htotal).
  exists (summarize tally), (conversation_trace nltk self messages).
  split; [exact Hrun|].
  set (ps := successes nltk self messages) in *.
  cbv zeta. unfold summarize.
  cbn [total_messages emotion_distribution dominant_emotion
       average_confidence].
  rewrite Hcounts, Htotal.
  assert (Havg :
    match t_analyzed_messages tally with
    | [] => 0%Q
    | _ :: _ =>
        fdiv (fold_left fadd (map confidence ps) 0%Q)
             (inject_Z (Z.of_nat (length (t_analyzed_messages tally))))
    end = float_mean (map confidence ps)).
  { rewrite Hlen. unfold float_mean, float_sum. rewrite length_map.
    destruct (t_analyzed_messages tally), ps; try discriminate Hlen;
      reflexivity. }
  rewrite Havg. repeat split.
  - exact Hlen.
  - apply counting.
  - rewrite H. reflexivity.
  - rewrite H. reflexivity.
  - assert (Hl : map emotion ps <> [])
      by (destruct ps; [congruence|discriminate]).
    destruct (max_key_counting (map emotion ps) Hl)
      as (b & k & a & -> & Hfs & Hb & Ha).
    intros l.
    destruct (in_dec string_dec l (first_seen (map emotion ps))) as [Hin|Hout].
    + rewrite Hfs in Hin. apply in_app_or in Hin.
      destruct Hin as [Hin|[<-|Hin]].
      * apply Nat.lt_le_incl. apply Hb. exact Hin.
      * apply le_n.
      * apply Ha. exact Hin.
    + rewrite (occurrences_first_seen _ _ Hout). apply Nat.le_0_l.
  - assert (Hl : map emotion ps <> [])
      by (destruct ps; [congruence|discriminate]).
    destruct (max_key_counting (map emotion ps) Hl)
      as (b & k & a & -> & Hfs & Hb & Ha).
    exists b, a. split; [exact Hfs|exact Hb].
  - apply py_round2_rounded2.
Qed.

(** Every summary that [analyze_conversation] returns is built by
    [summarize]. *)
Lemma analyze_conversation_summary_inv request s status t :
  analyze_conversation nltk self type_error request
  = ((Summary s, status), t) ->
  exists tally, s = summarize tally.
Proof.
  unfold analyze_conversation, analyze_conversation_body.
  destruct request as [data|e]; [|discriminate].
  unfold pure at 1, tbind at 1.
  destruct (if truthy data then py_in type_error "messages" data else Ok false)
    as [[|]|e]; unfold pure at 1, tbind at 1; cbn [negb]; try discriminate.
  destruct (py_getitem type_error data "messages") as [messages|e];
    unfold pure at 1, tbind at 1; [|discriminate].
  destruct messages as [| | | |messages|]; try discriminate.
  unfold tbind.
  destruct (analyze_messages _ _ _ _ messages) as [[tally|e] t0];
    [|discriminate].
  cbn. intros H. injection H as <- _ _. exists tally. reflexivity.
Qed.

(** C10.  In a summary the emoji of the dominant emotion is the emoji
    that [EMOTION_CONFIG] gives for that label when it knows the
    label; for a label it does not know the emoji is the neutral
    "😐", which is not the "❓" that [predict] uses for such a label. *)
Theorem dominant_emoji_lookup request s status t :
  analyze_conversation nltk self type_error request
  = ((Summary s, status), t) ->
  (forall details,
     dict_get (dominant_emotion s) EMOTION_CONFIG = Some details ->
     dominant_emoji s = d_emoji details)
  /\ (~ In (dominant_emotion s) known_emotions ->
      dominant_emoji s = "😐"
      /\ dominant_emoji s <> d_emoji unknown_details).
Proof.
  intros Hrun.
  destruct (analyze_conversation_summary_inv request s status t Hrun)
    as (tally & ->).
  unfold summarize. cbn [dominant_emotion dominant_emoji].
  split.
  - intros details ->. reflexivity.
  - intros Hunknown.
    rewrite (dict_get_not_in _ EMOTION_CONFIG Hunknown).
    split; [reflexivity|discriminate].
Qed.

End ConversationFacts.

(** ** Confidence and ranking *)



Section MaxFacts.

Lemma Qlt_bool_true a b : Qlt_bool a b = true -> (a < b)%Q.
Proof.
  unfold Qlt_bool. intros H. apply negb_true_iff in H.
  apply Qnot_le_lt. intros Hle. apply Qle_bool_iff in Hle. congruence.
Qed.

Lemma Qlt_bool_false a b : Qlt_bool a b = false -> (b <= a)%Q.
Proof.
  unfold Qlt_bool. intros H. apply negb_false_iff in H.
  apply Qle_bool_iff. exact H.
Qed.

Lemma max_fold_largest rest x :
  let m := fold_left (fun m y => if Qlt_bool m y then y else m) rest x in
  (m = x \/ In m rest) /\ (x <= m)%Q /\ forall y, In y rest -> (y <= m)%Q.
Proof.
  revert x. induction rest as [|y rest IH]; intros x m.
  - subst m. cbn. repeat split; [left; reflexivity|lra|tauto].
  - subst m. cbn [fold_left].
    destruct (Qlt_bool x y) eqn:Hc.
    + apply Qlt_bool_true in Hc.
      destruct (IH y) as ([Hm|Hm] & Hle & Hall); repeat split.
      * right. left. symmetry. exact Hm.
      * lra.
      * intros z [<-|Hz]; [exact Hle|apply Hall; exact Hz].
      * right. right. exact Hm.
      * lra.
      * intros z [<-|Hz]; [exact Hle|apply Hall; exact Hz].
    + apply Qlt_bool_false in Hc.
      destruct (IH x) as ([Hm|Hm] & Hle & Hall); repeat split.
      * left. exact Hm.
      * exact Hle.
      * intros z [<-|Hz]; [lra|apply Hall; exact Hz].
      * right. right. exact Hm.
      * exact Hle.
      * intros z [<-|Hz]; [lra|apply Hall; exact Hz].
Qed.

(** [max] returns an element of the sequence that no element exceeds. *)
Lemma py_max_largest xs m :
  py_max xs = Ok m -> In m xs /\ forall y, In y xs -> (y <= m)%Q.
Proof.
  destruct xs as [|x rest]; [discriminate|].
  cbn [py_max]. intros H. injection H as <-.
  destruct (max_fold_largest rest x) as (Hin & Hle & Hall). split.
  - destruct Hin as [->|Hin]; [left; reflexivity|right; exact Hin].
  - intros y [<-|Hy]; [exact Hle|apply Hall; exact Hy].
Qed.

End MaxFacts.

Section DictFacts.

Context {V : Type}.
Implicit Types (d items : list (string * V)).

Lemma keys_dict_set k v d : keys (dict_set k v d) = see (keys d) k.
Proof.
  unfold see. induction d as [|[k' v'] d IH]; [reflexivity|].
  cbn [dict_set keys map fst mem existsb].
  destruct (String.eqb_spec k k') as [->|Hne]; [reflexivity|].
  cbn [map fst]. fold (keys (dict_set k v d)). rewrite IH.
  fold (keys d). fold (mem k (keys d)).
  destruct (mem k (keys d)); reflexivity.
Qed.

Lemma dict_set_absent k v d :
  ~ In k (keys d) -> dict_set k v d = d ++ [(k, v)].
Proof.
  induction d as [|[k' v'] d IH]; intros Hin; [reflexivity|].
  cbn [dict_set app]. destruct (String.eqb_spec k k') as [->|Hne].
  - exfalso. apply Hin. left. reflexivity.
  - f_equal. apply IH. intros H. apply Hin. right. exact H.
Qed.

Lemma keys_fold_set items d :
  keys (fold_left (fun d kv => dict_set (fst kv) (snd kv) d) items d)
  = fold_left see (keys items) (keys d).
Proof.
  revert d. induction items as [|[k v] items IH]; intros d; [reflexivity|].
  cbn [fold_left fst snd]. rewrite IH, keys_dict_set. reflexivity.
Qed.

Lemma fold_see_NoDup labels seen :
  NoDup seen -> NoDup (fold_left see labels seen).
Proof.
  revert seen. induction labels as [|l labels IH]; intros seen Hnd;
    [exact Hnd|].
  cbn [fold_left]. apply IH. apply see_NoDup. exact Hnd.
Qed.

(** A [dict] has one item per key. *)
Lemma dict_of_NoDup items : NoDup (keys (dict_of items)).
Proof.
  unfold dict_of. rewrite keys_fold_set. apply fold_see_NoDup. constructor.
Qed.

Lemma fold_set_distinct items d :
  NoDup (keys d ++ keys items) ->
  fold_left (fun d kv => dict_set (fst kv) (snd kv) d) items d = d ++ items.
Proof.
  revert d. induction items as [|[k v] items IH]; intros d Hnd.
  - rewrite app_nil_r. reflexivity.
  - cbn [fold_left fst snd]. cbn [keys map fst] in Hnd.
    rewrite dict_set_absent.
    + rewrite IH.
      * rewrite <- app_assoc. reflexivity.
      * unfold keys. rewrite map_app. cbn [map fst].
        rewrite <- app_assoc. exact Hnd.
    + intros Hin. apply NoDup_remove_2 in Hnd. apply Hnd.
      apply in_or_app. left. exact Hin.
Qed.

(** Items with distinct keys make the [dict] that lists them. *)
Lemma dict_of_distinct items : NoDup (keys items) -> dict_of items = items.
Proof.
  intros Hnd. unfold dict_of. rewrite fold_set_distinct; [reflexivity|].
  exact Hnd.
Qed.

End DictFacts.

Section SortingFacts.

Implicit Types (x : string * Q) (l : list (string * Q)).

Lemma insert_desc_perm x l : Permutation (x :: l) (insert_desc x l).
Proof.
  induction l as [|y l IH]; [apply Permutation_refl|].
  cbn [insert_desc]. destruct (Qlt_bool (snd x) (snd y)).
  - eapply perm_trans; [apply perm_swap|]. apply perm_skip. exact IH.
  - apply Permutation_refl.
Qed.

Lemma sorted_desc_perm l : Permutation l (sorted_desc l).
Proof.
  induction l as [|x l IH]; [apply perm_nil|].
  cbn [sorted_desc fold_right]. fold (sorted_desc l).
  eapply perm_trans; [|apply insert_desc_perm].
  apply perm_skip. exact IH.
Qed.

Lemma insert_desc_sorted x l :
  non_increasing l -> non_increasing (insert_desc x l).
Proof.
  unfold non_increasing.
  induction l as [|y l IH]; intros Hs.
  - constructor; constructor.
  - cbn [insert_desc]. inversion Hs as [|? ? Hl Hy]; subst.
    destruct (Qlt_bool (snd x) (snd y)) eqn:Hc.
    + apply Qlt_bool_true in Hc. constructor; [apply IH; exact Hl|].
      apply (Permutation_Forall (insert_desc_perm x l)).
      constructor; [lra|exact Hy].
    + apply Qlt_bool_false in Hc. constructor; [exact Hs|].
      constructor; [exact Hc|].
      apply (Forall_impl _ (P := fun b => (snd b <= snd y)%Q)); [|exact Hy].
      intros z Hz. lra.
Qed.

(** [sorted(..., reverse=True)] puts the items in non-increasing order. *)
Lemma sorted_desc_sorted l : non_increasing (sorted_desc l).
Proof.
  induction l as [|x l IH]; [constructor|].
  cbn [sorted_desc fold_right]. apply insert_desc_sorted. exact IH.
Qed.

Lemma sorted_desc_keys l : NoDup (keys l) -> NoDup (keys (sorted_desc l)).
Proof.
  apply Permutation_NoDup. unfold keys. apply Permutation_map.
  apply sorted_desc_perm.
Qed.

Lemma firstn_sorted n l : non_increasing l -> non_increasing (firstn n l).
Proof.
  unfold non_increasing. revert n.
  induction l as [|x l IH]; intros n Hs.
  - rewrite firstn_nil. constructor.
  - destruct n as [|n]; [constructor|].
    inversion Hs as [|? ? Hl Hx]; subst. cbn [firstn].
    constructor; [apply IH; exact Hl|].
    rewrite <- (firstn_skipn n l) in Hx. apply Forall_app in Hx. tauto.
Qed.

Lemma firstn_keys {V} n (l : list (string * V)) :
  NoDup (keys l) -> NoDup (keys (firstn n l)).
Proof.
  intros Hnd. rewrite <- (firstn_skipn n l) in Hnd.
  unfold keys in *. rewrite map_app in Hnd.
  apply NoDup_app_remove_r in Hnd. exact Hnd.
Qed.

Lemma scaled_keys l : keys (scaled l) = keys l.
Proof.
  unfold keys, scaled. rewrite map_map. reflexivity.
Qed.

(** Scaling to rounded percentages keeps the order. *)
Lemma scaled_sorted l : non_increasing l -> non_increasing (scaled l).
Proof.
  unfold non_increasing. induction 1 as [|x l Hl IH Hx]; [constructor|].
  cbn [scaled map]. constructor; [exact IH|].
  apply Forall_map. eapply Forall_impl; [|exact Hx].
  intros y Hy. cbn [snd]. apply percent_mono. exact Hy.
Qed.

End SortingFacts.

Section RankingFacts.

Variable nltk : NLTK.
Variable self : Predictor.

(** What a successful [predict] went through. *)
Lemma predict_success_inv text r t :
  predict nltk self text = (Success r, t) ->
  exists p v label cp t',
    preprocess_text nltk text = Ok p /\ p <> ""
    /\ transform self p = Ok v
    /\ model_predict self v = Ok label
    /\ probabilities_of self label v = (Ok cp, t')
    /\ emotion r = label
    /\ confidence r = py_round2 (fmul (fst cp) 100)
    /\ all_probabilities r = dict_of (scaled (firstn 5 (snd cp))).
Proof.
  intros H.
  destruct (preprocess_text nltk text) as [p|e] eqn:Hp.
  2:{ unfold predict, predict_body in H. rewrite Hp in H. discriminate H. }
  destruct (is_empty p) eqn:Hemp.
  { unfold predict, predict_body in H. rewrite Hp in H.
    unfold pure, tbind in H. rewrite Hemp in H. discriminate H. }
  assert (Hne : p <> "") by (intros ->; discriminate).
  destruct (transform self p) as [v|e] eqn:Hv.
  2:{ unfold predict, predict_body in H. rewrite Hp in H.
      unfold pure, tbind at 1 in H. rewrite Hemp, Hv in H. discriminate H. }
  destruct (model_predict self v) as [label|e] eqn:Hl.
  2:{ unfold predict, predict_body in H. rewrite Hp in H.
      unfold pure, tbind at 1 in H. rewrite Hemp, Hv in H.
      unfold invoke at 1, tbind at 1 in H. rewrite Hl in H. discriminate H. }
  rewrite (predict_after_label nltk self text p v label Hp Hne Hv Hl) in H.
  destruct (probabilities_of self label v) as [[cp|e] t'] eqn:Hcp;
    [|discriminate H].
  injection H as <- _.
  exists p, v, label, cp, t'. repeat split; auto.
Qed.

(** The items of [scaled items] are the rounded percentages of the
    items. *)
Lemma scaled_percentages items : percentages_of items (scaled items).
Proof.
  unfold percentages_of, scaled.
  induction items as [|kv items IH]; cbn [map]; constructor; [|exact IH].
  split; [reflexivity|]. cbn [snd]. apply py_round2_rounded2.
Qed.

(** C2.  On every successful prediction, the confidence is the largest
    probability of the classifier's distribution for the input (1 for
    the predicted label when the model gives no probabilities) times
    100 in floating point and rounded to 2 decimals, that is the float
    of the nearest decimal with two places.  The distribution is put in
    the order [ranking], a rearrangement of it whose probabilities do
    not increase, and [all_probabilities] holds the first 5 items of
    [ranking], each as a percentage rounded to 2 decimals in the same
    way, so that its values do not increase either. *)
Theorem predict_confidence_and_ranking text r t :
  predict nltk self text = (Success r, t) ->
  exists p (v : features self) conf dist ranking,
    preprocess_text nltk text = Ok p
    /\ transform self p = Ok v
    /\ match model_predict_proba self with
       | Some predict_proba =>
           exists probabilities,
             predict_proba v = Ok probabilities
             /\ In conf probabilities
             /\ (forall q, In q probabilities -> (q <= conf)%Q)
             /\ dist = dict_of (combine (classes_ self) probabilities)
       | None => conf = 1%Q /\ dist = [(emotion r, 1%Q)]
       end
    /\ confidence r = py_round2 (fmul conf 100)
    /\ rounded2 (fmul conf 100) (confidence r)
    /\ ranking = sorted_desc dist
    /\ Permutation dist ranking
    /\ non_increasing ranking
    /\ all_probabilities r = scaled (firstn 5 ranking)
    /\ percentages_of (firstn 5 ranking) (all_probabilities r)
    /\ non_increasing (all_probabilities r).
Proof.
  intros H.
  destruct (predict_success_inv text r t H)
    as (p & v & label & cp & t' & Hp & Hne & Hv & Hl & Hcp & He & Hc & Ha).
  assert (Hdist : exists conf dist,
    match model_predict_proba self with
    | Some predict_proba =>
        exists probabilities,
          predict_proba v = Ok probabilities
          /\ In conf probabilities
          /\ (forall q, In q probabilities -> (q <= conf)%Q)
          /\ dist = dict_of (combine (classes_ self) probabilities)
    | None => conf = 1%Q /\ dist = [(emotion r, 1%Q)]
    end
    /\ cp = (conf, sorted_desc dist)).
  { unfold probabilities_of in Hcp.
    destruct (model_predict_proba self) as [f|].
    - destruct (f v) as [probs|e] eqn:Hf; [|discriminate Hcp].
      unfold invoke, tbind at 1 in Hcp.
      destruct (py_max probs) as [conf|e] eqn:Hmax; [|discriminate Hcp].
      cbn in Hcp. injection Hcp as <- _.
      exists conf, (dict_of (combine (classes_ self) probs)).
      destruct (py_max_largest probs conf Hmax) as [Hin Hall].
      split.
      + exists probs. auto.
      + f_equal. apply dict_of_distinct. apply sorted_desc_keys.
        apply dict_of_NoDup.
    - cbn in Hcp. injection Hcp as <- _.
      exists 1%Q, [(emotion r, 1%Q)]. rewrite He. auto. }
  destruct Hdist as (conf & dist & Hmodel & ->). cbn [fst snd] in *.
  assert (Hsorted : non_increasing (sorted_desc dist))
    by apply sorted_desc_sorted.
  assert (Hall : all_probabilities r = scaled (firstn 5 (sorted_desc dist))).
  { rewrite Ha. apply dict_of_distinct. rewrite scaled_keys.
    apply firstn_keys. apply sorted_desc_keys.
    destruct (model_predict_proba self) as [f|].
    - destruct Hmodel as (probs & _ & _ & _ & ->). apply dict_of_NoDup.
    - destruct Hmodel as [_ ->]. repeat constructor. intros []. }
  exists p, v, conf, dist, (sorted_desc dist).
  split; [exact Hp|]. split; [exact Hv|]. split; [exact Hmodel|].
  split; [exact Hc|].
  split; [rewrite Hc; apply py_round2_rounded2|].
  split; [reflexivity|].
  split; [apply sorted_desc_perm|].
  split; [exact Hsorted|].
  split; [exact Hall|].
  split; [rewrite Hall; apply scaled_percentages|].
  rewrite Hall. apply scaled_sorted. apply firstn_sorted. exact Hsorted.
Qed.

End RankingFacts.

(** ** Normalisation *)

Section CharacterFacts.

Ltac char_arith :=
  unfold is_az, is_AZ, is_space, in_range in *;
  repeat match goal with
         | H : _ && _ = true |- _ => apply andb_prop in H; destruct H
         | H : (_ <=? _)%N = true |- _ => apply N.leb_le in H
         end;
  repeat match goal with
         | |- context [(?a <=? ?b)%N] => destruct (N.leb_spec a b)
         | |- context [(?a =? ?b)%N] => destruct (N.eqb_spec a b)
         end;
  cbn; try reflexivity; try lia.

Lemma az_not_space c : is_az c = true -> is_space c = false.
Proof. intros H. char_arith. Qed.

Lemma az_lower c : is_az c = true -> lower_char c = c.
Proof.
  intros H. unfold lower_char.
  assert (Hno : is_AZ c || in_range 192 214 c || in_range 216 222 c = false)
    by char_arith.
  rewrite Hno. reflexivity.
Qed.

Lemma az_not_mark c :
  is_az c = true -> Ascii.eqb c "@" || Ascii.eqb c "#" = false.
Proof.
  intros H.
  destruct (Ascii.eqb_spec c "@") as [->|_]; [discriminate H|].
  destruct (Ascii.eqb_spec c "#") as [->|_]; [discriminate H|].
  reflexivity.
Qed.

End CharacterFacts.

Section CleaningFacts.

Implicit Types (s t : string) (tokens : list string).

Lemma plain_char_cases c :
  plain_char c = true -> is_az c = true \/ c = " "%char.
Proof.
  unfold plain_char. intros H. apply orb_prop in H.
  destruct H as [H|H]; [left; exact H|right].
  apply Ascii.eqb_eq. exact H.
Qed.

Lemma forall_string_app p s t :
  forall_string p (s ++ t) = forall_string p s && forall_string p t.
Proof.
  induction s as [|c s IH]; [reflexivity|].
  cbn [append forall_string]. rewrite IH, andb_assoc. reflexivity.
Qed.

Lemma forall_string_weaken (p q : ascii -> bool) s :
  (forall c, p c = true -> q c = true) ->
  forall_string p s = true -> forall_string q s = true.
Proof.
  intros Hpq. induction s as [|c s IH]; [reflexivity|].
  cbn [forall_string]. intros H. apply andb_prop in H. destruct H as [Hc Hs].
  rewrite (Hpq c Hc), (IH Hs). reflexivity.
Qed.

Lemma plain_lower s : forall_string plain_char s = true -> lower s = s.
Proof.
  induction s as [|c s IH]; [reflexivity|].
  cbn [forall_string]. intros H. apply andb_prop in H. destruct H as [Hc Hs].
  unfold lower in *. cbn [map_string]. rewrite (IH Hs). f_equal.
  destruct (plain_char_cases c Hc) as [Haz| ->];
    [apply az_lower; exact Haz|reflexivity].
Qed.

Lemma url_free_remove_urls s : url_free s = true -> remove_urls s = s.
Proof.
  unfold remove_urls. induction s as [|c s IH]; [reflexivity|].
  cbn [url_free]. intros H. apply andb_prop in H. destruct H as [Hc Hs].
  apply negb_true_iff in Hc.
  cbn [sub_urls]. rewrite Hc. cbn [andb orb]. rewrite (IH Hs). reflexivity.
Qed.

Lemma plain_remove_mentions s :
  forall_string plain_char s = true -> remove_mentions s = s.
Proof.
  unfold remove_mentions. induction s as [|c s IH]; [reflexivity|].
  cbn [forall_string]. intros H. apply andb_prop in H. destruct H as [Hc Hs].
  cbn [sub_mentions].
  assert (Hm : mention_here (String c s) = false).
  { unfold mention_here. destruct s as [|d s]; [reflexivity|].
    destruct (plain_char_cases c Hc) as [Haz| ->]; [|reflexivity].
    rewrite (az_not_mark c Haz). reflexivity. }
  rewrite Hm. cbn [andb orb]. rewrite (IH Hs). reflexivity.
Qed.

Lemma plain_remove_special s :
  forall_string plain_char s = true -> remove_special s = s.
Proof.
  unfold remove_special. induction s as [|c s IH]; [reflexivity|].
  cbn [forall_string]. intros H. apply andb_prop in H. destruct H as [Hc Hs].
  cbn [filter_string]. rewrite (IH Hs).
  destruct (plain_char_cases c Hc) as [Haz| ->]; [|reflexivity].
  rewrite Haz. reflexivity.
Qed.

(** A word of letters goes through the white space stages unchanged. *)
Lemma sub_spaces_word prev t s :
  forall_string is_az t = true -> t <> "" ->
  sub_spaces prev (t ++ s) = (t ++ sub_spaces false s)%string.
Proof.
  revert prev. induction t as [|c t IH]; intros prev Hall Hne; [congruence|].
  cbn [forall_string] in Hall. apply andb_prop in Hall.
  destruct Hall as [Hc Ht].
  cbn [append sub_spaces]. rewrite (az_not_space c Hc). f_equal.
  destruct t as [|d t]; [reflexivity|].
  apply IH; [exact Ht|discriminate].
Qed.

Lemma rstrip_word t s :
  forall_string is_az t = true -> rstrip (t ++ s) = (t ++ rstrip s)%string.
Proof.
  induction t as [|c t IH]; intros Hall; [reflexivity|].
  cbn [forall_string] in Hall. apply andb_prop in Hall.
  destruct Hall as [Hc Ht].
  cbn [append rstrip]. rewrite (az_not_space c Hc), (IH Ht). reflexivity.
Qed.

Lemma lstrip_word t s :
  forall_string is_az t = true -> t <> "" -> lstrip (t ++ s) = (t ++ s)%string.
Proof.
  intros Hall Hne. destruct t as [|c t]; [congruence|].
  cbn [forall_string] in Hall. apply andb_prop in Hall.
  destruct Hall as [Hc _].
  cbn [append lstrip]. rewrite (az_not_space c Hc). reflexivity.
Qed.

Lemma append_empty_r s : (s ++ "")%string = s.
Proof. induction s as [|c s IH]; [reflexivity|cbn; rewrite IH; reflexivity]. Qed.

Lemma append_not_empty t s : t <> "" -> (t ++ s)%string <> "".
Proof. destruct t; [congruence|discriminate]. Qed.

Lemma join_cons2 t t' tokens :
  join " " (t :: t' :: tokens) = (t ++ " " ++ join " " (t' :: tokens))%string.
Proof. reflexivity. Qed.

Lemma join_not_empty t tokens :
  t <> "" -> join " " (t :: tokens) <> "".
Proof.
  intros Hne. destruct tokens as [|t' tokens]; [exact Hne|].
  rewrite join_cons2. apply append_not_empty. exact Hne.
Qed.

Lemma join_plain tokens :
  all_words tokens -> forall_string plain_char (join " " tokens) = true.
Proof.
  induction 1 as [|t tokens [Ht _] _ IH]; [reflexivity|].
  assert (Hplain : forall_string plain_char t = true).
  { revert Ht. apply forall_string_weaken. intros c Hc.
    unfold plain_char. rewrite Hc. reflexivity. }
  destruct tokens as [|t' tokens]; [exact Hplain|].
  rewrite join_cons2, !forall_string_app, Hplain, IH. reflexivity.
Qed.

Lemma join_collapse tokens prev :
  all_words tokens -> sub_spaces prev (join " " tokens) = join " " tokens.
Proof.
  intros Hw. revert prev.
  induction Hw as [|t tokens [Ht Hne] _ IH]; intros prev; [reflexivity|].
  destruct tokens as [|t' tokens].
  - cbn [join]. rewrite <- (append_empty_r t) at 1.
    rewrite sub_spaces_word by assumption. apply append_empty_r.
  - rewrite join_cons2, sub_spaces_word by assumption.
    cbn [append sub_spaces]. change (is_space " ") with true.
    cbn match. rewrite IH. reflexivity.
Qed.

Lemma join_rstrip tokens :
  all_words tokens -> rstrip (join " " tokens) = join " " tokens.
Proof.
  induction 1 as [|t tokens [Ht Hne] Hw IH]; [reflexivity|].
  destruct tokens as [|t' tokens].
  - cbn [join]. rewrite <- (append_empty_r t) at 1.
    rewrite rstrip_word by assumption. apply append_empty_r.
  - rewrite join_cons2, rstrip_word by assumption.
    cbn [append rstrip]. rewrite IH.
    inversion Hw as [|? ? [_ Hne'] _]; subst.
    pose proof (join_not_empty t' tokens Hne') as Hj.
    destruct (join " " (t' :: tokens)); [congruence|]. reflexivity.
Qed.

Lemma join_lstrip tokens :
  all_words tokens -> lstrip (join " " tokens) = join " " tokens.
Proof.
  intros Hw. destruct Hw as [|t tokens [Ht Hne] _]; [reflexivity|].
  destruct tokens as [|t' tokens].
  - cbn [join]. rewrite <- (append_empty_r t).
    apply lstrip_word; assumption.
  - rewrite join_cons2. apply lstrip_word; assumption.
Qed.

End CleaningFacts.

Section NormalisationFacts.

Variable nltk : NLTK.

Lemma mapM_fixed (f : string -> result string) tokens :
  Forall (fun t => f t = Ok t) tokens -> mapM f tokens = Ok tokens.
Proof.
  induction 1 as [|t tokens Ht _ IH]; [reflexivity|].
  cbn [mapM]. rewrite Ht. cbn [bind]. rewrite IH. reflexivity.
Qed.

Lemma mapM_In (f : string -> result string) tokens out t y :
  mapM f tokens = Ok out -> In t tokens -> f t = Ok y -> In y out.
Proof.
  revert out. induction tokens as [|t' tokens IH]; intros out Hm Hin Hf;
    [destruct Hin|].
  cbn [mapM] in Hm. destruct (f t') as [y'|e] eqn:Hy'; [|discriminate Hm].
  cbn [bind] in Hm. destruct (mapM f tokens) as [ys|e]; [|discriminate Hm].
  injection Hm as <-. destruct Hin as [->|Hin].
  - left. congruence.
  - right. apply (IH ys); auto.
Qed.

Lemma stable_tokens_words tokens :
  Forall (stable_token nltk) tokens -> all_words tokens.
Proof.
  apply Forall_impl. intros t (Haz & Hkeep & _). split; [exact Haz|].
  intros ->. unfold keep_token in Hkeep.
  rewrite andb_comm in Hkeep. discriminate Hkeep.
Qed.

(** The text of stable tokens is a fixed point of the cleaning. *)
Lemma clean_join tokens :
  all_words tokens -> url_free (join " " tokens) = true ->
  clean (join " " tokens) = join " " tokens.
Proof.
  intros Hw Hurl. pose proof (join_plain tokens Hw) as Hplain.
  unfold clean, strip, collapse_spaces.
  rewrite (plain_lower _ Hplain), (url_free_remove_urls _ Hurl).
  rewrite (plain_remove_mentions _ Hplain), (plain_remove_special _ Hplain).
  rewrite (join_collapse tokens false Hw), (join_lstrip tokens Hw).
  apply join_rstrip. exact Hw.
Qed.

(** C7, as the code has it.  Normalising a normalised text returns it
    unchanged whenever that text is made of tokens that the stages of
    the normalisation leave alone: the tokens consist of lowercase
    letters, are kept by the stop word and length filter, are their own
    lemma, the URL pattern matches nowhere in the text, and the
    tokenizer splits the text back into these tokens. *)
Theorem preprocess_text_idempotent_on_stable_text text tokens :
  preprocess_text nltk text = Ok (join " " tokens) ->
  Forall (stable_token nltk) tokens ->
  url_free (join " " tokens) = true ->
  word_tokenize nltk (join " " tokens) = Ok tokens ->
  preprocess_text nltk (PyStr (join " " tokens)) = Ok (join " " tokens).
Proof.
  intros _ Hstable Hurl Htok.
  unfold preprocess_text, processed_tokens.
  rewrite (clean_join tokens (stable_tokens_words tokens Hstable) Hurl).
  rewrite Htok. cbn [bind].
  assert (Hkeep : filter (keep_token nltk) tokens = tokens).
  { apply forallb_filter_id. apply forallb_forall.
    rewrite Forall_forall in Hstable.
    intros t Ht. apply (Hstable t Ht). }
  rewrite Hkeep, mapM_fixed; [reflexivity|].
  eapply Forall_impl; [|exact Hstable]. intros t Ht. apply Ht.
Qed.

(** The filter of [preprocess_text] drops every token of one or two
    characters, whatever the stop words are. *)
Lemma short_token_dropped token :
  String.length token <= 2 -> keep_token nltk token = false.
Proof.
  intros Hlen. unfold keep_token.
  destruct (Nat.ltb_spec 2 (String.length token)); [lia|].
  apply andb_false_r.
Qed.

Lemma mem_set_diff w a b : mem w (set_diff a b) = mem w a && negb (mem w b).
Proof.
  unfold set_diff. induction a as [|x a IH]; [reflexivity|].
  cbn [filter]. destruct (mem x b) eqn:Hx; cbn [negb mem existsb].
  - fold (mem w (filter (fun w0 => negb (mem w0 b)) a)). rewrite IH.
    fold (mem w a).
    destruct (String.eqb_spec w x) as [->|_]; [|reflexivity].
    rewrite Hx. cbn. rewrite andb_false_r. reflexivity.
  - fold (mem w (filter (fun w0 => negb (mem w0 b)) a)). rewrite IH.
    fold (mem w a).
    destruct (String.eqb_spec w x) as [->|_]; [|reflexivity].
    rewrite Hx. reflexivity.
Qed.

(** When the stop words were installed at start-up, a negation word of
    more than two characters that the tokenizer finds is kept, and its
    lemma is in the output. *)
Lemma negation_word_kept words s tokens out w y :
  stopwords_words nltk = Ok words ->
  word_tokenize nltk (clean s) = Ok tokens ->
  processed_tokens nltk s = Ok out ->
  In w EMOTION_WORDS -> w <> "no" -> In w tokens ->
  lemmatize nltk w = Ok y ->
  In y out.
Proof.
  intros Hinit Htok Hout Hw Hno Hin Hlem.
  unfold processed_tokens in Hout. rewrite Htok in Hout. cbn [bind] in Hout.
  apply (mapM_In _ _ _ w y Hout); [|exact Hlem].
  apply filter_In. split; [exact Hin|].
  unfold keep_token, stop_words. rewrite Hinit, mem_set_diff.
  apply mem_In in Hw as Hmem. rewrite Hmem. rewrite andb_false_r.
  cbn [negb andb].
  cbn [EMOTION_WORDS In] in Hw.
  repeat (destruct Hw as [<-|Hw]; [try reflexivity; congruence|]).
  destruct Hw.
Qed.

End NormalisationFacts.

(** ** The claims on examples *)

(** C1.  "no" belongs to [EMOTION_WORDS], yet the filter of
    [preprocess_text] never keeps it, because it has two characters:
    "I have no money" is normalised to "money".  And when the stop words
    had to be downloaded at start-up, [EMOTION_WORDS] was not taken out
    of them: "I am not happy today" then loses its "not". *)
Theorem negation_no_is_dropped :
  In "no" EMOTION_WORDS
  /\ (forall nltk tokens, mem "no" (filter (keep_token nltk) tokens) = false)
  /\ preprocess_text Sample.nltk (PyStr "I have no money") = Ok "money"
  /\ preprocess_text Sample.nltk (PyStr "I am not happy today")
     = Ok "not happy today"
  /\ preprocess_text Sample.nltk_downloaded (PyStr "I am not happy today")
     = Ok "happy today".
Proof.
  split; [right; left; reflexivity|].
  split; [|repeat split].
  intros nltk tokens. induction tokens as [|t tokens IH]; [reflexivity|].
  cbn [filter]. destruct (keep_token nltk t) eqn:Hk; [|exact IH].
  cbn [mem existsb]. fold (mem "no" (filter (keep_token nltk) tokens)).
  rewrite IH, orb_false_r.
  destruct (String.eqb_spec "no" t) as [<-|_]; [|reflexivity].
  rewrite short_token_dropped in Hk; [discriminate Hk|].
  apply le_n.
Qed.

(** The probability 0.40055 times 100 is the float
    40.05499999999999971..., so the confidence reported is 40.05; and
    0.29945 is listed as 29.95. *)
Lemma predict_confidence_and_ranking_witness :
  exists r t,
    predict Sample.nltk SampleModel.self (PyStr "I feel gloomy")
    = (Success r, t)
    /\ emotion r = "sadness"
    /\ confidence r = float (4005 # 100)
    /\ all_probabilities r
       = [("sadness", float (4005 # 100)); ("anger", 30%Q);
          ("happiness", float (2995 # 100))]
    /\ non_increasing (all_probabilities r).
Proof.
  eexists. eexists. split; [reflexivity|].
  destruct (predict_confidence_and_ranking
              Sample.nltk SampleModel.self
              (PyStr "I feel gloomy") _ _ eq_refl)
    as (p & v & conf & dist & ranking & _ & _ & _ & _ & _ & _ & _ & _ & _ & _
        & Hsorted).
  split; [reflexivity|].
  split; [vm_compute; reflexivity|].
  split; [vm_compute; reflexivity|exact Hsorted].
Defined.

Lemma predict_empty_after_preprocessing_witness :
  predict Sample.nltk SampleModel.self
          (PyStr "http://x.com #tag @mention !!! 123")
  = (Failure "Text is empty after preprocessing", []).
Proof.
  apply (predict_empty_after_preprocessing Sample.nltk SampleModel.self).
  right. left. reflexivity.
Defined.

Lemma predict_batch_in_order_witness :
  fst (predict_batch Sample.nltk SampleModel.self SampleModel.type_error
         (Ok (PyDict SampleModel.batch)))
  = (Batch 3
       [fst (predict Sample.nltk SampleModel.self (PyStr "I am so happy"));
        fst (predict Sample.nltk SampleModel.self (PyStr "no"));
        fst (predict Sample.nltk SampleModel.self (PyNum 3))],
     200).
Proof.
  destruct (predict_batch_in_order
              Sample.nltk SampleModel.self SampleModel.type_error
              SampleModel.batch _ eq_refl) as [Hsmall _].
  destruct Hsmall as (Hrun & _ & _).
  - cbn. lia.
  - rewrite Hrun. reflexivity.
Defined.

Lemma record_keeps_latest_100_witness :
  record (SampleModel.entry "new") (repeat (SampleModel.entry "old") 100)
  = SampleModel.entry "new" :: repeat (SampleModel.entry "old") 99.
Proof.
  destruct (record_keeps_latest_100
              (SampleModel.entry "new") (repeat (SampleModel.entry "old") 100))
    as (_ & _ & Hfull & _).
  - rewrite repeat_length. apply le_n.
  - rewrite Hfull; [reflexivity|]. apply repeat_length.
Defined.

(** The confidences 50.0, 50.01 and 50.01 (the float nearest to 50.01)
    have a mean of 50.0066..., computed exactly or in floating point,
    and the average confidence reported is 50.01. *)
Lemma average_confidence_not_the_mean :
  exists s t,
    analyze_conversation Sample.nltk SampleModel.self SampleModel.type_error
      (Ok (PyDict (SampleModel.conversation SampleModel.three_messages)))
    = ((Summary s, 200), t)
    /\ map confidence
           (successes Sample.nltk SampleModel.self SampleModel.three_messages)
       = [50%Q; float (5001 # 100); float (5001 # 100)]
    /\ average_confidence s = float (5001 # 100)
    /\ (mean (map confidence
                   (successes Sample.nltk SampleModel.self
                              SampleModel.three_messages))
        < 50007 # 1000)%Q
    /\ (float_mean (map confidence
                         (successes Sample.nltk SampleModel.self
                                    SampleModel.three_messages))
        < 50007 # 1000)%Q
    /\ (50009 # 1000 < average_confidence s)%Q
    /\ ~ (average_confidence s
          == mean (map confidence
                       (successes Sample.nltk SampleModel.self
                                  SampleModel.three_messages)))%Q
    /\ ~ (average_confidence s
          == float_mean (map confidence
                             (successes Sample.nltk SampleModel.self
                                        SampleModel.three_messages)))%Q.
Proof.
  eexists. eexists. split; [reflexivity|].
  split; [vm_compute; reflexivity|].
  split; [vm_compute; reflexivity|].
  split; [vm_compute; reflexivity|].
  split; [vm_compute; reflexivity|].
  split; [vm_compute; reflexivity|].
  split; intros H; vm_compute in H; discriminate H.
Qed.

(** With the confidences 50.0, 50.01, 50.01 and 50.0 the floating point
    mean is 50.004999999999995..., reported as 50.0. *)
Lemma analyze_conversation_dominant_and_average_witness :
  exists s t,
    analyze_conversation Sample.nltk SampleModel.self SampleModel.type_error
      (Ok (PyDict (SampleModel.conversation SampleModel.tied_messages)))
    = ((Summary s, 200), t)
    /\ emotion_distribution s = [("happiness", 2); ("anger", 2)]
    /\ dominant_emotion s = "happiness"
    /\ map confidence
           (successes Sample.nltk SampleModel.self SampleModel.tied_messages)
       = [50%Q; float (5001 # 100); float (5001 # 100); 50%Q]
    /\ average_confidence s = 50%Q
    /\ rounded2 (float_mean
                   (map confidence
                        (successes Sample.nltk SampleModel.self
                                   SampleModel.tied_messages)))
                (average_confidence s).
Proof.
  destruct (analyze_conversation_dominant_and_average
              Sample.nltk SampleModel.self SampleModel.type_error
              (SampleModel.conversation SampleModel.tied_messages)
              SampleModel.tied_messages eq_refl eq_refl)
    as (s & t & Hrun & _ & Hdist & _ & _ & Havg & Hrounded).
  exists s, t. split; [exact Hrun|].
  split; [rewrite Hdist; reflexivity|].
  vm_compute in Hrun. injection Hrun as <- _.
  split; [reflexivity|].
  split; [vm_compute; reflexivity|].
  split; [vm_compute; reflexivity|exact Hrounded].
Defined.

(** Values of [round] and of the float operations on inputs where exact
    arithmetic on the decimals would give another answer: the sum
    0 + 50.0 + 50.0 + 50.01 + 33.33 is the float 183.33999999999997...,
    its quarter is reported as 45.83; 23 of 160 is 14.37 per cent. *)
Example float_arithmetic_examples :
  py_round2 (float_mean [50; 50; float (5001 # 100); float (3333 # 100)]%Q)
  = float (4583 # 100)
  /\ percent 23 160 = float (1437 # 100)
  /\ py_round2 (float (1 # 8)) = float (12 # 100)
  /\ (fadd (float (1 # 10)) (float (2 # 10))
      == 5404319552844596 # 18014398509481984)%Q.
Proof. repeat split; vm_compute; reflexivity. Qed.

(** "w.w.w.example" is normalised to "wwwexample", in which the URL
    pattern then matches: normalising again leaves nothing. *)
Lemma preprocess_text_not_idempotent :
  exists y,
    preprocess_text Sample.nltk (PyStr "w.w.w.example") = Ok y
    /\ y = "wwwexample"
    /\ preprocess_text Sample.nltk (PyStr y) = Ok ""
    /\ preprocess_text Sample.nltk (PyStr y) <> Ok y.
Proof.
  eexists. split; [reflexivity|]. split; [reflexivity|].
  split; [reflexivity|discriminate].
Qed.

(** The lemmatiser is another cause: "ads" becomes "ad", which the
    length filter then drops. *)
Example preprocess_text_lemma_dropped :
  preprocess_text Sample.nltk (PyStr "ads") = Ok "ad"
  /\ preprocess_text Sample.nltk (PyStr "ad") = Ok "".
Proof. split; reflexivity. Qed.

Lemma preprocess_text_idempotent_on_stable_text_witness :
  preprocess_text Sample.nltk (PyStr "not happy today") = Ok "not happy today".
Proof.
  apply (preprocess_text_idempotent_on_stable_text
           Sample.nltk (PyStr "I am not happy today")
           ["not"; "happy"; "today"]).
  - reflexivity.
  - repeat constructor.
  - reflexivity.
  - reflexivity.
Defined.

Lemma predict_never_raises_witness :
  exists t,
    predict Sample.nltk SampleModel.self (PyStr "crash ahead")
    = (Failure "model crashed", t)
    /\ success (fst (predict Sample.nltk SampleModel.self (PyStr "crash ahead")))
       = false.
Proof.
  apply (predict_never_raises Sample.nltk SampleModel.self).
  apply (raises_predict _ SampleModel.self _ _ "crash ahead" "crash ahead").
  - reflexivity.
  - discriminate.
  - reflexivity.
  - reflexivity.
Defined.

Lemma predict_unknown_label_witness :
  exists r t,
    predict Sample.nltk SampleModel.self (PyStr "wow") = (Success r, t)
    /\ emotion r = "surprise"
    /\ emoji r = "❓"
    /\ color r = "#000000"
    /\ description r = "Unknown emotion"
    /\ intensity r = "unknown".
Proof.
  apply (predict_unknown_label Sample.nltk SampleModel.self
                               (PyStr "wow") "wow" "wow" "surprise").
  - repeat split; try reflexivity; try discriminate.
    cbn. eexists. eexists. reflexivity.
  - cbn. intuition discriminate.
Defined.

Lemma dominant_emoji_lookup_witness :
  exists s t,
    analyze_conversation Sample.nltk SampleModel.self SampleModel.type_error
      (Ok (PyDict (SampleModel.conversation SampleModel.surprising_messages)))
    = ((Summary s, 200), t)
    /\ dominant_emotion s = "surprise"
    /\ dominant_emoji s = "😐".
Proof.
  eexists. eexists. split; [reflexivity|]. split; [reflexivity|].
  refine (proj1 (proj2 (dominant_emoji_lookup
                          Sample.nltk SampleModel.self SampleModel.type_error
                          (Ok (PyDict (SampleModel.conversation
                                         SampleModel.surprising_messages)))
                          _ _ _ eq_refl) _)).
  cbn. intuition discriminate.
Defined.

(** Two labels with the same count: the one seen first in the
    conversation is dominant, although the other one reached that
    count earlier. *)
Example tie_goes_to_first_seen :
  map emotion (successes Sample.nltk SampleModel.self SampleModel.tied_messages)
  = ["happiness"; "anger"; "anger"; "happiness"]
  /\ max_key (fold_left bump ["happiness"; "anger"; "anger"; "happiness"] [])
     = Some "happiness".
Proof. split; reflexivity. Qed.

(** * Further properties *)

(** ** The text handed to the tokenizer *)

Section ShapeFacts.

Implicit Types (s : string) (c : ascii).

Lemma lower_char_not_AZ c : is_AZ (lower_char c) = false.
Proof.
  destruct c as [[] [] [] [] [] [] [] []]; reflexivity.
Qed.

Lemma space_not_letter c : is_space c = true -> is_az c || is_AZ c = false.
Proof.
  destruct c as [[] [] [] [] [] [] [] []]; intros H;
    solve [reflexivity | discriminate H].
Qed.

Lemma lower_no_AZ s : forall_string (fun c => negb (is_AZ c)) (lower s) = true.
Proof.
  induction s as [|c s IH]; [reflexivity|].
  unfold lower in *. cbn [map_string forall_string].
  rewrite lower_char_not_AZ, IH. reflexivity.
Qed.

(** The substitutions only delete characters. *)
Lemma sub_urls_keeps p inside s :
  forall_string p s = true -> forall_string p (sub_urls inside s) = true.
Proof.
  revert inside. induction s as [|c s IH]; intros inside H; [reflexivity|].
  cbn [forall_string] in H. apply andb_prop in H. destruct H as [Hc Hs].
  cbn [sub_urls].
  destruct ((inside && negb (is_space c)) || url_here (String c s)).
  - apply IH. exact Hs.
  - cbn [forall_string]. rewrite Hc. apply IH. exact Hs.
Qed.

Lemma sub_mentions_keeps p inside s :
  forall_string p s = true -> forall_string p (sub_mentions inside s) = true.
Proof.
  revert inside. induction s as [|c s IH]; intros inside H; [reflexivity|].
  cbn [forall_string] in H. apply andb_prop in H. destruct H as [Hc Hs].
  cbn [sub_mentions].
  destruct ((inside && is_word c) || mention_here (String c s)).
  - apply IH. exact Hs.
  - cbn [forall_string]. rewrite Hc. apply IH. exact Hs.
Qed.

Lemma remove_special_letters s :
  forall_string (fun c => negb (is_AZ c)) s = true ->
  forall_string (fun c => is_az c || is_space c) (remove_special s) = true.
Proof.
  unfold remove_special. induction s as [|c s IH]; intros H; [reflexivity|].
  cbn [forall_string] in H. apply andb_prop in H. destruct H as [Hc Hs].
  apply negb_true_iff in Hc. cbn [filter_string]. rewrite Hc, orb_false_r.
  destruct (is_az c || is_space c) eqn:Hk; [|apply IH; exact Hs].
  cbn [forall_string]. rewrite Hk. apply IH. exact Hs.
Qed.

Lemma sub_spaces_spaced prev s :
  forall_string (fun c => is_az c || is_space c) s = true ->
  spaced prev (sub_spaces prev s) = true.
Proof.
  revert prev. induction s as [|c s IH]; intros prev H; [reflexivity|].
  cbn [forall_string] in H. apply andb_prop in H. destruct H as [Hc Hs].
  cbn [sub_spaces]. destruct (is_space c) eqn:Hsp.
  - destruct prev; [apply IH; exact Hs|].
    cbn [spaced]. change (Ascii.eqb " " " ") with true. cbn [negb andb].
    apply IH. exact Hs.
  - rewrite orb_false_r in Hc. cbn [spaced].
    destruct (Ascii.eqb_spec c " ") as [->|_]; [discriminate Hsp|].
    rewrite Hc. apply IH. exact Hs.
Qed.

Lemma spaced_weaken prev s : spaced true s = true -> spaced prev s = true.
Proof.
  destruct s as [|c s]; [reflexivity|]. cbn [spaced].
  destruct (Ascii.eqb c " "); [discriminate|]. auto.
Qed.

Lemma spaced_lstrip s : spaced false s = true -> spaced true (lstrip s) = true.
Proof.
  destruct s as [|c s]; [reflexivity|]. cbn [spaced lstrip].
  destruct (Ascii.eqb_spec c " ") as [->|Hne].
  - change (is_space " ") with true. cbn [negb andb]. intros H.
    destruct s as [|d s]; [reflexivity|]. cbn [spaced lstrip] in *.
    destruct (Ascii.eqb_spec d " ") as [->|_]; [discriminate H|].
    apply andb_prop in H. destruct H as [Hd Hs].
    rewrite (az_not_space d Hd). cbn [spaced].
    destruct (Ascii.eqb_spec d " ") as [->|_]; [discriminate Hd|].
    rewrite Hd, Hs. reflexivity.
  - intros H. apply andb_prop in H. destruct H as [Hc Hs].
    rewrite (az_not_space c Hc). cbn [spaced].
    destruct (Ascii.eqb_spec c " ") as [->|_]; [congruence|].
    rewrite Hc, Hs. reflexivity.
Qed.

Lemma spaced_rstrip prev s :
  spaced prev s = true ->
  spaced prev (rstrip s) = true /\ no_trailing_space (rstrip s) = true.
Proof.
  revert prev. induction s as [|c s IH]; intros prev H; [split; reflexivity|].
  cbn [spaced] in H. cbn [rstrip].
  destruct (Ascii.eqb_spec c " ") as [->|Hne].
  - apply andb_prop in H. destruct H as [Hp Hs].
    destruct (IH true Hs) as [IH1 IH2].
    change (is_space " ") with true. cbn [andb].
    destruct (rstrip s) as [|d r] eqn:Hr; [split; reflexivity|].
    cbn [is_empty]. split.
    + cbn [spaced]. change (Ascii.eqb " " " ") with true. rewrite Hp. exact IH1.
    + exact IH2.
  - apply andb_prop in H. destruct H as [Hc Hs].
    destruct (IH false Hs) as [IH1 IH2].
    rewrite (az_not_space c Hc). cbn [andb]. split.
    + cbn [spaced]. destruct (Ascii.eqb_spec c " ") as [->|_]; [congruence|].
      rewrite Hc. exact IH1.
    + cbn [no_trailing_space]. rewrite (az_not_space c Hc).
      destruct (rstrip s); [reflexivity|exact IH2].
Qed.

Lemma words_of_not_nil s : words_of s <> [].
Proof.
  destruct s as [|c s]; [discriminate|]. cbn [words_of].
  destruct (Ascii.eqb c " "); [discriminate|].
  destruct (words_of s); discriminate.
Qed.

(** Joining the pieces with spaces gives the text back. *)
Lemma join_words_of s : join " " (words_of s) = s.
Proof.
  induction s as [|c s IH]; [reflexivity|].
  pose proof (words_of_not_nil s) as Hnil.
  cbn [words_of]. destruct (words_of s) as [|w ws]; [congruence|].
  destruct (Ascii.eqb_spec c " ") as [->|Hne].
  - rewrite join_cons2, IH. reflexivity.
  - destruct ws as [|w' ws].
    + cbn [join] in *. rewrite IH. reflexivity.
    + rewrite join_cons2 in *. cbn [append] in *. rewrite IH. reflexivity.
Qed.

(** The pieces of a text in which no space is next to a space, and
    none is last: a first piece of letters, empty when the text is empty
    or starts with a space, and then words. *)
Lemma words_of_spaced prev s :
  spaced prev s = true -> no_trailing_space s = true ->
  exists w ws,
    words_of s = w :: ws
    /\ forall_string is_az w = true
    /\ all_words ws
    /\ (w = "" -> s = "" \/ exists s', s = String " " s').
Proof.
  revert prev. induction s as [|c s IH]; intros prev Hs Ht.
  - exists "", []. repeat split; auto. constructor.
  - cbn [spaced] in Hs. cbn [words_of].
    assert (Ht' : no_trailing_space s = true).
    { destruct s as [|d s]; [reflexivity|exact Ht]. }
    destruct (Ascii.eqb_spec c " ") as [->|Hne].
    + apply andb_prop in Hs. destruct Hs as [_ Hs].
      destruct (IH true Hs Ht') as (w & ws & Hw & Haz & Hws & Hempty).
      exists "", (words_of s). repeat split; auto.
      * rewrite Hw. constructor; [|exact Hws]. split; [exact Haz|].
        intros ->. destruct (Hempty eq_refl) as [->|[s' ->]].
        -- discriminate Ht.
        -- discriminate Hs.
      * intros _. right. exists s. reflexivity.
    + apply andb_prop in Hs. destruct Hs as [Hc Hs].
      destruct (IH false Hs Ht') as (w & ws & Hw & Haz & Hws & _).
      rewrite Hw. exists (String c w), ws. repeat split; auto.
      * cbn [forall_string]. rewrite Hc, Haz. reflexivity.
      * discriminate.
Qed.

(** X1.  Whatever the input, the text that [preprocess_text] hands to
    the tokenizer is a sequence of words joined by single spaces, each
    word made of lowercase letters: no other character, no space at
    either end and no two spaces in a row are left. *)
Theorem clean_is_words s :
  exists tokens, all_words tokens /\ clean s = join " " tokens.
Proof.
  unfold clean, strip, collapse_spaces.
  set (x := remove_special (remove_mentions (remove_urls (lower s)))).
  assert (Hx : forall_string (fun c => is_az c || is_space c) x = true).
  { apply remove_special_letters. apply sub_mentions_keeps.
    apply sub_urls_keeps. apply lower_no_AZ. }
  pose proof (sub_spaces_spaced false x Hx) as Hy.
  apply spaced_lstrip in Hy.
  destruct (spaced_rstrip true _ Hy) as [Hz Ht].
  set (z := rstrip (lstrip (sub_spaces false x))) in *.
  destruct (words_of_spaced true z Hz Ht) as (w & ws & Hw & Haz & Hws & Hempty).
  destruct w as [|c w].
  - destruct (Hempty eq_refl) as [Hzero|[s' Hsp]].
    + exists []. split; [constructor|]. rewrite Hzero. reflexivity.
    + rewrite Hsp in Hz. discriminate Hz.
  - exists (String c w :: ws). split.
    + constructor; [|exact Hws]. split; [exact Haz|discriminate].
    + rewrite <- Hw. symmetry. apply join_words_of.
Qed.

End ShapeFacts.

(** ** The deletions of URLs and mentions *)

Section DeletionFacts.

Implicit Types (s p : string) (c d : ascii).

Lemma url_here_space c s : is_space c = true -> url_here (String c s) = false.
Proof.
  intros Hc. unfold url_here, lit_nonspace. cbn [after].
  destruct (Ascii.eqb_spec "h" c) as [<-|_]; [discriminate Hc|].
  destruct (Ascii.eqb_spec "w" c) as [<-|_]; [discriminate Hc|].
  reflexivity.
Qed.

(** What is left after a match starts with white space. *)
Lemma sub_urls_inside_head s : head_is is_space (sub_urls true s) = true.
Proof.
  induction s as [|c s IH]; [reflexivity|].
  cbn [sub_urls andb]. destruct (is_space c) eqn:Hc; cbn [negb orb].
  - rewrite (url_here_space c s Hc). exact Hc.
  - exact IH.
Qed.

(** A first character that is not white space was the first character
    before the deletion, where no match started. *)
Lemma sub_urls_head s d o :
  sub_urls false s = String d o -> is_space d = false ->
  exists s', s = String d s' /\ url_here s = false /\ o = sub_urls false s'.
Proof.
  destruct s as [|c s]; [discriminate|]. cbn [sub_urls andb orb].
  destruct (url_here (String c s)) eqn:Hu.
  - intros H Hd. pose proof (sub_urls_inside_head s) as Hh.
    rewrite H in Hh. cbn [head_is] in Hh. congruence.
  - intros H _. injection H as <- <-. exists s. auto.
Qed.

Lemma after_sub_urls p s d r :
  forall_string (fun c => negb (is_space c)) p = true ->
  after p (sub_urls false s) = Some (String d r) -> is_space d = false ->
  exists r', after p s = Some (String d r').
Proof.
  revert s. induction p as [|a p IH]; intros s Hp Ha Hd.
  - cbn [after] in *. injection Ha as Ha.
    destruct (sub_urls_head s d r Ha Hd) as (s' & -> & _ & _).
    exists s'. reflexivity.
  - cbn [forall_string] in Hp. apply andb_prop in Hp. destruct Hp as [Hna Hp].
    apply negb_true_iff in Hna. cbn [after] in Ha.
    destruct (sub_urls false s) as [|b o] eqn:Ho; [discriminate Ha|].
    destruct (Ascii.eqb_spec a b) as [<-|_]; [|discriminate Ha].
    destruct (sub_urls_head s a o Ho Hna) as (s' & -> & _ & ->).
    cbn [after]. rewrite Ascii.eqb_refl. apply (IH s' Hp Ha Hd).
Qed.

Lemma lit_nonspace_sub_urls p s :
  forall_string (fun c => negb (is_space c)) p = true ->
  lit_nonspace p (sub_urls false s) = true -> lit_nonspace p s = true.
Proof.
  intros Hp. unfold lit_nonspace.
  destruct (after p (sub_urls false s)) as [[|d r]|] eqn:Ha; try discriminate.
  intros Hd. apply negb_true_iff in Hd.
  destruct (after_sub_urls p s d r Hp Ha Hd) as (r' & ->).
  rewrite Hd. reflexivity.
Qed.

Lemma url_here_sub_urls s : url_here (sub_urls false s) = false.
Proof.
  destruct (url_here (sub_urls false s)) eqn:Hu; [|reflexivity].
  assert (Hs : url_here s = true).
  { unfold url_here in *. apply orb_prop in Hu. destruct Hu as [Hu|Hu].
    - apply orb_prop in Hu. destruct Hu as [Hu|Hu].
      + rewrite (lit_nonspace_sub_urls "http" s eq_refl Hu). reflexivity.
      + rewrite (lit_nonspace_sub_urls "www" s eq_refl Hu).
        apply orb_true_iff. left. apply orb_true_r.
    - rewrite (lit_nonspace_sub_urls "https" s eq_refl Hu). apply orb_true_r. }
  destruct s as [|c s]; [discriminate Hs|].
  cbn [sub_urls andb orb] in Hu. rewrite Hs in Hu.
  pose proof (sub_urls_inside_head s) as Hh.
  destruct (sub_urls true s) as [|d o]; [discriminate Hu|].
  cbn [head_is] in Hh. rewrite (url_here_space d o Hh) in Hu. discriminate Hu.
Qed.

Lemma sub_urls_url_free inside s : url_free (sub_urls inside s) = true.
Proof.
  revert inside. induction s as [|c s IH]; intros inside; [reflexivity|].
  cbn [sub_urls].
  destruct ((inside && negb (is_space c)) || url_here (String c s)) eqn:Hk;
    [apply IH|].
  apply orb_false_iff in Hk. destruct Hk as [_ Hu].
  cbn [url_free]. rewrite IH, andb_true_r. apply negb_true_iff.
  pose proof (url_here_sub_urls (String c s)) as H.
  cbn [sub_urls andb orb] in H. rewrite Hu in H. exact H.
Qed.

(** X2.  After the deletion of URLs the URL pattern matches nowhere in
    the text, so deleting URLs a second time changes nothing. *)
Theorem remove_urls_leaves_no_url s :
  url_free (remove_urls s) = true
  /\ remove_urls (remove_urls s) = remove_urls s.
Proof.
  assert (H : url_free (remove_urls s) = true)
    by apply sub_urls_url_free.
  split; [exact H|]. apply url_free_remove_urls. exact H.
Qed.

(** What is left after a mention starts with a character that is not
    a word character. *)
Lemma sub_mentions_inside_head s :
  head_is (fun c => negb (is_word c)) (sub_mentions true s) = true.
Proof.
  induction s as [|c s IH]; [reflexivity|].
  cbn [sub_mentions andb]. destruct (is_word c) eqn:Hc; cbn [orb]; [exact IH|].
  destruct (mention_here (String c s)); [exact IH|].
  cbn [head_is]. rewrite Hc. reflexivity.
Qed.

Lemma sub_mentions_head s d o :
  sub_mentions false s = String d o -> is_word d = true ->
  exists s', s = String d s'.
Proof.
  destruct s as [|c s]; [discriminate|]. cbn [sub_mentions andb orb].
  destruct (mention_here (String c s)).
  - intros H Hd. pose proof (sub_mentions_inside_head s) as Hh.
    rewrite H in Hh. cbn [head_is] in Hh. rewrite Hd in Hh. discriminate Hh.
  - intros H _. injection H as <- _. exists s. reflexivity.
Qed.

Lemma mention_here_kept c s :
  mention_here (String c s) = false ->
  mention_here (String c (sub_mentions false s)) = false.
Proof.
  intros H. unfold mention_here in *.
  destruct (sub_mentions false s) as [|d o] eqn:Ho; [reflexivity|].
  destruct (Ascii.eqb c "@" || Ascii.eqb c "#"); [|reflexivity].
  cbn [andb] in *. destruct (is_word d) eqn:Hd; [|reflexivity].
  destruct (sub_mentions_head s d o Ho Hd) as (s' & ->).
  rewrite Hd in H. discriminate H.
Qed.

Lemma sub_mentions_mention_free inside s :
  mention_free (sub_mentions inside s) = true.
Proof.
  revert inside. induction s as [|c s IH]; intros inside; [reflexivity|].
  cbn [sub_mentions].
  destruct ((inside && is_word c) || mention_here (String c s)) eqn:Hk;
    [apply IH|].
  apply orb_false_iff in Hk. destruct Hk as [_ Hm].
  cbn [mention_free]. rewrite IH, andb_true_r. apply negb_true_iff.
  apply mention_here_kept. exact Hm.
Qed.

Lemma mention_free_remove_mentions s :
  mention_free s = true -> remove_mentions s = s.
Proof.
  unfold remove_mentions. induction s as [|c s IH]; [reflexivity|].
  cbn [mention_free]. intros H. apply andb_prop in H. destruct H as [Hc Hs].
  apply negb_true_iff in Hc.
  cbn [sub_mentions]. rewrite Hc. cbn [andb orb]. rewrite (IH Hs). reflexivity.
Qed.

(** X3.  After the deletion of mentions and hashtags no [@word] or
    [#word] is left in the text, so deleting them a second time changes
    nothing. *)
Theorem remove_mentions_leaves_no_mention s :
  mention_free (remove_mentions s) = true
  /\ remove_mentions (remove_mentions s) = remove_mentions s.
Proof.
  assert (H : mention_free (remove_mentions s) = true)
    by apply sub_mentions_mention_free.
  split; [exact H|]. apply mention_free_remove_mentions. exact H.
Qed.

End DeletionFacts.

(** ** What a prediction contains *)

Section PredictionFacts.

Variable nltk : NLTK.
Variable self : Predictor.

(** The probability block, once it has returned. *)
Lemma probabilities_of_inv label v cp t :
  probabilities_of self label v = (Ok cp, t) ->
  match model_predict_proba self with
  | Some predict_proba =>
      exists probabilities,
        predict_proba v = Ok probabilities
        /\ In (fst cp) probabilities
        /\ (forall q, In q probabilities -> (q <= fst cp)%Q)
        /\ snd cp
           = sorted_desc (dict_of (combine (classes_ self) probabilities))
        /\ t = [PredictProba]
  | None => cp = (1%Q, [(label, 1%Q)]) /\ t = []
  end.
Proof.
  unfold probabilities_of.
  destruct (model_predict_proba self) as [f|].
  - destruct (f v) as [probs|e] eqn:Hf; [|discriminate].
    unfold invoke, tbind at 1.
    destruct (py_max probs) as [conf|e] eqn:Hmax; [|discriminate].
    cbn. intros H. injection H as <- <-.
    destruct (py_max_largest probs conf Hmax) as [Hin Hall].
    exists probs. cbn [fst snd]. repeat split; auto.
    apply dict_of_distinct. apply sorted_desc_keys. apply dict_of_NoDup.
  - cbn. intros H. injection H as <- <-. split; reflexivity.
Qed.

Lemma in_fold_set {V} (items d : list (string * V)) kv :
  In kv (fold_left (fun d kv => dict_set (fst kv) (snd kv) d) items d) ->
  In kv d \/ In kv items.
Proof.
  revert d. induction items as [|[k v] items IH]; intros d H; [left; exact H|].
  cbn [fold_left fst snd] in H. apply IH in H. destruct H as [H|H].
  - assert (Hset : forall d', In kv (dict_set k v d') -> In kv d' \/ kv = (k, v)).
    { clear. induction d' as [|[k' v'] d' IH]; cbn [dict_set].
      - intros [<-|[]]. right. reflexivity.
      - destruct (String.eqb k k').
        + intros [<-|H]; [right; reflexivity|left; right; exact H].
        + intros [<-|H]; [left; left; reflexivity|].
          destruct (IH H) as [H'|H']; [left; right; exact H'|right; exact H']. }
    destruct (Hset d H) as [H'| ->]; [left; exact H'|right; left; reflexivity].
  - right. right. exact H.
Qed.

(** A [dict] holds only items it was given. *)
Lemma in_dict_of {V} (items : list (string * V)) kv :
  In kv (dict_of items) -> In kv items.
Proof.
  intros H. apply in_fold_set in H. destruct H as [[]|H]. exact H.
Qed.

Lemma in_scaled items k x :
  In (k, x) (scaled items) ->
  exists v, In (k, v) items /\ x = py_round2 (fmul v 100).
Proof.
  unfold scaled. rewrite in_map_iff. intros ([k' v] & Heq & Hin).
  cbn [fst snd] in Heq. injection Heq as -> <-. exists v. auto.
Qed.

(** The items returned come from the distribution of the classifier. *)
Lemma all_probabilities_origin text r t :
  predict nltk self text = (Success r, t) ->
  exists conf dist,
    confidence r = py_round2 (fmul conf 100)
    /\ all_probabilities r = scaled (firstn 5 (sorted_desc dist))
    /\ NoDup (keys dist)
    /\ match model_predict_proba self with
       | Some predict_proba =>
           exists v probabilities,
             predict_proba v = Ok probabilities
             /\ In conf probabilities
             /\ (forall q, In q probabilities -> (q <= conf)%Q)
             /\ forall k q, In (k, q) dist -> In q probabilities
       | None => conf = 1%Q /\ dist = [(emotion r, 1%Q)]
       end.
Proof.
  intros H.
  destruct (predict_success_inv nltk self text r t H)
    as (p & v & label & cp & t' & _ & _ & _ & _ & Hcp & He & Hc & Ha).
  apply probabilities_of_inv in Hcp.
  destruct (model_predict_proba self) as [f|].
  - destruct Hcp as (probs & Hf & Hin & Hall & Hsnd & _).
    exists (fst cp), (dict_of (combine (classes_ self) probs)).
    split; [exact Hc|]. split.
    + rewrite Ha, Hsnd. apply dict_of_distinct. rewrite scaled_keys.
      apply firstn_keys. apply sorted_desc_keys. apply dict_of_NoDup.
    + split; [apply dict_of_NoDup|].
      exists v, probs. repeat split; auto.
      intros k q Hq. apply in_dict_of in Hq.
      apply in_combine_r in Hq. exact Hq.
  - destruct Hcp as [-> _]. cbn [fst snd] in *.
    exists 1%Q, [(emotion r, 1%Q)]. rewrite He.
    split; [exact Hc|]. split; [rewrite Ha; reflexivity|].
    split; [repeat constructor; intros []|]. split; reflexivity.
Qed.

(** X4.  A successful prediction lists at most 5 probabilities, at most
    one per label, and none of them exceeds the confidence. *)
Theorem all_probabilities_bounded text r t :
  predict nltk self text = (Success r, t) ->
  length (all_probabilities r) <= 5
  /\ NoDup (keys (all_probabilities r))
  /\ forall k x, In (k, x) (all_probabilities r) -> (x <= confidence r)%Q.
Proof.
  intros H.
  destruct (all_probabilities_origin text r t H)
    as (conf & dist & Hc & Ha & Hnd & Hmodel).
  rewrite Ha, Hc. split; [|split].
  - unfold scaled. rewrite length_map, length_firstn. apply Nat.le_min_l.
  - rewrite scaled_keys. apply firstn_keys. apply sorted_desc_keys. exact Hnd.
  - intros k x Hx. apply in_scaled in Hx. destruct Hx as (q & Hq & ->).
    apply percent_mono.
    assert (Hd : In (k, q) dist).
    { apply (Permutation_in _ (Permutation_sym (sorted_desc_perm dist))).
      rewrite <- (firstn_skipn 5 (sorted_desc dist)).
      apply in_or_app. left. exact Hq. }
    destruct (model_predict_proba self) as [f|].
    + destruct Hmodel as (v & probs & _ & _ & Hall & Hvalues).
      apply Hall. apply (Hvalues k q Hd).
    + destruct Hmodel as [-> ->]. destruct Hd as [Hd|[]].
      injection Hd as _ <-. apply Qle_refl.
Qed.

(** X5.  When every probability the model gives lies between 0 and 1,
    the confidence of a successful prediction and the percentages it
    lists lie between 0 and 100. *)
Theorem confidence_in_range text r t :
  (forall predict_proba v probabilities q,
     model_predict_proba self = Some predict_proba ->
     predict_proba v = Ok probabilities -> In q probabilities ->
     (0 <= q <= 1)%Q) ->
  predict nltk self text = (Success r, t) ->
  (0 <= confidence r <= 100)%Q
  /\ forall k x, In (k, x) (all_probabilities r) -> (0 <= x <= 100)%Q.
Proof.
  intros Hrange H.
  destruct (all_probabilities_origin text r t H)
    as (conf & dist & Hc & Ha & Hnd & Hmodel).
  assert (Hpct : forall q, (0 <= q <= 1)%Q ->
                           (0 <= py_round2 (fmul q 100) <= 100)%Q).
  { intros q [H0 H1]. split.
    - rewrite <- percent_0 at 1. apply percent_mono. exact H0.
    - rewrite <- percent_1 at 2. apply percent_mono. exact H1. }
  assert (Hconf : (0 <= conf <= 1)%Q).
  { destruct (model_predict_proba self) as [f|] eqn:Hf.
    - destruct Hmodel as (v & probs & Hv & Hin & _ & _).
      apply (Hrange f v probs conf eq_refl Hv Hin).
    - destruct Hmodel as [-> _]. split; discriminate. }
  split; [rewrite Hc; apply Hpct; exact Hconf|].
  intros k x Hx. rewrite Ha in Hx. apply in_scaled in Hx.
  destruct Hx as (q & Hq & ->). apply Hpct.
  assert (Hd : In (k, q) dist).
  { apply (Permutation_in _ (Permutation_sym (sorted_desc_perm dist))).
    rewrite <- (firstn_skipn 5 (sorted_desc dist)).
    apply in_or_app. left. exact Hq. }
  destruct (model_predict_proba self) as [f|] eqn:Hf.
  - destruct Hmodel as (v & probs & Hv & _ & _ & Hvalues).
    apply (Hrange f v probs q eq_refl Hv). apply (Hvalues k q Hd).
  - destruct Hmodel as [_ ->]. destruct Hd as [Hd|[]].
    injection Hd as _ <-. split; discriminate.
Qed.

(** X6.  [predict] calls the vectoriser at most once, only with a
    normalised text that is not empty, and calls the model only after
    the vectoriser has returned: the calls it makes are a beginning of
    "transform, predict, predict_proba", and all of them (the last one
    only if the model has [predict_proba]) when it succeeds. *)
Theorem predict_calls text r t :
  predict nltk self text = (r, t) ->
  (t = [] /\ success r = false)
  \/ exists p,
       preprocess_text nltk text = Ok p /\ p <> ""
       /\ ((success r = false
            /\ (t = [Transform p] \/ t = [Transform p; Predict]
                \/ t = [Transform p; Predict; PredictProba]))
           \/ (success r = true
               /\ t = [Transform p; Predict]
                      ++ match model_predict_proba self with
                         | Some _ => [PredictProba]
                         | None => []
                         end)).
Proof.
  destruct (preprocess_text nltk text) as [p|e] eqn:Hp.
  2:{ unfold predict, predict_body. rewrite Hp. cbn.
      intros H. injection H as <- <-. left. split; reflexivity. }
  destruct (is_empty p) eqn:Hemp.
  { unfold predict, predict_body. rewrite Hp. unfold pure, tbind.
    rewrite Hemp. cbn. intros H. injection H as <- <-.
    left. split; reflexivity. }
  assert (Hne : p <> "") by (intros ->; discriminate).
  intros H. right. exists p. split; [reflexivity|]. split; [exact Hne|].
  destruct (transform self p) as [v|e] eqn:Hv.
  2:{ unfold predict, predict_body in H. rewrite Hp in H.
      unfold pure, tbind at 1 in H. rewrite Hemp, Hv in H. cbn in H.
      injection H as <- <-. left. split; [reflexivity|]. left. reflexivity. }
  destruct (model_predict self v) as [label|e] eqn:Hl.
  2:{ unfold predict, predict_body in H. rewrite Hp in H.
      unfold pure, tbind at 1 in H. rewrite Hemp, Hv in H.
      unfold invoke at 1, tbind at 1 in H. rewrite Hl in H. cbn in H.
      injection H as <- <-. left. split; [reflexivity|].
      right. left. reflexivity. }
  rewrite (predict_after_label nltk self text p v label Hp Hne Hv Hl) in H.
  destruct (probabilities_of self label v) as [[cp|e] t'] eqn:Hcp.
  - injection H as <- <-. right. split; [reflexivity|].
    apply probabilities_of_inv in Hcp.
    destruct (model_predict_proba self) as [f|].
    + destruct Hcp as (probs & _ & _ & _ & _ & ->). reflexivity.
    + destruct Hcp as [_ ->]. reflexivity.
  - injection H as <- <-. left. split; [reflexivity|].
    unfold probabilities_of in Hcp.
    destruct (model_predict_proba self) as [f|]; [|discriminate Hcp].
    right. right. destruct (f v) as [probs|e'].
    + unfold invoke, tbind at 1 in Hcp.
      destruct (py_max probs); [discriminate Hcp|].
      cbn in Hcp. injection Hcp as _ <-. reflexivity.
    + cbn in Hcp. injection Hcp as _ <-. reflexivity.
Qed.

(** X7.  A successful prediction is only returned for a string: it
    carries that string as [original_text], its non-empty normalisation
    as [processed_text], the label the model predicted for it as
    [emotion], and the emoji, color, description and intensity that
    [EMOTION_CONFIG] gives for a label it knows. *)
Theorem success_fields text r t :
  predict nltk self text = (Success r, t) ->
  exists s v,
    text = PyStr s
    /\ original_text r = PyStr s
    /\ preprocess_text nltk (PyStr s) = Ok (processed_text r)
    /\ processed_text r <> ""
    /\ transform self (processed_text r) = Ok v
    /\ model_predict self v = Ok (emotion r)
    /\ forall details,
         dict_get (emotion r) EMOTION_CONFIG = Some details ->
         emoji r = d_emoji details /\ color r = d_color details
         /\ description r = d_description details
         /\ intensity r = d_intensity details.
Proof.
  intros H.
  destruct (predict_success_inv nltk self text r t H)
    as (p & v & label & cp & t' & Hp & Hne & Hv & Hl & Hcp & _).
  rewrite (predict_after_label nltk self text p v label Hp Hne Hv Hl) in H.
  rewrite Hcp in H. injection H as <- _. cbn.
  destruct text as [| | |s| |]; try (cbn in Hp; congruence).
  exists s, v. repeat split; auto; rewrite H; reflexivity.
Qed.

(** X8.  With a model that has no [predict_proba], every successful
    prediction has the confidence 100 and lists the predicted label
    alone, with 100. *)
Theorem success_without_probabilities text r t :
  model_predict_proba self = None ->
  predict nltk self text = (Success r, t) ->
  (confidence r == 100)%Q
  /\ exists x, all_probabilities r = [(emotion r, x)] /\ (x == 100)%Q.
Proof.
  intros Hnone H.
  destruct (all_probabilities_origin text r t H)
    as (conf & dist & Hc & Ha & _ & Hmodel).
  rewrite Hnone in Hmodel. destruct Hmodel as [-> ->].
  rewrite Hc, Ha. split; [reflexivity|].
  eexists. split; reflexivity.
Qed.

End PredictionFacts.

(** ** The prediction endpoint and the history *)

Section PredictEmotionFacts.

Variable nltk : NLTK.
Variable self : Predictor.
Variable type_error : string -> pyval -> exn.

(** The three ways [predict_emotion] ends: a refusal (400), an
    exception before any prediction (500), or the answer of [predict]
    on the stripped text (200). *)
Lemma predict_emotion_cases request uuid now h :
  (exists e status,
     predict_emotion nltk self type_error request uuid now h
     = (((Error e, status), h), [])
     /\ (status = 400 \/ status = 500))
  \/ exists data raw save result t,
       request = Ok data
       /\ truthy data = true
       /\ py_get type_error data "text" (PyStr "") = Ok (PyStr raw)
       /\ py_get type_error data "save_history" (PyBool true) = Ok save
       /\ strip raw <> ""
       /\ String.length (strip raw) <= 1000
       /\ predict nltk self (PyStr (strip raw)) = (result, t)
       /\ predict_emotion nltk self type_error request uuid now h
          = (((Single result, 200),
              match result with
              | Success p =>
                  if truthy save
                  then record {| h_id := uuid;
                                 h_timestamp := now;
                                 h_original_text := strip raw;
                                 h_emotion := emotion p;
                                 h_confidence := confidence p;
                                 h_emoji := emoji p |} h
                  else h
              | Failure _ => h
              end), t).
Proof.
  unfold predict_emotion, predict_emotion_body, call_predict.
  unfold tbind, pure, ret.
  destruct request as [data|e]; [|left; eexists; eexists; split; [reflexivity|auto]].
  destruct (truthy data) eqn:Htruthy; cbn [negb];
    [|left; eexists; eexists; split; [reflexivity|auto]].
  destruct (py_get type_error data "text" (PyStr "")) as [rawv|e] eqn:Hraw;
    [|left; eexists; eexists; split; [reflexivity|auto]].
  cbn [bind].
  destruct rawv as [| | |raw| |];
    try (left; eexists; eexists; split; [reflexivity|auto]).
  cbn [py_strip].
  destruct (py_get type_error data "save_history" (PyBool true)) as [save|e]
    eqn:Hsave; [|left; eexists; eexists; split; [reflexivity|auto]].
  destruct (is_empty (strip raw)) eqn:Hemp;
    [left; eexists; eexists; split; [reflexivity|auto]|].
  destruct (Nat.ltb_spec 1000 (String.length (strip raw))) as [Hlong|Hshort];
    [left; eexists; eexists; split; [reflexivity|auto]|].
  right.
  destruct (predict nltk self (PyStr (strip raw))) as [result t] eqn:Hpredict.
  exists data, raw, save, result, t.
  repeat split; auto.
  - intros Hzero. rewrite Hzero in Hemp. discriminate Hemp.
  - destruct result as [p|err]; [destruct (truthy save)|];
      cbn; rewrite ?app_nil_r; reflexivity.
Qed.

(** X9.  Whatever the request, [predict_emotion] either leaves the
    history as it is or, having answered 200 with a successful
    prediction, records one entry for it.  In that case the request is
    an object whose [text] is a string and whose [save_history] (true
    when absent) is truthy, the prediction is the one [predict] makes
    for the stripped text, and the entry carries the given identifier
    and time, the stripped text of the request, and the emotion,
    confidence and emoji of the prediction.  A failed prediction is
    never recorded. *)
Theorem predict_emotion_history_effect request uuid now h :
  let out := predict_emotion nltk self type_error request uuid now h in
  snd (fst out) = h
  \/ exists data raw save p t,
       request = Ok data
       /\ py_get type_error data "text" (PyStr "") = Ok (PyStr raw)
       /\ py_get type_error data "save_history" (PyBool true) = Ok save
       /\ truthy save = true
       /\ predict nltk self (PyStr (strip raw)) = (Success p, t)
       /\ fst (fst out) = (Single (Success p), 200)
       /\ snd (fst out)
          = record {| h_id := uuid;
                      h_timestamp := now;
                      h_original_text := strip raw;
                      h_emotion := emotion p;
                      h_confidence := confidence p;
                      h_emoji := emoji p |} h.
Proof.
  cbv zeta.
  destruct (predict_emotion_cases request uuid now h)
    as [(e & status & -> & _)
       |(data & raw & save & result & t & Hreq & _ & Hraw & Hsave & _ & _
         & Hpredict & ->)].
  - left. reflexivity.
  - destruct result as [p|err]; [|left; reflexivity].
    destruct (truthy save) eqn:Htruthy; [|left; reflexivity].
    right. exists data, raw, save, p, t. repeat split; assumption.
Qed.

(** X10.  When [predict_emotion] answers with another status than 200,
    the answer is an error message, the status is 400 or 500, the
    history is unchanged and neither the vectoriser nor the model was
    called. *)
Theorem predict_emotion_refusal request uuid now h :
  let out := predict_emotion nltk self type_error request uuid now h in
  snd (fst (fst out)) <> 200 ->
  (exists e, fst (fst (fst out)) = Error e)
  /\ (snd (fst (fst out)) = 400 \/ snd (fst (fst out)) = 500)
  /\ snd (fst out) = h
  /\ snd out = [].
Proof.
  cbv zeta.
  destruct (predict_emotion_cases request uuid now h)
    as [(e & status & -> & Hstatus)
       |(data & raw & save & result & t & _ & _ & _ & _ & _ & _ & _ & ->)].
  - intros _. cbn. repeat split; auto. exists e. reflexivity.
  - cbn. congruence.
Qed.

Lemma truthy_dict d : d <> [] -> truthy (PyDict d) = true.
Proof. destruct d; [congruence|reflexivity]. Qed.

(** X11.  For a request that is a non-empty object: a [text] that is
    missing, or blank once stripped, is refused with "Text is required",
    and a text of more than 1000 characters once stripped is refused
    too; both with status 400, the history unchanged and no call to the
    predictor. *)
Theorem predict_emotion_validation d raw uuid now h :
  d <> [] ->
  (dict_get "text" d = None /\ raw = "")
  \/ dict_get "text" d = Some (PyStr raw) ->
  (strip raw = "" ->
   predict_emotion nltk self type_error (Ok (PyDict d)) uuid now h
   = (((Error "Text is required", 400), h), []))
  /\ (1000 < String.length (strip raw) ->
      predict_emotion nltk self type_error (Ok (PyDict d)) uuid now h
      = (((Error "Text exceeds maximum length of 1000 characters", 400), h),
         [])).
Proof.
  intros Hd Htext.
  assert (Hget : py_get type_error (PyDict d) "text" (PyStr "") = Ok (PyStr raw)).
  { cbn [py_get]. destruct Htext as [[-> ->]| ->]; reflexivity. }
  unfold predict_emotion, predict_emotion_body, call_predict.
  unfold tbind, pure, ret.
  rewrite (truthy_dict d Hd), Hget. cbn [negb bind py_strip py_get].
  split.
  - intros ->. reflexivity.
  - intros Hlong.
    destruct (is_empty (strip raw)) eqn:Hemp.
    + apply is_empty_true in Hemp. rewrite Hemp in Hlong. cbn in Hlong. lia.
    + destruct (Nat.ltb_spec 1000 (String.length (strip raw))); [reflexivity|lia].
Qed.

(** X12.  For a request that is an object with a string [text] of 1 to
    1000 characters once stripped, [predict_emotion] answers with
    status 200 and what [predict] returns on the stripped text, also
    when that is a failure; the prediction is recorded exactly when it
    succeeded and [save_history] is absent or true. *)
Theorem predict_emotion_answer d raw uuid now h :
  dict_get "text" d = Some (PyStr raw) ->
  strip raw <> "" -> String.length (strip raw) <= 1000 ->
  let result := predict nltk self (PyStr (strip raw)) in
  let save :=
    match dict_get "save_history" d with
    | Some v => truthy v
    | None => true
    end in
  predict_emotion nltk self type_error (Ok (PyDict d)) uuid now h
  = (((Single (fst result), 200),
      match fst result with
      | Success p =>
          if save
          then record {| h_id := uuid;
                         h_timestamp := now;
                         h_original_text := strip raw;
                         h_emotion := emotion p;
                         h_confidence := confidence p;
                         h_emoji := emoji p |} h
          else h
      | Failure _ => h
      end), snd result).
Proof.
  intros Hget Hne Hlen. cbv zeta.
  unfold predict_emotion, predict_emotion_body, call_predict.
  unfold tbind, pure, ret.
  assert (Hd : truthy (PyDict d) = true)
    by (apply truthy_dict; intros ->; discriminate Hget).
  rewrite Hd. cbn [negb py_get]. rewrite Hget. cbn [bind py_strip].
  rewrite (is_empty_false _ Hne).
  destruct (Nat.ltb_spec 1000 (String.length (strip raw))); [lia|].
  destruct (predict nltk self (PyStr (strip raw))) as [[p|err] t]; cbn [fst snd].
  - destruct (dict_get "save_history" d) as [v|]; cbn [truthy];
      [destruct (truthy v)|]; cbn; rewrite ?app_nil_r; reflexivity.
  - cbn. rewrite ?app_nil_r. reflexivity.
Qed.

End PredictEmotionFacts.

Section HistoryListingFacts.

Implicit Types (h : list HistoryEntry) (e : HistoryEntry).

(** X13.  [get_history] answers with a beginning of the history, so the
    most recent entries in their order, and with its length as [count].
    For a limit that is not negative these are the first
    [min(limit, 100)] entries, or all when there are fewer; a negative
    limit leaves out that many of the oldest entries instead. *)
Theorem get_history_prefix (limit : Z) h :
  exists shown rest,
    get_history limit h = (History (length shown) shown, 200)
    /\ h = shown ++ rest
    /\ ((0 <= limit)%Z ->
        length shown = Nat.min (Z.to_nat (Z.min limit 100)) (length h)
        /\ length shown <= 100)
    /\ ((limit < 0)%Z -> length rest = Nat.min (Z.to_nat (- limit)) (length h)).
Proof.
  unfold get_history, slice_to.
  destruct (Z.ltb_spec (Z.min limit 100) 0) as [Hneg|Hpos].
  - exists (firstn (length h - Z.to_nat (- Z.min limit 100)) h),
           (skipn (length h - Z.to_nat (- Z.min limit 100)) h).
    split; [reflexivity|]. split; [symmetry; apply firstn_skipn|].
    split; [lia|]. intros Hlimit.
    rewrite length_skipn. rewrite Z.min_l by lia. lia.
  - exists (firstn (Z.to_nat (Z.min limit 100)) h),
           (skipn (Z.to_nat (Z.min limit 100)) h).
    split; [reflexivity|]. split; [symmetry; apply firstn_skipn|].
    split; [|lia]. intros _. rewrite length_firstn. split; [reflexivity|].
    apply Nat.min_le_iff. left. lia.
Qed.

(** X14.  Listing the history right after an entry was recorded shows
    that entry first, followed by the entries the listing showed
    before: the eviction of the oldest entry is not visible in a
    listing.  And after [clear_history] every listing is empty. *)
Theorem get_history_after_record (limit : Z) e h :
  length h <= 100 -> (0 <= limit)%Z ->
  get_history limit (record e h) = get_history limit (e :: h)
  /\ ((1 <= limit)%Z ->
      exists n shown,
        get_history limit (record e h) = (History (S n) (e :: shown), 200))
  /\ get_history limit (snd (clear_history h)) = (History 0 [], 200).
Proof.
  intros Hlen Hlimit.
  assert (Hslice : forall l : list HistoryEntry,
            slice_to (Z.min limit 100) l
            = firstn (Z.to_nat (Z.min limit 100)) l).
  { intros l. unfold slice_to.
    destruct (Z.ltb_spec (Z.min limit 100) 0); [lia|reflexivity]. }
  assert (Hsame : firstn (Z.to_nat (Z.min limit 100)) (record e h)
                  = firstn (Z.to_nat (Z.min limit 100)) (e :: h)).
  { rewrite record_firstn by exact Hlen. rewrite firstn_firstn.
    f_equal. apply Nat.min_l.
    change 100 with (Z.to_nat 100). apply Z2Nat.inj_le; lia. }
  unfold get_history. rewrite !Hslice, Hsame. split; [reflexivity|]. split.
  - intros Hone.
    destruct (Z.to_nat (Z.min limit 100)) as [|n] eqn:Hn; [lia|].
    cbn [firstn length]. eexists. eexists. reflexivity.
  - cbn [clear_history snd]. rewrite firstn_nil. reflexivity.
Qed.

End HistoryListingFacts.

(** ** The batch endpoint *)

Section BatchEndpointFacts.

Variable nltk : NLTK.
Variable self : Predictor.
Variable type_error : string -> pyval -> exn.

(** X15.  Whatever the request, [predict_batch] either answers 200 with
    at most 50 results and their number as [count], or answers with an
    error message and status 400 or 500 without having called the
    predictor. *)
Theorem predict_batch_all_or_nothing request :
  let out := predict_batch nltk self type_error request in
  (exists results,
     fst out = (Batch (length results) results, 200)
     /\ length results <= 50)
  \/ (exists e status,
        out = ((Error e, status), []) /\ (status = 400 \/ status = 500)).
Proof.
  cbv zeta. unfold predict_batch, predict_batch_body.
  unfold tbind, pure, ret.
  destruct request as [data|e];
    [|right; eexists; eexists; split; [reflexivity|auto]].
  destruct (if truthy data then py_in type_error "texts" data else Ok false)
    as [[|]|e]; cbn [negb];
    try (right; eexists; eexists; split; [reflexivity|auto]).
  destruct (py_getitem type_error data "texts") as [texts|e];
    [|right; eexists; eexists; split; [reflexivity|auto]].
  destruct texts as [| | | |texts|];
    try (right; eexists; eexists; split; [reflexivity|auto]).
  destruct (Nat.ltb_spec 50 (length texts)) as [Hlong|Hshort];
    [right; eexists; eexists; split; [reflexivity|auto]|].
  left. rewrite predict_each_map. cbn [fst].
  eexists. split; [reflexivity|].
  rewrite length_map. exact Hshort.
Qed.

End BatchEndpointFacts.

(** ** The conversation endpoint *)

Section SummaryFacts.

Variable nltk : NLTK.
Variable self : Predictor.
Variable type_error : string -> pyval -> exn.

Lemma answered_successes messages :
  map snd (answered nltk self messages) = successes nltk self messages.
Proof.
  unfold answered, successes.
  induction messages as [|msg messages IH]; [reflexivity|].
  cbn [flat_map]. rewrite map_app, IH. f_equal.
  destruct msg as [| | | | |d]; try reflexivity.
  destruct (dict_get "text" d) as [text|]; [|reflexivity].
  destruct (fst (predict nltk self text)); reflexivity.
Qed.

Lemma answered_cons msg messages :
  answered nltk self (msg :: messages)
  = answered nltk self [msg] ++ answered nltk self messages.
Proof.
  unfold answered. cbn [flat_map]. rewrite app_nil_r. reflexivity.
Qed.

(** The loop over [dict]s appends the annotated messages. *)
Lemma analyze_messages_annotated messages :
  forallb is_dict messages = true ->
  forall tally,
  exists tally',
    analyze_messages nltk self type_error tally messages
    = (Ok tally', conversation_trace nltk self messages)
    /\ t_analyzed_messages tally'
       = t_analyzed_messages tally
         ++ map (fun dp => annotate (fst dp) (snd dp))
                (answered nltk self messages).
Proof.
  induction messages as [|msg messages IH]; intros Hall tally.
  - exists tally. cbn. rewrite app_nil_r. split; reflexivity.
  - cbn [forallb] in Hall. apply andb_prop in Hall. destruct Hall as [Hd Hall].
    destruct msg as [| | | | |d]; try discriminate Hd.
    assert (Hstep : exists tally1,
      analyze_message nltk self type_error tally (PyDict d)
      = (Ok tally1, conversation_trace nltk self [PyDict d])
      /\ t_analyzed_messages tally1
         = t_analyzed_messages tally
           ++ map (fun dp => annotate (fst dp) (snd dp))
                  (answered nltk self [PyDict d])).
    { unfold analyze_message, answered, conversation_trace, call_predict.
      unfold tbind, pure, ret.
      cbn [flat_map py_in py_getitem py_items].
      destruct (dict_get "text" d) as [text|].
      - destruct (predict nltk self text) as [[p|err] t]; cbn [fst snd app].
        + eexists. rewrite !app_nil_r. split; reflexivity.
        + exists tally. rewrite !app_nil_r. split; reflexivity.
      - exists tally. cbn. rewrite app_nil_r. split; reflexivity. }
    destruct Hstep as (tally1 & Hstep & Ha1).
    destruct (IH Hall tally1) as (tally2 & Hloop & Ha2).
    exists tally2.
    rewrite (conversation_trace_cons nltk self (PyDict d) messages).
    rewrite (answered_cons (PyDict d) messages).
    cbn [analyze_messages]. rewrite Hstep. unfold tbind. rewrite Hloop.
    split; [reflexivity|].
    rewrite Ha2, Ha1, map_app, app_assoc. reflexivity.
Qed.

Lemma dict_get_set {V} k k' (v : V) d :
  dict_get k (dict_set k' v d)
  = if String.eqb k k' then Some v else dict_get k d.
Proof.
  induction d as [|[k0 v0] d IH]; cbn [dict_set dict_get].
  - destruct (String.eqb k k'); reflexivity.
  - destruct (String.eqb_spec k' k0) as [->|Hne]; cbn [dict_get].
    + destruct (String.eqb k k0); reflexivity.
    + rewrite IH. destruct (String.eqb_spec k k0) as [->|_]; [|reflexivity].
      destruct (String.eqb_spec k0 k'); [congruence|reflexivity].
Qed.

(** X16.  The summary of a conversation of [dict]s holds one annotated
    message for each message that has a [text] on which [predict]
    succeeds, in the order of the conversation: it has the emotion, the
    confidence and the emoji of the prediction under [emotion],
    [confidence] and [emoji], and every other field of the message as it
    was. *)
Theorem analyzed_messages_keep_fields data messages :
  dict_get "messages" data = Some (PyList messages) ->
  forallb is_dict messages = true ->
  exists s t,
    analyze_conversation nltk self type_error (Ok (PyDict data))
    = ((Summary s, 200), t)
    /\ Forall2
         (fun dp out =>
            dict_get "emotion" out = Some (PyStr (emotion (snd dp)))
            /\ dict_get "confidence" out = Some (PyNum (confidence (snd dp)))
            /\ dict_get "emoji" out = Some (PyStr (emoji (snd dp)))
            /\ forall k, k <> "emotion" -> k <> "confidence" -> k <> "emoji" ->
                 dict_get k out = dict_get k (fst dp))
         (answered nltk self messages) (analyzed_messages s).
Proof.
  intros Hget Hall.
  destruct (request_field type_error "messages" data _ Hget)
    as (Htruthy & Hin & Hitem).
  destruct (analyze_messages_annotated messages Hall
              {| t_analyzed_messages := [];
                 t_emotion_counts := [];
                 t_total_confidence := 0%Q |})
    as (tally & Hloop & Ha).
  exists (summarize tally), (conversation_trace nltk self messages). split.
  - unfold analyze_conversation, analyze_conversation_body.
    unfold pure at 1, tbind at 1. rewrite Htruthy, Hin.
    unfold pure at 1, tbind at 1. cbn [negb]. rewrite Hitem.
    unfold pure at 1, tbind at 1. rewrite Hloop.
    cbn. rewrite !app_nil_r. reflexivity.
  - unfold summarize. cbn [analyzed_messages]. rewrite Ha. cbn [app].
    clear Ha Hloop.
    induction (answered nltk self messages) as [|[d p] l IH]; [constructor|].
    cbn [map]. constructor; [|exact IH].
    unfold annotate. cbn [fst snd]. rewrite !dict_get_set. cbn.
    repeat split.
    intros k Hk1 Hk2 Hk3. rewrite !dict_get_set.
    destruct (String.eqb_spec k "emoji"); [congruence|].
    destruct (String.eqb_spec k "confidence"); [congruence|].
    destruct (String.eqb_spec k "emotion"); [congruence|reflexivity].
Qed.

Lemma list_sum_cons x l : list_sum (x :: l) = x + list_sum l.
Proof. reflexivity. Qed.

Lemma list_sum_map_add {A} (f g : A -> nat) l :
  list_sum (map (fun x => f x + g x) l)
  = list_sum (map f l) + list_sum (map g l).
Proof.
  induction l as [|x l IH]; [reflexivity|].
  cbn [map]. rewrite !list_sum_cons, IH. lia.
Qed.


Lemma sum_indicator ks l :
  NoDup ks ->
  list_sum (map (fun k => if String.eqb k l then 1 else 0) ks)
  = if mem l ks then 1 else 0.
Proof.
  induction 1 as [|k ks Hk _ IH]; [reflexivity|].
  cbn [map mem existsb]. rewrite list_sum_cons. fold (mem l ks). rewrite IH.
  rewrite (String.eqb_sym l k).
  destruct (String.eqb_spec k l) as [->|_]; [|reflexivity].
  apply mem_false in Hk. rewrite Hk. reflexivity.
Qed.

(** The occurrences of the labels of [ks] add up to the number of
    labels that are in [ks]. *)
Lemma sum_occurrences ks labels :
  NoDup ks ->
  list_sum (map (occurrences labels) ks)
  = length (filter (fun l => mem l ks) labels).
Proof.
  intros Hnd. induction labels as [|l labels IH].
  - cbn [filter length]. induction ks as [|k ks IHk]; [reflexivity|].
    cbn [map]. rewrite list_sum_cons. inversion Hnd; subst.
    rewrite IHk by assumption. reflexivity.
  - rewrite (map_ext _ (fun k => (if String.eqb k l then 1 else 0)
                                 + occurrences labels k))
      by (intros k; apply occurrences_cons).
    rewrite list_sum_map_add, IH, (sum_indicator ks l Hnd).
    cbn [filter]. destruct (mem l ks); reflexivity.
Qed.

Lemma count_in_table labels k :
  match dict_get k (table (occurrences labels) (first_seen labels)) with
  | Some n => n
  | None => 0
  end = occurrences labels k.
Proof.
  rewrite dict_get_table.
  destruct (mem k (first_seen labels)) eqn:Hm; [reflexivity|].
  apply mem_false in Hm. symmetry.
  apply (occurrences_first_seen type_error). exact Hm.
Qed.

(** X17.  In the summary of a conversation of [dict]s the counts of
    [emotion_distribution] add up to [total_messages]; the positive
    bucket counts the predictions "happiness", the negative one "anger",
    "sadness" and "stress", the neutral one "neutral"; so the three
    buckets add up to the number of predictions with a label of
    [EMOTION_CONFIG], which is [total_messages] only when no other label
    was predicted. *)
Theorem summary_counts data messages :
  dict_get "messages" data = Some (PyList messages) ->
  forallb is_dict messages = true ->
  exists s t,
    analyze_conversation nltk self type_error (Ok (PyDict data))
    = ((Summary s, 200), t)
    /\ let labels := map emotion (successes nltk self messages) in
       total_messages s = length labels
       /\ list_sum (map snd (emotion_distribution s)) = total_messages s
       /\ count (positive s) = occurrences labels "happiness"
       /\ count (negative s)
          = occurrences labels "anger" + occurrences labels "sadness"
            + occurrences labels "stress"
       /\ count (neutral s) = occurrences labels "neutral"
       /\ count (positive s) + count (negative s) + count (neutral s)
          = length (filter (fun l => mem l known_emotions) labels)
       /\ count (positive s) + count (negative s) + count (neutral s)
          <= total_messages s.
Proof.
  intros Hget Hall.
  destruct (analyze_conversation_run nltk self type_error data messages
              Hget Hall) as (tally & Hrun & Hlen & Hcounts & _).
  exists (summarize tally), (conversation_trace nltk self messages).
  split; [exact Hrun|]. cbv zeta.
  set (labels := map emotion (successes nltk self messages)) in *.
  unfold summarize.
  cbn [total_messages emotion_distribution positive negative neutral count].
  rewrite Hcounts, counting.
  assert (Hpos : count_of (table (occurrences labels) (first_seen labels))
                          ["happiness"]
                 = occurrences labels "happiness").
  { unfold count_of. cbn [fold_left]. rewrite count_in_table. reflexivity. }
  assert (Hneg : count_of (table (occurrences labels) (first_seen labels))
                          ["anger"; "sadness"; "stress"]
                 = occurrences labels "anger" + occurrences labels "sadness"
                   + occurrences labels "stress").
  { unfold count_of. cbn [fold_left]. rewrite !count_in_table. reflexivity. }
  assert (Hknown : occurrences labels "happiness"
                   + (occurrences labels "anger" + occurrences labels "sadness"
                      + occurrences labels "stress")
                   + occurrences labels "neutral"
                   = length (filter (fun l => mem l known_emotions) labels)).
  { rewrite <- sum_occurrences.
    - cbn [known_emotions keys EMOTION_CONFIG map fst].
      rewrite !list_sum_cons. cbn [list_sum fold_right]. lia.
    - cbn [known_emotions keys EMOTION_CONFIG map fst].
      repeat constructor; cbn [In]; intuition discriminate. }
  rewrite Hpos, Hneg, count_in_table, Hknown, Hlen.
  assert (Htotal : length (successes nltk self messages) = length labels)
    by (unfold labels; rewrite length_map; reflexivity).
  rewrite Htotal. repeat split.
  - unfold table. rewrite map_map. cbn [snd].
    rewrite sum_occurrences by (apply fold_see_NoDup; constructor).
    f_equal. apply forallb_filter_id. apply forallb_forall.
    intros l Hl. apply mem_In. apply (in_fold_see type_error). right. exact Hl.
  - apply filter_length_le.
Qed.

Lemma analyze_messages_app tally pre rest tally1 t1 :
  analyze_messages nltk self type_error tally pre = (Ok tally1, t1) ->
  analyze_messages nltk self type_error tally (pre ++ rest)
  = let (r, t2) := analyze_messages nltk self type_error tally1 rest in
    (r, t1 ++ t2).
Proof.
  revert tally t1. induction pre as [|msg pre IH]; intros tally t1 H.
  - cbn in H. injection H as <- <-. cbn [app].
    destruct (analyze_messages _ _ _ tally rest). reflexivity.
  - cbn [app analyze_messages] in *. unfold tbind in *.
    destruct (analyze_message nltk self type_error tally msg) as [[tally0|e] t0];
      [|discriminate H].
    destruct (analyze_messages nltk self type_error tally0 pre)
      as [[tally'|e] t'] eqn:Hpre; [|discriminate H].
    injection H as <- <-.
    rewrite (IH tally0 t' Hpre).
    destruct (analyze_messages nltk self type_error tally' rest) as [r t2].
    rewrite app_assoc. reflexivity.
Qed.

(** X18.  One message on which the test for [text] or the access to it
    raises (a number, [None], a boolean, or a string that contains
    "text") makes the whole analysis fail with status 500 and the text
    of that exception, although the messages before it were predicted. *)
Theorem malformed_message_fails_analysis data pre bad rest e :
  dict_get "messages" data = Some (PyList (pre ++ bad :: rest)) ->
  forallb is_dict pre = true ->
  py_in type_error "text" bad = Raise e
  \/ (py_in type_error "text" bad = Ok true
      /\ py_getitem type_error bad "text" = Raise e) ->
  analyze_conversation nltk self type_error (Ok (PyDict data))
  = ((Error e, 500), conversation_trace nltk self pre).
Proof.
  intros Hget Hall Hbad.
  destruct (request_field type_error "messages" data _ Hget)
    as (Htruthy & Hin & Hitem).
  destruct (analyze_messages_annotated pre Hall
              {| t_analyzed_messages := [];
                 t_emotion_counts := [];
                 t_total_confidence := 0%Q |})
    as (tally & Hloop & _).
  assert (Hstep : analyze_message nltk self type_error tally bad = (Raise e, [])).
  { unfold analyze_message, pure, tbind.
    destruct Hbad as [->|[-> ->]]; reflexivity. }
  unfold analyze_conversation, analyze_conversation_body.
  unfold pure at 1, tbind at 1. rewrite Htruthy, Hin.
  unfold pure at 1, tbind at 1. cbn [negb]. rewrite Hitem.
  unfold pure at 1, tbind at 1.
  rewrite (analyze_messages_app _ pre (bad :: rest) tally _ Hloop).
  cbn [analyze_messages]. unfold tbind at 2. rewrite Hstep.
  cbn. rewrite !app_nil_r. reflexivity.
Qed.

End SummaryFacts.

Section PercentFacts.

(** X19.  The percentage of a bucket lies between 0 and 100 whenever
    its count does not exceed the total; it is 0 when the total is 0 and
    100 when the bucket holds every message. *)
Theorem percent_in_range n total :
  n <= total ->
  (0 <= percent n total <= 100)%Q
  /\ (total = 0 -> percent n total = 0%Q)
  /\ (0 < total -> n = total -> (percent n total == 100)%Q).
Proof.
  intros Hle. unfold percent.
  destruct (Nat.ltb_spec 0 total) as [Hpos|Hzero].
  - assert (Htotal : (0 < inject_Z (Z.of_nat total))%Q).
    { change 0%Q with (inject_Z 0). rewrite <- Zlt_Qlt. lia. }
    assert (Hn : (0 <= inject_Z (Z.of_nat n))%Q).
    { change 0%Q with (inject_Z 0). rewrite <- Zle_Qle. lia. }
    assert (Hnt : (inject_Z (Z.of_nat n) <= inject_Z (Z.of_nat total))%Q).
    { rewrite <- Zle_Qle. lia. }
    assert (Hratio : (0 <= inject_Z (Z.of_nat n) / inject_Z (Z.of_nat total)
                      <= 1)%Q).
    { split.
      - apply Qle_shift_div_l; [exact Htotal|]. lra.
      - apply Qle_shift_div_r; [exact Htotal|]. lra. }
    assert (Hfloat : (0 <= fdiv (inject_Z (Z.of_nat n))
                               (inject_Z (Z.of_nat total)) <= 1)%Q).
    { unfold fdiv. split.
      - rewrite <- float_0 at 1. apply float_mono. apply Hratio.
      - apply (Qle_trans _ (float 1)); [apply float_mono, Hratio|].
        rewrite float_1. apply Qle_refl. }
    repeat split.
    + rewrite <- percent_0 at 1. apply percent_mono. apply Hfloat.
    + rewrite <- percent_1 at 2. apply percent_mono. apply Hfloat.
    + lia.
    + intros _ ->.
      assert (Hone : (inject_Z (Z.of_nat total) / inject_Z (Z.of_nat total)
                      == 1)%Q).
      { field. intros H0. rewrite H0 in Htotal. discriminate Htotal. }
      assert (Hfone : (1 <= fdiv (inject_Z (Z.of_nat total))
                                (inject_Z (Z.of_nat total)))%Q).
      { unfold fdiv. apply (Qle_trans _ (float 1)).
        - rewrite float_1. apply Qle_refl.
        - apply float_mono. rewrite Hone. apply Qle_refl. }
      apply Qle_antisym.
      * rewrite <- percent_1 at 2. apply percent_mono. apply Hfloat.
      * rewrite <- percent_1 at 1. apply percent_mono. exact Hfone.
  - repeat split; try discriminate; try reflexivity. lia.
Qed.

End PercentFacts.

(** ** The average confidence and the mean *)

Section FloatMeanFacts.
Local Open Scope Q_scope.

Lemma ilog2_le a k : (0 <= k)%Z -> 0 <= a -> a <= 2 ^ k -> (ilog2 a <= k)%Z.
Proof.
  intros Hk H0 Ha.
  destruct (Qlt_le_dec 0 a) as [Hpos|Hzero].
  - destruct (ilog2_spec a Hpos) as [Hlo _].
    apply (Qpower_le_compat_l_inv 2); [|reflexivity]. lra.
  - assert (Hn : Qnum a = 0%Z).
    { destruct a as [n d]. unfold Qle in *. cbn in *. lia. }
    unfold ilog2. rewrite Hn. change (Z.log2 0) with 0%Z.
    pose proof (Z.log2_nonneg (Z.pos (Qden a))).
    destruct (Qle_bool _ a); lia.
Qed.

(** Below 2 ^ 17 rounding to a float moves a number by at most
    2 ^ -36. *)
Lemma float_error y :
  Qabs y <= 131072 -> Qabs (y - float y) <= 1 # 68719476736.
Proof.
  intros Hy. destruct (float_binary64 y) as [_ Herr].
  apply (Qle_trans _ _ _ Herr).
  change (1 # 68719476736) with (2 ^ (-36)).
  apply pow2_le.
  assert (Hl : (ilog2 (Qabs y) <= 17)%Z).
  { apply ilog2_le; [lia|apply Qabs_nonneg|exact Hy]. }
  unfold exponent. lia.
Qed.

Lemma float_error_bounds y :
  - (131072) <= y <= 131072 ->
  - (1 # 68719476736) <= y - float y <= 1 # 68719476736.
Proof.
  intros Hy. apply Qabs_Qle_condition. apply float_error.
  apply Qabs_Qle_condition. exact Hy.
Qed.

Lemma inject_nat_succ k :
  inject_Z (Z.of_nat (S k)) == inject_Z (Z.of_nat k) + 1.
Proof. rewrite Nat2Z.inj_succ. unfold Z.succ. rewrite inject_Z_plus. reflexivity. Qed.

Lemma inject_nat_bounds k n :
  (k <= n)%nat -> 0 <= inject_Z (Z.of_nat k) <= inject_Z (Z.of_nat n).
Proof.
  intros H. split.
  - change 0 with (inject_Z 0). rewrite <- Zle_Qle. lia.
  - rewrite <- Zle_Qle. lia.
Qed.

(** The floating point sum of at most 1000 numbers between 0 and 100
    differs from their sum by at most 2 ^ -36 for each of them. *)
Lemma float_sum_error xs :
  Forall (fun x => 0 <= x <= 100) xs ->
  forall k af ae,
    (k + length xs <= 1000)%nat ->
    0 <= ae <= 100 * inject_Z (Z.of_nat k) ->
    - (inject_Z (Z.of_nat k) * (1 # 68719476736)) <= af - ae
      <= inject_Z (Z.of_nat k) * (1 # 68719476736) ->
    let n := inject_Z (Z.of_nat (k + length xs)) in
    - (n * (1 # 68719476736))
      <= fold_left fadd xs af - fold_left Qplus xs ae
      <= n * (1 # 68719476736)
    /\ 0 <= fold_left Qplus xs ae <= 100 * n.
Proof.
  induction 1 as [|x xs Hx Hxs IH]; intros k af ae Hk Hae Herr.
  - cbn [fold_left length]. rewrite Nat.add_0_r. cbv zeta. split; assumption.
  - cbn [fold_left length] in *.
    replace (k + S (length xs))%nat with (S k + length xs)%nat in * by lia.
    cbv beta in Hx.
    pose proof (inject_nat_bounds k 1000 ltac:(lia)) as Hk'.
    change (inject_Z (Z.of_nat 1000)) with 1000 in Hk'.
    assert (Hf : - (1 # 68719476736) <= af + x - float (af + x)
                 <= 1 # 68719476736).
    { apply float_error_bounds. lra. }
    apply IH; [exact Hk| |]; rewrite inject_nat_succ; unfold fadd; lra.
Qed.

(** For at most 1000 numbers between 0 and 100, the floating point mean
    rounded to 2 decimals differs from their mean by at most 0.005 and
    three roundings to a float. *)
Lemma rounded_float_mean_error xs :
  Forall (fun x => 0 <= x <= 100) xs -> (length xs <= 1000)%nat ->
  Qabs (py_round2 (float_mean xs) - mean xs) <= (1 # 200) + (3 # 68719476736).
Proof.
  intros Hxs Hlen.
  assert (Hround : forall v, - (1) <= v <= 101 ->
            - ((1 # 200) + (1 # 68719476736)) <= py_round2 v - v
            <= (1 # 200) + (1 # 68719476736)).
  { intros v Hv. unfold py_round2.
    destruct (round_half_even_nearest (v * 100)) as [Hn _].
    apply Qabs_Qle_condition in Hn.
    set (k := round_half_even (v * 100)) in *.
    assert (Hk : k # 100 == inject_Z k / 100) by apply Qmake_Qdiv.
    assert (Hd : - (1 # 200) <= v - (k # 100) <= 1 # 200).
    { rewrite Hk. unfold Qdiv. change (/ 100) with (1 # 100). lra. }
    pose proof (float_error_bounds (k # 100) ltac:(lra)). lra. }
  destruct xs as [|x xs'].
  - apply Qabs_Qle_condition. split; vm_compute; discriminate.
  - remember (x :: xs') as xs eqn:Hcons.
    assert (Hpos : (0 < length xs)%nat) by (rewrite Hcons; cbn; lia).
    destruct (float_sum_error xs Hxs 0 0 0) as [Herr Hsum].
    { exact Hlen. }
    { split; vm_compute; discriminate. }
    { split; vm_compute; discriminate. }
    cbn [Nat.add] in Herr, Hsum.
    assert (Hf : float_mean xs
                 = float (fold_left fadd xs 0
                          / inject_Z (Z.of_nat (length xs)))).
    { rewrite Hcons. reflexivity. }
    assert (Hm : mean xs
                 = fold_left Qplus xs 0 / inject_Z (Z.of_nat (length xs))).
    { rewrite Hcons. reflexivity. }
    rewrite Hf, Hm. clear Hf Hm.
    set (S := fold_left fadd xs 0) in *.
    set (E := fold_left Qplus xs 0) in *.
    set (n := inject_Z (Z.of_nat (length xs))) in *.
    assert (Hn : 1 <= n).
    { unfold n. change 1 with (inject_Z 1). rewrite <- Zle_Qle. lia. }
    assert (Hn0 : 0 < n) by lra.
    assert (Hq : S / n - E / n == (S - E) / n).
    { field. intros H0. rewrite H0 in Hn0. discriminate Hn0. }
    assert (H1 : (S - E) / n <= 1 # 68719476736).
    { apply Qle_shift_div_r; [exact Hn0|]. lra. }
    assert (H2 : - (1 # 68719476736) <= (S - E) / n).
    { apply Qle_shift_div_l; [exact Hn0|]. lra. }
    assert (H3 : 0 <= E / n <= 100).
    { split.
      - apply Qle_shift_div_l; [exact Hn0|]. lra.
      - apply Qle_shift_div_r; [exact Hn0|]. lra. }
    pose proof (float_error_bounds (S / n) ltac:(lra)) as H4.
    pose proof (Hround (float (S / n)) ltac:(lra)) as H5.
    apply Qabs_Qle_condition. lra.
Qed.

End FloatMeanFacts.

Section AverageFacts.

Variable nltk : NLTK.
Variable self : Predictor.
Variable type_error : string -> pyval -> exn.

(** A request whose [messages] are [dict]s gets a summary whose
    average confidence is the rounded floating point mean of the
    confidences of the successful predictions. *)
Lemma analyze_conversation_average data messages :
  dict_get "messages" data = Some (PyList messages) ->
  forallb is_dict messages = true ->
  exists s t,
    analyze_conversation nltk self type_error (Ok (PyDict data))
    = ((Summary s, 200), t)
    /\ average_confidence s
       = py_round2 (float_mean (map confidence (successes nltk self messages))).
Proof.
  intros Hget Hall.
  destruct (analyze_conversation_run nltk self type_error data messages
              Hget Hall)
    as (tally & Hrun & Hlen & _ & Htotal).
  exists (summarize tally), (conversation_trace nltk self messages).
  split; [exact Hrun|].
  unfold summarize. cbn [average_confidence]. rewrite Htotal.
  unfold float_mean, float_sum. rewrite length_map, <- Hlen.
  destruct (t_analyzed_messages tally),
           (successes nltk self messages); try discriminate Hlen;
    reflexivity.
Qed.

(** X23.  When the confidences of the successful predictions lie
    between 0 and 100 and there are at most 1000 of them, the average
    confidence reported differs from their arithmetic mean by at most
    0.005, the rounding to 2 decimals, and 10 ^ -10, the rounding of
    the floating point operations. *)
Theorem average_confidence_near_mean data messages :
  dict_get "messages" data = Some (PyList messages) ->
  forallb is_dict messages = true ->
  length (successes nltk self messages) <= 1000 ->
  (forall p, In p (successes nltk self messages) ->
             (0 <= confidence p <= 100)%Q) ->
  exists s t,
    analyze_conversation nltk self type_error (Ok (PyDict data))
    = ((Summary s, 200), t)
    /\ (Qabs (average_confidence s
              - mean (map confidence (successes nltk self messages)))
        <= (1 # 200) + (1 # 10000000000))%Q.
Proof.
  intros Hget Hall Hlen Hrange.
  destruct (analyze_conversation_average data messages Hget Hall)
    as (s & t & Hrun & Havg).
  exists s, t. split; [exact Hrun|]. rewrite Havg.
  apply (Qle_trans _ ((1 # 200) + (3 # 68719476736))%Q);
    [|vm_compute; discriminate].
  apply rounded_float_mean_error.
  - apply Forall_forall. intros c Hc. apply in_map_iff in Hc.
    destruct Hc as (p & <- & Hp). apply Hrange. exact Hp.
  - rewrite length_map. exact Hlen.
Qed.

End AverageFacts.

(** ** What the normalised text is made of *)

Section TokenFacts.

Variable nltk : NLTK.



End TokenFacts.

(** ** The further properties on examples *)

Lemma all_probabilities_bounded_witness :
  exists r t,
    predict Sample.nltk SampleModel.self (PyStr "I am furious") = (Success r, t)
    /\ length (all_probabilities r) <= 5
    /\ NoDup (keys (all_probabilities r)).
Proof.
  eexists. eexists. split; [reflexivity|].
  destruct (all_probabilities_bounded
              Sample.nltk SampleModel.self (PyStr "I am furious") _ _ eq_refl)
    as (Hlen & Hnd & _).
  split; [exact Hlen|exact Hnd].
Defined.

Lemma confidence_in_range_witness :
  exists r t,
    predict Sample.nltk SampleModel.self (PyStr "I am furious") = (Success r, t)
    /\ (0 <= confidence r <= 100)%Q.
Proof.
  eexists. eexists. split; [reflexivity|].
  refine (proj1 (confidence_in_range
                   Sample.nltk SampleModel.self (PyStr "I am furious") _ _
                   _ eq_refl)).
  intros f v probs q Hf Hv Hq. cbn in Hf. injection Hf as <-.
  unfold SampleModel.proba_of in Hv.
  repeat match type of Hv with
         | (if ?c then _ else _) = _ => destruct c
         end;
    try discriminate Hv;
    injection Hv as <-; cbn [map] in Hq;
    repeat (destruct Hq as [<-|Hq]; [split; vm_compute; discriminate|]);
    destruct Hq.
Defined.

Lemma predict_calls_witness :
  exists p,
    preprocess_text Sample.nltk (PyStr "the build will crash") = Ok p
    /\ snd (predict Sample.nltk SampleModel.self (PyStr "the build will crash"))
       = [Transform p; Predict].
Proof.
  destruct (predict_calls Sample.nltk SampleModel.self
              (PyStr "the build will crash") _ _ eq_refl)
    as [[Ht _]|(p & Hp & _ & _)].
  - discriminate Ht.
  - exists p. split; [exact Hp|].
    cbn in Hp. injection Hp as <-. reflexivity.
Defined.

Lemma success_fields_witness :
  exists r t v,
    predict Sample.nltk SampleModel.self (PyStr "I am so HAPPY!") = (Success r, t)
    /\ original_text r = PyStr "I am so HAPPY!"
    /\ processed_text r = "happy"
    /\ model_predict SampleModel.self v = Ok (emotion r).
Proof.
  eexists. eexists.
  destruct (success_fields Sample.nltk SampleModel.self
              (PyStr "I am so HAPPY!") _ _ eq_refl)
    as (s & v & _ & _ & _ & _ & _ & Hlabel & _).
  exists v. split; [reflexivity|]. split; [reflexivity|].
  split; [reflexivity|exact Hlabel].
Defined.

Lemma success_without_probabilities_witness :
  exists r t,
    predict Sample.nltk SampleModel.plain (PyStr "I am furious") = (Success r, t)
    /\ (confidence r == 100)%Q.
Proof.
  eexists. eexists. split; [reflexivity|].
  exact (proj1 (success_without_probabilities
                  Sample.nltk SampleModel.plain (PyStr "I am furious") _ _
                  eq_refl eq_refl)).
Defined.

Lemma predict_emotion_refusal_witness :
  snd (fst (predict_emotion Sample.nltk SampleModel.self SampleModel.type_error
              (Ok (PyList [PyStr "I am so happy"])) "id" "now"
              SampleRequests.history))
  = SampleRequests.history
  /\ snd (predict_emotion Sample.nltk SampleModel.self SampleModel.type_error
            (Ok (PyList [PyStr "I am so happy"])) "id" "now"
            SampleRequests.history)
     = [].
Proof.
  destruct (predict_emotion_refusal
              Sample.nltk SampleModel.self SampleModel.type_error
              (Ok (PyList [PyStr "I am so happy"])) "id" "now"
              SampleRequests.history) as (_ & _ & Hh & Ht).
  - cbn. discriminate.
  - split; [exact Hh|exact Ht].
Defined.

Lemma predict_emotion_validation_witness :
  predict_emotion Sample.nltk SampleModel.self SampleModel.type_error
    (Ok (PyDict (SampleRequests.saving "   "))) "id" "now" SampleRequests.history
  = (((Error "Text is required", 400), SampleRequests.history), []).
Proof.
  refine (proj1 (predict_emotion_validation
                   Sample.nltk SampleModel.self SampleModel.type_error
                   (SampleRequests.saving "   ") "   " "id" "now"
                   SampleRequests.history _ _) _).
  - discriminate.
  - right. reflexivity.
  - reflexivity.
Defined.

Lemma predict_emotion_answer_witness :
  predict_emotion Sample.nltk SampleModel.self SampleModel.type_error
    (Ok (PyDict (SampleRequests.not_saving " !!! "))) "id" "now"
    SampleRequests.history
  = (((Single (Failure "Text is empty after preprocessing"), 200),
      SampleRequests.history), []).
Proof.
  apply (predict_emotion_answer
           Sample.nltk SampleModel.self SampleModel.type_error
           (SampleRequests.not_saving " !!! ") " !!! " "id" "now"
           SampleRequests.history).
  - reflexivity.
  - discriminate.
  - cbn. lia.
Defined.

Lemma get_history_after_record_witness :
  get_history 2 (record (SampleModel.entry "c") SampleRequests.history)
  = (History 2 [SampleModel.entry "c"; SampleModel.entry "b"], 200).
Proof.
  destruct (get_history_after_record
              2 (SampleModel.entry "c") SampleRequests.history)
    as (Hsame & _ & _).
  - cbn. lia.
  - lia.
  - rewrite Hsame. reflexivity.
Defined.

Lemma analyzed_messages_keep_fields_witness :
  exists s t,
    analyze_conversation Sample.nltk SampleModel.self SampleModel.type_error
      (Ok (PyDict (SampleModel.conversation SampleModel.three_messages)))
    = ((Summary s, 200), t)
    /\ length (analyzed_messages s) = 3.
Proof.
  destruct (analyzed_messages_keep_fields
              Sample.nltk SampleModel.self SampleModel.type_error
              (SampleModel.conversation SampleModel.three_messages)
              SampleModel.three_messages eq_refl eq_refl)
    as (s & t & Hrun & Hall).
  exists s, t. split; [exact Hrun|].
  rewrite <- (Forall2_length Hall). reflexivity.
Defined.

Lemma summary_counts_witness :
  exists s t,
    analyze_conversation Sample.nltk SampleModel.self SampleModel.type_error
      (Ok (PyDict (SampleModel.conversation SampleModel.surprising_messages)))
    = ((Summary s, 200), t)
    /\ total_messages s = 1
    /\ count (positive s) + count (negative s) + count (neutral s) = 0.
Proof.
  destruct (summary_counts
              Sample.nltk SampleModel.self SampleModel.type_error
              (SampleModel.conversation SampleModel.surprising_messages)
              SampleModel.surprising_messages eq_refl eq_refl)
    as (s & t & Hrun & Htotal & _ & _ & _ & _ & Hsum & _).
  exists s, t. split; [exact Hrun|].
  split; [rewrite Htotal; reflexivity|rewrite Hsum; reflexivity].
Defined.

Lemma malformed_message_fails_analysis_witness :
  analyze_conversation Sample.nltk SampleModel.self SampleModel.type_error
    (Ok (PyDict SampleRequests.broken_conversation))
  = ((Error (SampleModel.type_error "in" (PyNum 3)), 500),
     [Transform "happy"; Predict; PredictProba;
      Transform "furious"; Predict; PredictProba]).
Proof.
  apply (malformed_message_fails_analysis
           Sample.nltk SampleModel.self SampleModel.type_error
           SampleRequests.broken_conversation
           [SampleModel.message "ann" "I am so happy";
            SampleModel.message "bob" "I am furious"]
           (PyNum 3) [SampleModel.message "ann" "happy again"]).
  - reflexivity.
  - reflexivity.
  - left. reflexivity.
Defined.

Lemma percent_in_range_witness : (0 <= percent 1 3 <= 100)%Q.
Proof.
  apply (percent_in_range 1 3). lia.
Defined.


Lemma negation_word_kept_witness :
  In "never" ["never"; "happy"].
Proof.
  apply (negation_word_kept Sample.nltk Sample.words "I am never happy"
           ["i"; "am"; "never"; "happy"] ["never"; "happy"] "never" "never").
  - reflexivity.
  - reflexivity.
  - reflexivity.
  - cbn. tauto.
  - discriminate.
  - cbn. tauto.
  - reflexivity.
Defined.

Lemma predict_emotion_history_bound_witness :
  length (snd (fst (predict_emotion
                      Sample.nltk SampleModel.self SampleModel.type_error
                      (Ok (PyDict (SampleRequests.saving "I am so happy")))
                      "id" "now" (repeat (SampleModel.entry "old") 100))))
  <= 100.
Proof.
  apply (predict_emotion_history_bound
           Sample.nltk SampleModel.self SampleModel.type_error).
  rewrite repeat_length. apply le_n.
Defined.

Lemma average_confidence_near_mean_witness :
  exists s t,
    analyze_conversation Sample.nltk SampleModel.self SampleModel.type_error
      (Ok (PyDict (SampleModel.conversation SampleModel.three_messages)))
    = ((Summary s, 200), t)
    /\ (Qabs (average_confidence s
              - mean (map confidence
                          (successes Sample.nltk SampleModel.self
                                     SampleModel.three_messages)))
        <= (1 # 200) + (1 # 10000000000))%Q.
Proof.
  apply (average_confidence_near_mean
           Sample.nltk SampleModel.self SampleModel.type_error
           (SampleModel.conversation SampleModel.three_messages)
           SampleModel.three_messages).
  - reflexivity.
  - reflexivity.
  - vm_compute. lia.
  - intros p Hp. vm_compute in Hp.
    repeat (destruct Hp as [<-|Hp]; [split; vm_compute; discriminate|]).
    destruct Hp.
Defined.
